(** * ran_demo.py: the three scheduling simulators

    A shallow embedding of [simulate_das], [simulate_pf],
    [simulate_csi_smoothing] and [simulate_fragmentation_aware] of
    [ran_demo.py], and the properties of the specification proved (or
    refuted) on it.

    Conventions of the embedding.
    - Python [int] is [Z]; counts produced by [len] are converted with
      [Z.of_nat].
    - Python [float] is idealised as an exact rational [Q]; the one special
      value the simulators can produce, the [nan] that [np.mean] returns on
      an empty list, is explicit in [npfloat].
    - The process-wide generators of [numpy.random] and [random] are the
      state threaded by the monad [M]; what they draw is left abstract
      ([NumpyRandom]), so every theorem holds for every sequence of draws.
    - A raised exception is the [Raise] outcome of [M].
    - A Python object mutated in place (a user, a packet, a fragment) is
      a value at a position of its list; where two lists hold the same
      objects (the fragments and the clusters) they hold positions of one
      store. *)

From Stdlib Require Import ZArith QArith Qabs Lia List Bool Sorted.
From stdpp Require Import base option list gmap sorting.

Local Open Scope Z_scope.

(** ** Exceptions, the generator and the monad *)

Inductive exn : Type := ValueError | KeyError | StopIteration.

Inductive Res (A : Type) : Type :=
| Ok (a : A)
| Raise (e : exn).
Arguments Ok {A} a.
Arguments Raise {A} e.

(** The draws of [numpy.random] used by the simulators, as transitions of the
    generator's state. [np_seed s] is [None] when numpy rejects the seed
    (it raises [ValueError] outside [0, 2**32)). *)
Class NumpyRandom : Type := {
  np_state : Type;
  py_state : Type;
  np_seed : Z -> option np_state;
  py_seed : Z -> py_state;
  np_random : np_state -> Q * np_state;
  np_uniform : Q -> Q -> np_state -> Q * np_state;
  np_normal : Q -> Q -> np_state -> Q * np_state;
  np_randint : Z -> Z -> np_state -> Z * np_state
}.

(** The two module-level generators: numpy's and the one of [random]. *)
Record World `{NumpyRandom} : Type := mkWorld {
  np_gen : np_state;
  py_gen : py_state
}.

Definition M `{NumpyRandom} (A : Type) : Type := World -> Res (A * World).

Definition ret `{NumpyRandom} {A} (a : A) : M A := fun w => Ok (a, w).

Definition bind `{NumpyRandom} {A B} (m : M A) (k : A -> M B) : M B :=
  fun w => match m w with
           | Ok (a, w') => k a w'
           | Raise e => Raise e
           end.

Definition raise `{NumpyRandom} {A} (e : exn) : M A := fun _ => Raise e.

Declare Scope py_scope.
Delimit Scope py_scope with py.
Notation "x <- m ;; k" := (bind m (fun x => k))
  (at level 20, m at level 99, k at level 200, only parsing) : py_scope.
Notation "' pat <- m ;; k" := (bind m (fun x => match x with pat => k end))
  (at level 20, pat pattern, m at level 99, k at level 200, only parsing) : py_scope.
Local Open Scope py_scope.

(** A draw from numpy's generator. *)
Definition draw `{NumpyRandom} {A} (f : np_state -> A * np_state) : M A :=
  fun w => let '(a, g) := f (np_gen w) in Ok (a, mkWorld _ g (py_gen w)).

Definition random `{NumpyRandom} : M Q := draw np_random.
Definition uniform `{NumpyRandom} (lo hi : Q) : M Q := draw (np_uniform lo hi).
Definition normal `{NumpyRandom} (mu sigma : Q) : M Q := draw (np_normal mu sigma).
Definition randint `{NumpyRandom} (lo hi : Z) : M Z := draw (np_randint lo hi).

(** [np.random.seed(seed); random.seed(seed)] *)
Definition seed_all `{NumpyRandom} (s : Z) : M unit :=
  fun w => match np_seed s with
           | Some g => Ok (tt, mkWorld _ g (py_seed s))
           | None => Raise ValueError
           end.

(** [for x in l: ...] where the body mutates the object [x] in place, or
    builds one object per [x] and appends it to a list. *)
Fixpoint for_objects `{NumpyRandom} {A B} (body : A -> M B) (l : list A) : M (list B) :=
  match l with
  | [] => ret []
  | x :: r => x' <- body x ;; r' <- for_objects body r ;; ret (x' :: r')
  end.

(** [for x in l: ...] where the body mutates [x] in place and rebinds the
    loop state [S]. *)
Fixpoint for_objects_with `{NumpyRandom} {A S} (body : A -> S -> M (A * S))
    (l : list A) (s : S) : M (list A * S) :=
  match l with
  | [] => ret ([], s)
  | x :: r =>
      ' (x', s') <- body x s ;;
      ' (r', s'') <- for_objects_with body r s' ;;
      ret (x' :: r', s'')
  end.

(** [d[k]] on a dict with integer keys: [KeyError] when [k] is absent. *)
Definition dict_get `{NumpyRandom} {V} (d : gmap nat V) (k : nat) : M V :=
  match d !! k with
  | Some v => ret v
  | None => raise KeyError
  end.

(** [for slot in range(n): ...] on the loop state. *)
Fixpoint for_range `{NumpyRandom} {S} (n : nat) (body : S -> M S) (s : S) : M S :=
  match n with
  | O => ret s
  | Datatypes.S k => s' <- body s ;; for_range k body s'
  end.

(** ** Floats *)

Definition Qltb (x y : Q) : bool := negb (Qle_bool y x).

(** Python's [max(a, b)]: [b] only when it is strictly greater. *)
Definition pymax (a b : Q) : Q := if Qltb a b then b else a.

(** A numpy float: a number or [nan]. *)
Inductive npfloat : Type := Num (q : Q) | NaN.

Definition nf_add (a b : npfloat) : npfloat :=
  match a, b with
  | Num x, Num y => Num (x + y)
  | _, _ => NaN
  end.

Definition nf_sum (l : list npfloat) : npfloat := foldr nf_add (Num 0) l.

(** [np.mean(l)]: the sum over the length; on an empty list numpy divides
    [0.0] by [0], warns, and returns [nan]. *)
Definition np_mean (l : list npfloat) : npfloat :=
  match l with
  | [] => NaN
  | _ :: _ => match nf_sum l with
              | Num s => Num (s / inject_Z (Z.of_nat (length l)))
              | NaN => NaN
              end
  end.

Definition Qsum (l : list Q) : Q := foldr Qplus 0%Q l.
Definition Zsum (l : list Z) : Z := foldr Z.add 0 l.

(** [l[-50:]] *)
Definition last50 {A} (l : list A) : list A := drop (length l - 50)%nat l.

(** [max(l, key=key)] with the position of the winner, which stands for the
    identity of the selected object: the first maximum encountered;
    [None] is the [ValueError] of an empty sequence. *)
Fixpoint max_from {A} (key : A -> Q) (best : nat * A) (i : nat) (l : list A) : nat * A :=
  match l with
  | [] => best
  | x :: r =>
      max_from key (if Qltb (key (snd best)) (key x) then (i, x) else best) (Datatypes.S i) r
  end.

Definition max_by {A} (key : A -> Q) (l : list A) : option (nat * A) :=
  match l with
  | [] => None
  | x :: r => Some (max_from key (0%nat, x) 1%nat r)
  end.

(** The percentage in [0, 100] that a rate must be. *)
Definition percent (q : Q) : Prop := (0 <= q)%Q /\ (q <= 100)%Q.

Definition nf_percent (x : npfloat) : Prop :=
  match x with
  | Num q => percent q
  | NaN => False
  end.

(** ** Solution 1: delay-aware scheduling *)

Module DAS.

Inductive Service : Type := URLLC | eMBB | mMTC.

Definition is_urllc (s : Service) : bool :=
  match s with URLLC => true | _ => false end.

Record Packet : Type := mkPacket {
  remaining_time : Z;
  size : Q
}.

Record User : Type := mkUser {
  id : nat;
  service_type : Service;
  instantaneous_rate : Q;
  avg_throughput : Q;
  packets : list Packet;
  pdb : Z
}.

Definition set_packets (ps : list Packet) (u : User) : User :=
  {| id := id u; service_type := service_type u;
     instantaneous_rate := instantaneous_rate u;
     avg_throughput := avg_throughput u; packets := ps; pdb := pdb u |}.

Definition set_rate (r : Q) (u : User) : User :=
  {| id := id u; service_type := service_type u;
     instantaneous_rate := r;
     avg_throughput := avg_throughput u; packets := packets u; pdb := pdb u |}.

(** Line 64. *)
Definition age (p : Packet) : Packet :=
  {| remaining_time := remaining_time p - 1; size := size p |}.

Definition age_packets (us : list User) : list User :=
  map (fun u => set_packets (map age (packets u)) u) us.

(** Lines 70-79. *)
Definition w1_of (u : User) : Q :=
  let total_buffer :=
    match packets u with
    | [] => 0.0%Q
    | _ :: _ => fold_left Qplus (map size (packets u)) 0%Q
    end in
  if Qltb 0 total_buffer then
    fold_left
      (fun w1 p =>
         let rt := remaining_time p in
         if 0 <? rt then
           (w1 + (size p / total_buffer)
                 * pymax 0.0 (1 - inject_Z rt / inject_Z (pdb u)))%Q
         else w1)
      (packets u) 0.0%Q
  else 0.0%Q.

Definition w2_of (u : User) : Q :=
  (instantaneous_rate u / pymax (avg_throughput u) 0.001)%Q.

Definition priority (beta : Q) (u : User) : Q :=
  (beta * w1_of u + (1 - beta) * w2_of u)%Q.

(** A dict in insertion order: assigning to a present key keeps its place. *)
Fixpoint odict_set (k : nat) (v : Q) (d : list (nat * Q)) : list (nat * Q) :=
  match d with
  | [] => [(k, v)]
  | (k', v') :: r => if (k =? k')%nat then (k, v) :: r else (k', v') :: odict_set k v r
  end.

Definition compute_priorities (beta : Q) (us : list User) : list (nat * Q) :=
  fold_left (fun priorities u => odict_set (id u) (priority beta u) priorities) us [].

(** [next(u for u in users if u.id == k)], with the position of the user. *)
Fixpoint find_user (k : nat) (i : nat) (us : list User) : option (nat * User) :=
  match us with
  | [] => None
  | u :: r => if (id u =? k)%nat then Some (i, u) else find_user k (Datatypes.S i) r
  end.

(** Lines 87 and 93: the head packet is gone and the average updated. *)
Definition after_transmission (packet : Packet) (rest : list Packet) (u : User) : User :=
  {| id := id u; service_type := service_type u;
     instantaneous_rate := instantaneous_rate u;
     avg_throughput := (0.9 * avg_throughput u + 0.1 * size packet)%Q;
     packets := rest; pdb := pdb u |}.

Definition expired (ps : list Packet) : list Packet :=
  filter (fun p => remaining_time p <= 0) ps.

Definition alive (ps : list Packet) : list Packet :=
  filter (fun p => 0 < remaining_time p) ps.

(** The loop state: the locals that the slot loop reads and rebinds. *)
Record State : Type := mkState {
  users : list User;
  timeouts : gmap nat Z;
  total_packets : gmap nat Z;
  delays : gmap nat (list Z);
  st_throughput_history : list Q
}.

(** The returned dict; its key ['avg_throughput'] is [r_avg_throughput]
    here, the name being taken by the field of [User]. *)
Record Result : Type := mkResult {
  urllc_timeout_rate : Q;
  avg_urllc_delay : npfloat;
  r_avg_throughput : npfloat;
  throughput_history : list Q
}.

Definition urllc_users (us : list User) : list User :=
  filter (fun u => is_urllc (service_type u) = true) us.

(** *** What the claims speak of *)

(** The fields of a user that are set once, at creation. *)
Definition same_user (u u' : User) : Prop :=
  id u' = id u /\ service_type u' = service_type u /\ pdb u' = pdb u.

(** The arrival phase for one user and its entry of [total_packets]. *)
Definition arrived (u : User) (n : Z) (u' : User) (n' : Z) : Prop :=
  same_user u u'
  /\ exists new, (new = [] \/ exists sz, new = [mkPacket (pdb u) sz])
                 /\ packets u' = packets u ++ new
                 /\ n' = n + Z.of_nat (length new).

(** The timeout sweep for one user and its entry of [timeouts]. *)
Definition swept (u : User) (n : Z) (u' : User) (n' : Z) : Prop :=
  same_user u u'
  /\ packets u' = alive (packets u)
  /\ n' = n + Z.of_nat (length (expired (packets u))).

(** Selection for the user at position [j], with the delays before and
    after. *)
Definition selected (ds ds' : gmap nat (list Z)) (transmitted_bytes : Q)
    (sel : option nat) (j : nat) (u u' : User) : Prop :=
  same_user u u'
  /\ ((sel = Some j
       /\ exists packet rest d,
            packets u = packet :: rest /\ packets u' = rest
            /\ ds !! id u = Some d
            /\ ds' !! id u = Some (d ++ [pdb u - remaining_time packet])
            /\ transmitted_bytes = (0.0 + size packet)%Q)
      \/ (sel <> Some j /\ packets u' = packets u /\ ds' !! id u = ds !! id u)).

(** Two priority dicts with the same keys in the same order and equal
    numbers as values. *)
Definition same_priorities (d1 d2 : list (nat * Q)) : Prop :=
  Forall2 (fun a b => fst a = fst b /\ (snd a == snd b)%Q) d1 d2.

(** The entries of the three dicts are there for every user. *)
Definition wf (st : State) : Prop :=
  NoDup (map id (users st))
  /\ forall u, u ∈ users st ->
       is_Some (timeouts st !! id u)
       /\ is_Some (total_packets st !! id u)
       /\ is_Some (delays st !! id u).

(** A slot from [st] to [st'] for a user that is not served; [queue] is
    its queue at selection time, after arrival and aging: the timeout
    sweep splits the queue. *)
Definition unserved (st st' : State) (u u' : User) (queue : list Packet) : Prop :=
  packets u' = alive queue
  /\ delays st' !! id u = delays st !! id u
  /\ exists n, timeouts st !! id u = Some n
              /\ timeouts st' !! id u = Some (n + Z.of_nat (length (expired queue))).

(** The same for the user that is served: the head of its queue is
    transmitted, and the sweep sees only the rest. *)
Definition served (st st' : State) (u u' : User) (queue : list Packet)
    (transmitted_bytes : Q) : Prop :=
  exists packet rest ds n,
    queue = packet :: rest
    /\ packets u' = alive rest
    /\ delays st !! id u = Some ds
    /\ delays st' !! id u = Some (ds ++ [pdb u - remaining_time packet])
    /\ transmitted_bytes = (0.0 + size packet)%Q
    /\ timeouts st !! id u = Some n
    /\ timeouts st' !! id u = Some (n + Z.of_nat (length (expired rest))).

(** A slot for the user at position [j]; [sel] is the position of the
    user a packet of which is transmitted, if there is one. *)
Definition user_step (st st' : State) (transmitted_bytes : Q) (sel : option nat)
    (j : nat) (u u' : User) : Prop :=
  same_user u u'
  /\ exists new n,
       (new = [] \/ exists sz, new = [mkPacket (pdb u) sz])
       /\ total_packets st !! id u = Some n
       /\ total_packets st' !! id u = Some (n + Z.of_nat (length new))
       /\ let queue := map age (packets u ++ new) in
          (sel = Some j /\ served st st' u u' queue transmitted_bytes)
          \/ (sel <> Some j /\ unserved st st' u u' queue).

Definition slot_step (st st' : State) : Prop :=
  exists transmitted_bytes sel,
    st_throughput_history st' = st_throughput_history st ++ [transmitted_bytes]
    /\ length (users st') = length (users st)
    /\ (sel = None -> transmitted_bytes = 0.0%Q)
    /\ forall j u, users st !! j = Some u ->
         exists u', users st' !! j = Some u'
                    /\ user_step st st' transmitted_bytes sel j u u'.

(** Every packet that arrived is in its queue, or transmitted (a delay
    recorded), or timed out; and what is queued between slots has time
    left. *)
Definition accounted (st : State) (u : User) : Prop :=
  exists n t ds,
    total_packets st !! id u = Some n
    /\ timeouts st !! id u = Some t
    /\ delays st !! id u = Some ds
    /\ 0 <= t
    /\ n = t + Z.of_nat (length ds) + Z.of_nat (length (packets u))
    /\ Forall (fun p => 0 < remaining_time p) (packets u).

(** The loop invariant after [k] slots. *)
Definition slot_inv (k : nat) (st : State) : Prop :=
  NoDup (map id (users st))
  /\ (forall u, u ∈ users st -> accounted st u)
  /\ length (st_throughput_history st) = k.

(** [seed] is [None] or a seed that numpy accepts. *)
Definition seed_accepted `{NumpyRandom} (seed : option Z) : Prop :=
  match seed with
  | Some s => is_Some (np_seed s)
  | None => True
  end.

Section Simulator.
Context `{NumpyRandom}.

(** Lines 31-46. *)
Definition new_user (i : nat) : M User :=
  let '(service_type, pdb) :=
    if (i <? 5)%nat then (URLLC, 5)
    else if (i <? 10)%nat then (eMBB, 20)
    else (mMTC, 50) in
  rate <- uniform 5 20 ;;
  ret {| id := i; service_type := service_type; instantaneous_rate := rate;
         avg_throughput := 10.0; packets := []; pdb := pdb |}.

(** [{u.id: v for u in users}] *)
Definition dict_of_users {V} (v : V) (us : list User) : gmap nat V :=
  fold_left (fun d u => <[id u := v]> d) us ∅.

(** Lines 56-59, for one user. *)
Definition arrive (u : User) (total_packets : gmap nat Z) : M (User * gmap nat Z) :=
  r <- random ;;
  if Qltb r 0.3 then
    size <- uniform 1 5 ;;
    n <- dict_get total_packets (id u) ;;
    ret (set_packets (packets u ++ [mkPacket (pdb u) size]) u,
         <[id u := n + 1]> total_packets)
  else ret (u, total_packets).

(** Lines 82-93: the transmitted bytes of the slot with the new users and
    delays. *)
Definition select_and_serve (priorities : list (nat * Q)) (us : list User)
    (delays : gmap nat (list Z)) : M (list User * gmap nat (list Z) * Q) :=
  let transmitted_bytes := 0.0%Q in
  match max_by snd priorities with
  | None => ret (us, delays, transmitted_bytes)
  | Some (_, (selected_user_id, _)) =>
      match find_user selected_user_id 0 us with
      | None => raise StopIteration
      | Some (i, selected_user) =>
          match packets selected_user with
          | [] => ret (us, delays, transmitted_bytes)
          | packet :: rest =>
              let delay := pdb selected_user - remaining_time packet in
              ds <- dict_get delays (id selected_user) ;;
              ret (<[i := after_transmission packet rest selected_user]> us,
                   <[id selected_user := ds ++ [delay]]> delays,
                   (transmitted_bytes + size packet)%Q)
          end
      end
  end.

(** Lines 97-99, for one user. *)
Definition sweep (u : User) (timeouts : gmap nat Z) : M (User * gmap nat Z) :=
  n <- dict_get timeouts (id u) ;;
  ret (set_packets (alive (packets u)) u,
       <[id u := n + Z.of_nat (length (expired (packets u)))]> timeouts).

(** Line 106. *)
Definition update_channel (u : User) : M User :=
  step <- normal 0 2 ;;
  ret (set_rate (pymax 1.0 (instantaneous_rate u + step)) u).

(** One iteration of the slot loop, lines 53-106. *)
Definition slot (beta : Q) (st : State) : M State :=
  ' (us1, total_packets') <- for_objects_with arrive (users st) (total_packets st) ;;
  let us2 := age_packets us1 in
  let priorities := compute_priorities beta us2 in
  ' (us3, delays', transmitted_bytes) <- select_and_serve priorities us2 (delays st) ;;
  ' (us4, timeouts') <- for_objects_with sweep us3 (timeouts st) ;;
  us5 <- for_objects update_channel us4 ;;
  ret {| users := us5;
         timeouts := timeouts';
         total_packets := total_packets';
         delays := delays';
         st_throughput_history := st_throughput_history st ++ [transmitted_bytes] |}.

Definition init_state (us : list User) : State :=
  {| users := us;
     timeouts := dict_of_users 0 us;
     total_packets := dict_of_users 0 us;
     delays := dict_of_users [] us;
     st_throughput_history := [] |}.

(** Lines 108-117. *)
Definition finish (st : State) : M Result :=
  let urllc := urllc_users (users st) in
  ts <- for_objects (fun u => dict_get (timeouts st) (id u)) urllc ;;
  ns <- for_objects (fun u => dict_get (total_packets st) (id u)) urllc ;;
  ds <- for_objects (fun u => dict_get (delays st) (id u)) urllc ;;
  let urllc_timeout_rate :=
    (inject_Z (Zsum ts) / inject_Z (Z.max (Zsum ns) 1) * 100)%Q in
  let avg_urllc_delay :=
    if existsb (fun d => negb (bool_decide (d = []))) ds
    then np_mean (map (fun d => Num (inject_Z d)) (concat ds))
    else Num 0.0 in
  let avg_throughput :=
    match st_throughput_history st with
    | [] => Num 0.0
    | _ :: _ => np_mean (map Num (st_throughput_history st))
    end in
  ret {| urllc_timeout_rate := urllc_timeout_rate;
         avg_urllc_delay := avg_urllc_delay;
         r_avg_throughput := avg_throughput;
         throughput_history := last50 (st_throughput_history st) |}.

(** Lines 25-46: seeding, then the users. *)
Definition setup (num_users : Z) (seed : option Z) : M State :=
  _ <- match seed with
       | Some s => seed_all s
       | None => ret tt
       end ;;
  us <- for_objects new_user (seq 0 (Z.to_nat num_users)) ;;
  ret (init_state us).

(** The state after [n] iterations of the slot loop. *)
Definition run (beta : Q) (n : nat) (num_users : Z) (seed : option Z) : M State :=
  st <- setup num_users seed ;;
  for_range n (slot beta) st.

Definition simulate_das (beta : Q) (num_slots num_users : Z) (seed : option Z)
  : M Result :=
  st <- run beta (Z.to_nat num_slots) num_users seed ;;
  finish st.

Definition simulate_pf (num_slots num_users : Z) (seed : option Z) : M Result :=
  simulate_das 0.0 num_slots num_users seed.

End Simulator.
End DAS.

(** ** Solution 2: opportunistic scheduling with CSI smoothing *)

Module CSI.

Inductive Mobility : Type := high | low.

(** The per-user dict. The key ['metric'] is created by the first slot
    before anything reads it; here it starts at [0]. *)
Record User : Type := mkUser {
  id : nat;
  mobility : Mobility;
  true_cqi : Q;
  reported_cqi : Q;
  smoothed_cqi : Q;
  avg_throughput : Q;
  retransmissions : Z;
  successful_tx : Z;
  metric : Q
}.

Definition is_high (m : Mobility) : bool :=
  match m with high => true | low => false end.

Definition init_user (i : nat) : User :=
  {| id := i;
     mobility := if (i <? 5)%nat then high else low;
     true_cqi := 10.0;
     reported_cqi := 10.0;
     smoothed_cqi := 10.0;
     avg_throughput := 5.0;
     retransmissions := 0;
     successful_tx := 0;
     metric := 0 |}.

(** The loop state: the users and the two series being accumulated. *)
Record State : Type := mkState {
  users : list User;
  st_spectral_efficiency : list npfloat;
  st_retransmission_rates : list Q
}.

Record Result : Type := mkResult {
  spectral_efficiency : npfloat;
  retransmission_rate : npfloat;
  se_history : list npfloat;
  retrans_history : list Q
}.

(** The two counters of every user, in the order of [users]. *)
Definition counters (us : list User) : list (Z * Z) :=
  map (fun u => (successful_tx u, retransmissions u)) us.

Definition total_tx (us : list User) : Z :=
  Zsum (map (fun u => successful_tx u + retransmissions u) us).

Definition total_retransmissions (us : list User) : Z :=
  Zsum (map retransmissions us).

(** Line 178. *)
Definition retrans_rate (us : list User) : Q :=
  (inject_Z (total_retransmissions us) / inject_Z (Z.max (total_tx us) 1) * 100)%Q.

(** The loop invariant after [k] slots, for [n] users. *)
Definition slot_inv (n k : nat) (st : State) : Prop :=
  length (users st) = n
  /\ Forall (fun c => 0 <= fst c /\ 0 <= snd c) (counters (users st))
  /\ total_tx (users st) = Z.of_nat k
  /\ length (st_spectral_efficiency st) = k
  /\ length (st_retransmission_rates st) = k
  /\ Forall percent (st_retransmission_rates st).

Section Simulator.
Context `{NumpyRandom}.

(** Lines 148-157: true CQI walk, measurement noise, EWMA smoothing. *)
Definition update_cqi (alpha : Q) (u : User) : M User :=
  let change_rate := if is_high (mobility u) then 2.0%Q else 0.5%Q in
  step <- normal 0 change_rate ;;
  let true' := pymax 1 (true_cqi u + step) in
  noise <- (if is_high (mobility u) then normal 0 1.5 else normal 0 0.5) ;;
  let reported := pymax 1 (true' + noise) in
  let smoothed := (alpha * reported + (1 - alpha) * smoothed_cqi u)%Q in
  ret {| id := id u; mobility := mobility u;
         true_cqi := true'; reported_cqi := reported; smoothed_cqi := smoothed;
         avg_throughput := avg_throughput u;
         retransmissions := retransmissions u;
         successful_tx := successful_tx u;
         metric := metric u |}.

(** Line 161. *)
Definition set_metric (u : User) : User :=
  {| id := id u; mobility := mobility u;
     true_cqi := true_cqi u; reported_cqi := reported_cqi u;
     smoothed_cqi := smoothed_cqi u;
     avg_throughput := avg_throughput u;
     retransmissions := retransmissions u;
     successful_tx := successful_tx u;
     metric := (smoothed_cqi u / pymax (avg_throughput u) 0.1)%Q |}.

(** Lines 171-172. *)
Definition on_success (u : User) : User :=
  {| id := id u; mobility := mobility u;
     true_cqi := true_cqi u; reported_cqi := reported_cqi u;
     smoothed_cqi := smoothed_cqi u;
     avg_throughput := (0.9 * avg_throughput u + 0.1 * smoothed_cqi u)%Q;
     retransmissions := retransmissions u;
     successful_tx := successful_tx u + 1;
     metric := metric u |}.

(** Line 174. *)
Definition on_failure (u : User) : User :=
  {| id := id u; mobility := mobility u;
     true_cqi := true_cqi u; reported_cqi := reported_cqi u;
     smoothed_cqi := smoothed_cqi u;
     avg_throughput := avg_throughput u;
     retransmissions := retransmissions u + 1;
     successful_tx := successful_tx u;
     metric := metric u |}.

(** One iteration of the slot loop, lines 147-182. The selected user is
    the object at position [i] of [users], mutated in place. *)
Definition slot (alpha : Q) (st : State) : M State :=
  us1 <- for_objects (update_cqi alpha) (users st) ;;
  let us2 := map set_metric us1 in
  match max_by metric us2 with
  | None => raise ValueError
  | Some (i, selected_user) =>
      let cqi_error := Qabs (smoothed_cqi selected_user - true_cqi selected_user) in
      let success_prob := pymax 0.5 (1.0 - cqi_error / 10.0) in
      r <- random ;;
      let us3 :=
        <[i := if Qltb r success_prob then on_success selected_user
                else on_failure selected_user]> us2 in
      let avg_se := np_mean (map (fun u => Num (smoothed_cqi u)) us3) in
      ret {| users := us3;
             st_spectral_efficiency := st_spectral_efficiency st ++ [avg_se];
             st_retransmission_rates := st_retransmission_rates st ++ [retrans_rate us3] |}
  end.

Definition init_state (num_users : Z) : State :=
  {| users := map init_user (seq 0 (Z.to_nat num_users));
     st_spectral_efficiency := [];
     st_retransmission_rates := [] |}.

(** The state after [n] iterations of the slot loop. *)
Definition run (alpha : Q) (n : nat) (num_users : Z) : M State :=
  for_range n (slot alpha) (init_state num_users).

Definition result (st : State) : Result :=
  {| spectral_efficiency := np_mean (st_spectral_efficiency st);
     retransmission_rate := np_mean (map Num (st_retransmission_rates st));
     se_history := last50 (st_spectral_efficiency st);
     retrans_history := last50 (st_retransmission_rates st) |}.

Definition simulate_csi_smoothing (alpha : Q) (num_slots num_users : Z) : M Result :=
  st <- run alpha (Z.to_nat num_slots) num_users ;;
  ret (result st).

End Simulator.
End CSI.

(** ** Solution 3: fragmentation-aware scheduling *)

Module FRAG.

Inductive Service : Type := URLLC | eMBB | mMTC.

Definition is_urllc (s : Service) : bool :=
  match s with URLLC => true | _ => false end.

Record Fragment : Type := mkFragment {
  frag_id : Z;
  capacity : Z;
  center_freq : Z
}.

#[global] Instance Fragment_inhabited : Inhabited Fragment :=
  populate (mkFragment 0 0 0).

(** The per-slot user dict; ['score'] is set before the sort reads it. *)
Record User : Type := mkUser {
  id : nat;
  service_type : Service;
  demand : Z;
  deadline : Z;
  weight : Q;
  allocated : Z;
  score : Q
}.

(** The fragment dicts are shared objects: the list [fragments] and every
    cluster hold references to the same four dicts. The store is the list
    of the dicts, a reference is a position in it. *)
Abbreviation Store := (list Fragment).

Definition fragments : Store :=
  [ mkFragment 0 50 3500; mkFragment 1 40 3600;
    mkFragment 2 30 3800; mkFragment 3 35 2600 ].

(** The references held by the list [fragments], in its order. *)
Definition fragment_refs (h : Store) : list nat := seq 0 (length h).

Definition set_capacity (c : Z) (f : Fragment) : Fragment :=
  {| frag_id := frag_id f; capacity := c; center_freq := center_freq f |}.

Definition set_allocated (a : Z) (u : User) : User :=
  {| id := id u; service_type := service_type u; demand := demand u;
     deadline := deadline u; weight := weight u; allocated := a;
     score := score u |}.

(** Lines 241-242. *)
Definition set_score (u : User) : User :=
  let fairness_factor := (1.0 / inject_Z (allocated u + 1))%Q in
  {| id := id u; service_type := service_type u; demand := demand u;
     deadline := deadline u; weight := weight u; allocated := allocated u;
     score := (weight u * (1.0 / inject_Z (deadline u)) + fairness_factor)%Q |}.

(** [users.sort(key=score, reverse=True)]: stable, descending. An element
    moves only past elements of strictly greater score. *)
Fixpoint insert_desc (x : User) (l : list User) : list User :=
  match l with
  | [] => [x]
  | y :: r => if Qltb (score x) (score y) then y :: insert_desc x r else x :: l
  end.

Definition sort_desc (l : list User) : list User := foldr insert_desc [] l.

(** Lines 248-257: the clusters, as lists of references. [add_to_cluster]
    is the inner loop; [None] is [added = False]. *)
Definition near (h : Store) (a b : nat) : bool :=
  Z.abs (center_freq (h !!! a) - center_freq (h !!! b)) <? 150.

Fixpoint add_to_cluster (h : Store) (frag : nat) (clusters : list (list nat))
  : option (list (list nat)) :=
  match clusters with
  | [] => None
  | cluster :: rest =>
      if existsb (near h frag) cluster then Some ((cluster ++ [frag]) :: rest)
      else cons cluster <$> add_to_cluster h frag rest
  end.

Definition cluster_step (h : Store) (clusters : list (list nat)) (frag : nat)
  : list (list nat) :=
  match add_to_cluster h frag clusters with
  | Some clusters' => clusters'
  | None => clusters ++ [[frag]]
  end.

Definition make_clusters (h : Store) : list (list nat) :=
  fold_left (cluster_step h) (fragment_refs h) [].

(** The allocation state of one user: its [allocated] counter, the local
    [remaining], and the store. *)
Definition Alloc : Type := (Z * Z * Store)%type.

(** The loop over fragment references, lines 266-273 and 278-285. *)
Fixpoint alloc_frags (refs : list nat) (a : Alloc) : Alloc :=
  match refs with
  | [] => a
  | frag :: rest =>
      let '(alloc, remaining, h) := a in
      if remaining <=? 0 then a
      else
        let available := capacity (h !!! frag) in
        let allocated := Z.min remaining available in
        alloc_frags rest
          (alloc + allocated, remaining - allocated,
           alter (set_capacity (capacity (h !!! frag) - allocated)) frag h)
  end.

(** The loop over clusters, lines 262-273. ([cluster_capacity], line 265,
    is computed and never read.) *)
Fixpoint alloc_clusters (clusters : list (list nat)) (a : Alloc) : Alloc :=
  match clusters with
  | [] => a
  | cluster :: rest =>
      let '(_, remaining, _) := a in
      if remaining <=? 0 then a
      else alloc_clusters rest (alloc_frags cluster a)
  end.

(** One user served, in either mode. *)
Definition serve_user (clustering_enabled : bool) (clusters : list (list nat))
    (u : User) (h : Store) : User * Store :=
  let remaining := demand u - allocated u in
  let '(alloc, _, h') :=
    if clustering_enabled then alloc_clusters clusters (allocated u, remaining, h)
    else alloc_frags (fragment_refs h) (allocated u, remaining, h) in
  (set_allocated alloc u, h').

Fixpoint serve_users (clustering_enabled : bool) (clusters : list (list nat))
    (us : list User) (h : Store) : list User * Store :=
  match us with
  | [] => ([], h)
  | u :: rest =>
      let '(u', h') := serve_user clustering_enabled clusters u h in
      let '(rest', h'') := serve_users clustering_enabled clusters rest h' in
      (u' :: rest', h'')
  end.

(** Lines 246-285. *)
Definition allocate (clustering_enabled : bool) (us : list User) (h : Store)
  : list User * Store :=
  let clusters := if clustering_enabled then make_clusters h else [] in
  serve_users clustering_enabled clusters us h.

(** Lines 288-299. *)
Definition original_total_capacity : Z := 50 + 40 + 30 + 35.

Definition total_allocated (us : list User) : Z := Zsum (map allocated us).

Definition utilization (us : list User) : Q :=
  (inject_Z (total_allocated us) / inject_Z original_total_capacity * 100.0)%Q.

Definition urllc_users (us : list User) : list User :=
  filter (fun u => is_urllc (service_type u) = true) us.

Definition compliant (us : list User) : list User :=
  filter (fun u => demand u <= allocated u) us.

Definition urllc_compliance_of (us : list User) : Q :=
  (inject_Z (Z.of_nat (length (compliant (urllc_users us))))
   / inject_Z (Z.max (Z.of_nat (length (urllc_users us))) 1) * 100)%Q.

(** Lines 302-305. *)
Definition reset_capacities (h : Store) : Store :=
  alter (set_capacity 35) 3%nat
    (alter (set_capacity 30) 2%nat
       (alter (set_capacity 40) 1%nat
          (alter (set_capacity 50) 0%nat h))).

(** What the claims speak of: the capacity left in the store, what a slot
    consumed of it, and the part of a fragment no slot changes. *)
Definition total_capacity (h : Store) : Z := Zsum (map capacity h).

Definition consumed (nominal h : Store) : Z :=
  Zsum (zip_with (fun f0 f1 => capacity f0 - capacity f1) nominal h).

Definition shape (h : Store) : list (Z * Z) :=
  map (fun f => (frag_id f, center_freq f)) h.

Record State : Type := mkState {
  store : Store;
  utilization_history : list Q;
  st_throughput_history : list Z;
  urllc_compliance_history : list Q
}.

Record Result : Type := mkResult {
  spectrum_utilization : npfloat;
  avg_throughput : npfloat;
  urllc_compliance : npfloat;
  util_history : list Q;
  throughput_history : list Z
}.

Definition nonneg_store (h : Store) : Prop := Forall (fun f => 0 <= capacity f) h.

(** The loop invariant after [k] slots: the store is back at its nominal
    capacities, every series has [k] samples and the two rates are
    percentages. *)
Definition slot_inv (k : nat) (st : State) : Prop :=
  store st = fragments
  /\ length (utilization_history st) = k
  /\ length (st_throughput_history st) = k
  /\ length (urllc_compliance_history st) = k
  /\ Forall percent (utilization_history st)
  /\ Forall percent (urllc_compliance_history st).

Section Simulator.
Context `{NumpyRandom}.

(** Lines 213-237: one user dict, from two draws. *)
Definition new_user (i : nat) : M User :=
  if (i <? 4)%nat then
    demand <- randint 5 15 ;; deadline <- randint 3 6 ;;
    ret (mkUser i URLLC demand deadline 10.0 0 0)
  else if (i <? 8)%nat then
    demand <- randint 15 30 ;; deadline <- randint 10 20 ;;
    ret (mkUser i eMBB demand deadline 5.0 0 0)
  else
    demand <- randint 3 10 ;; deadline <- randint 30 50 ;;
    ret (mkUser i mMTC demand deadline 1.0 0 0).

Definition num_users : nat := 12.

Definition generate_users : M (list User) :=
  for_objects new_user (seq 0 num_users).

(** The users of a slot, scored and sorted, ready for allocation. *)
Definition slot_users : M (list User) :=
  us <- generate_users ;;
  ret (sort_desc (map set_score us)).

(** One iteration of the slot loop, lines 210-305. *)
Definition slot (clustering_enabled : bool) (st : State) : M State :=
  us <- slot_users ;;
  let '(us', h) := allocate clustering_enabled us (store st) in
  ret {| store := reset_capacities h;
         utilization_history := utilization_history st ++ [utilization us'];
         st_throughput_history := st_throughput_history st ++ [total_allocated us'];
         urllc_compliance_history :=
           urllc_compliance_history st ++ [urllc_compliance_of us'] |}.

Definition init_state : State :=
  {| store := fragments;
     utilization_history := [];
     st_throughput_history := [];
     urllc_compliance_history := [] |}.

Definition run (clustering_enabled : bool) (n : nat) : M State :=
  for_range n (slot clustering_enabled) init_state.

Definition result (st : State) : Result :=
  {| spectrum_utilization := np_mean (map Num (utilization_history st));
     avg_throughput := np_mean (map (fun z => Num (inject_Z z)) (st_throughput_history st));
     urllc_compliance := np_mean (map Num (urllc_compliance_history st));
     util_history := last50 (utilization_history st);
     throughput_history := last50 (st_throughput_history st) |}.

Definition simulate_fragmentation_aware (clustering_enabled : bool) (num_slots : Z)
  : M Result :=
  st <- run clustering_enabled (Z.to_nat num_slots) ;;
  ret (result st).

End Simulator.
End FRAG.

(** ** A concrete generator

    A linear congruential generator, to run the simulators on concrete
    inputs. *)

Definition lcg_next (g : Z) : Z := (g * 1103515245 + 12345) mod 2147483648.

Definition lcg_unit (g : Z) : Q := inject_Z (g mod 10) / 10.

#[global] Instance lcg : NumpyRandom := {|
  np_state := Z;
  py_state := Z;
  np_seed := fun s => if (0 <=? s) && (s <? 4294967296) then Some s else None;
  py_seed := fun s => s;
  np_random := fun g => (lcg_unit g, lcg_next g);
  np_uniform := fun lo hi g => ((lo + (hi - lo) * lcg_unit g)%Q, lcg_next g);
  np_normal := fun mu sigma g =>
    ((mu + sigma * (inject_Z (g mod 7 - 3) / 2))%Q, lcg_next g);
  np_randint := fun lo hi g => (lo + g mod (hi - lo), lcg_next g)
|}.

Definition lcg_world (s : Z) : @World lcg := @mkWorld lcg s s.

(** ** Statements shared by the three simulators *)

(** Run with [num_slots] slots, every simulator returns, and every
    history array it returns has length [len]. *)
Definition histories_have_length `{NumpyRandom} (num_slots : Z) (len : nat) : Prop :=
  (forall beta num_users seed w,
     DAS.seed_accepted seed ->
     exists r w',
       DAS.simulate_das beta num_slots num_users seed w = Ok (r, w')
       /\ length (DAS.throughput_history r) = len)
  /\ (forall alpha num_users w,
        0 < num_users ->
        exists r w',
          CSI.simulate_csi_smoothing alpha num_slots num_users w = Ok (r, w')
          /\ length (CSI.se_history r) = len
          /\ length (CSI.retrans_history r) = len)
  /\ (forall clustering_enabled w,
        exists r w',
          FRAG.simulate_fragmentation_aware clustering_enabled num_slots w = Ok (r, w')
          /\ length (FRAG.util_history r) = len
          /\ length (FRAG.throughput_history r) = len).

(** ** Further notions *)

(** [np.random.randint(lo, hi)] draws from [lo, hi). *)
Class RangeLaws `{NumpyRandom} : Prop := {
  randint_range :
    forall lo hi g, lo < hi -> lo <= fst (np_randint lo hi g) < hi
}.

(** The order of the users after the sort: no score grows. *)
Definition by_score_desc (a b : FRAG.User) : Prop :=
  (FRAG.score b <= FRAG.score a)%Q.

(** A member of a cluster, other than its first, is within the threshold
    of a member before it. *)
Definition linked (h : list FRAG.Fragment) (cluster : list nat) : Prop :=
  forall i x, cluster !! i = Some x -> (0 < i)%nat ->
    exists j y, (j < i)%nat /\ cluster !! j = Some y /\ FRAG.near h x y = true.

(** Demands served in order from one pool of capacity [c]: each takes
    what it asks for, or what is left. *)
Fixpoint pool_fill (demands : list Z) (c : Z) : list Z :=
  match demands with
  | [] => []
  | d :: r => let a := Z.max 0 (Z.min d c) in a :: pool_fill r (c - a)
  end.

(** The class of the user that lines 214-228 create for [i]. *)
Definition frag_class (i : nat) : FRAG.Service :=
  if (i <? 4)%nat then FRAG.URLLC else if (i <? 8)%nat then FRAG.eMBB else FRAG.mMTC.

(** A user as a slot creates it, with draws in range: nothing allocated,
    and the demand, deadline and weight of its class. *)
Definition drawn_in_range (u : FRAG.User) : Prop :=
  FRAG.allocated u = 0
  /\ match FRAG.service_type u with
     | FRAG.URLLC =>
         5 <= FRAG.demand u < 15 /\ 3 <= FRAG.deadline u < 6 /\ FRAG.weight u = 10.0%Q
     | FRAG.eMBB =>
         15 <= FRAG.demand u < 30 /\ 10 <= FRAG.deadline u < 20 /\ FRAG.weight u = 5.0%Q
     | FRAG.mMTC =>
         3 <= FRAG.demand u < 10 /\ 30 <= FRAG.deadline u < 50 /\ FRAG.weight u = 1.0%Q
     end.

(** Where the score of such a user lies, by class. *)
Definition score_in_band (u : FRAG.User) : Prop :=
  match FRAG.service_type u with
  | FRAG.URLLC => (3 <= FRAG.score u)%Q
  | FRAG.eMBB => (5 # 4 < FRAG.score u)%Q /\ (FRAG.score u <= 3 # 2)%Q
  | FRAG.mMTC => (FRAG.score u <= 31 # 30)%Q
  end.

Definition frag_service_eq_dec (x y : FRAG.Service) : {x = y} + {x <> y}.
Proof. decide equality. Defined.

(** The loop invariant of the fragmentation simulator when the draws are
    in range: the URLLC compliance of every slot is 100, every slot
    allocated between 92 and 155 units, and the utilization series is the
    throughput series over 155, in percent. *)
Definition frag_ranged_inv (k : nat) (st : FRAG.State) : Prop :=
  FRAG.slot_inv k st
  /\ Forall (fun q => (q == 100)%Q) (FRAG.urllc_compliance_history st)
  /\ Forall (fun t => 92 <= t <= 155) (FRAG.st_throughput_history st)
  /\ FRAG.utilization_history st
     = map (fun t => (inject_Z t / inject_Z 155 * 100.0)%Q) (FRAG.st_throughput_history st).

(** [x], at position [i] of [l], has the greatest key, and a greater key
    than everything before it. *)
Definition first_maximum {A} (key : A -> Q) (l : list A) (i : nat) (x : A) : Prop :=
  l !! i = Some x
  /\ forall j y, l !! j = Some y ->
       (key y <= key x)%Q /\ ((j < i)%nat -> (key y < key x)%Q).

(** What a slot of the CSI scheduler (lines 147-174) does to the user at
    position [j], from [v0] to [v]; [i] is the position of the selected
    user. *)
Definition csi_user_step (alpha : Q) (i j : nat) (v0 v : CSI.User) : Prop :=
  CSI.id v = CSI.id v0
  /\ CSI.mobility v = CSI.mobility v0
  /\ (1 <= CSI.true_cqi v)%Q
  /\ (1 <= CSI.reported_cqi v)%Q
  /\ CSI.smoothed_cqi v
     = (alpha * CSI.reported_cqi v + (1 - alpha) * CSI.smoothed_cqi v0)%Q
  /\ CSI.metric v = (CSI.smoothed_cqi v / pymax (CSI.avg_throughput v0) 0.1)%Q
  /\ (j <> i ->
      CSI.avg_throughput v = CSI.avg_throughput v0
      /\ CSI.successful_tx v = CSI.successful_tx v0
      /\ CSI.retransmissions v = CSI.retransmissions v0)
  /\ (j = i ->
      (CSI.successful_tx v = CSI.successful_tx v0 + 1
       /\ CSI.retransmissions v = CSI.retransmissions v0
       /\ CSI.avg_throughput v
          = (0.9 * CSI.avg_throughput v0 + 0.1 * CSI.smoothed_cqi v)%Q)
      \/ (CSI.successful_tx v = CSI.successful_tx v0
          /\ CSI.retransmissions v = CSI.retransmissions v0 + 1
          /\ CSI.avg_throughput v = CSI.avg_throughput v0)).

(** The three channel-quality values of a user are at least 1. *)
Definition csi_floor (u : CSI.User) : Prop :=
  (1 <= CSI.true_cqi u)%Q /\ (1 <= CSI.reported_cqi u)%Q /\ (1 <= CSI.smoothed_cqi u)%Q.

Definition csi_floor_inv (n k : nat) (st : CSI.State) : Prop :=
  CSI.slot_inv n k st
  /\ Forall csi_floor (CSI.users st)
  /\ Forall (fun x => exists q, x = Num q /\ (1 <= q)%Q) (CSI.st_spectral_efficiency st).

(** The class and delay budget that lines 32-37 give the user [i]. *)
Definition das_class (i : nat) : DAS.Service * Z :=
  if (i <? 5)%nat then (DAS.URLLC, 5)
  else if (i <? 10)%nat then (DAS.eMBB, 20)
  else (DAS.mMTC, 50).

(** [p] is queued before [q]: it has less time left. *)
Definition das_before (p q : DAS.Packet) : Prop :=
  DAS.remaining_time p < DAS.remaining_time q.

(** A queue between slots: oldest packet first, no two packets of the
    same age, every packet with time left and less than the budget. *)
Definition das_queue_ok (u : DAS.User) : Prop :=
  StronglySorted das_before (DAS.packets u)
  /\ Forall (fun p => 0 < DAS.remaining_time p < DAS.pdb u) (DAS.packets u).

(** Every delay recorded for the user is between 1 and its budget. *)
Definition das_delays_ok (st : DAS.State) (u : DAS.User) : Prop :=
  exists ds, DAS.delays st !! DAS.id u = Some ds
             /\ Forall (fun d => 1 <= d <= DAS.pdb u) ds.

(** The loop invariant of the delay-aware scheduler with [n] users. *)
Definition das_fifo_inv (n k : nat) (st : DAS.State) : Prop :=
  DAS.slot_inv k st
  /\ map (fun u => (DAS.id u, (DAS.service_type u, DAS.pdb u))) (DAS.users st)
     = map (fun i => (i, das_class i)) (seq 0 n)
  /\ forall u, u ∈ DAS.users st -> das_queue_ok u /\ das_delays_ok st u.

(** What a slot from [st] to [st'] does with the queue that a user has
    at selection time, after the arrivals and the aging of lines 55-63:
    [v] is the user at that time, [v'] the user at the end of the slot,
    [is_selected] tells whether [v] is the user selected at line 85, and
    [transmitted_bytes] is the throughput recorded for the slot. The head
    packet of the selected user is transmitted, whatever time it has
    left, and only the rest of that queue is swept for timeouts; every
    other queue is swept as a whole. *)
Definition das_user_accounts (st st' : DAS.State) (transmitted_bytes : Q)
    (is_selected : bool) (v v' : DAS.User) : Prop :=
  DAS.id v' = DAS.id v
  /\ exists t d,
       DAS.timeouts st !! DAS.id v = Some t
       /\ DAS.delays st !! DAS.id v = Some d
       /\ match is_selected, DAS.packets v with
          | true, packet :: rest =>
              transmitted_bytes = (0.0 + DAS.size packet)%Q
              /\ DAS.delays st' !! DAS.id v
                 = Some (d ++ [DAS.pdb v - DAS.remaining_time packet])
              /\ DAS.packets v' = DAS.alive rest
              /\ DAS.timeouts st' !! DAS.id v
                 = Some (t + Z.of_nat (length (DAS.expired rest)))
          | true, [] =>
              transmitted_bytes = 0.0%Q
              /\ DAS.delays st' !! DAS.id v = Some d
              /\ DAS.packets v' = []
              /\ DAS.timeouts st' !! DAS.id v = Some t
          | false, queue =>
              DAS.delays st' !! DAS.id v = Some d
              /\ DAS.packets v' = DAS.alive queue
              /\ DAS.timeouts st' !! DAS.id v
                 = Some (t + Z.of_nat (length (DAS.expired queue)))
          end.

(** The same slot read as an account of the queue [packets v] that the
    user has at selection time: the queue is made of the packets sent
    (the head packet if the user is the selected one), the packets still
    queued at the end of the slot, which have time left, and the packets
    timed out, which have none; [delays] grows by the delays of the
    packets sent and [timeouts] by the number of packets timed out. *)
Definition das_queue_split (st st' : DAS.State) (is_selected : bool)
    (v v' : DAS.User) : Prop :=
  exists sent timed_out t d,
    sent = (if is_selected then take 1 (DAS.packets v) else [])
    /\ DAS.packets v ≡ₚ sent ++ DAS.packets v' ++ timed_out
    /\ Forall (fun p => 0 < DAS.remaining_time p) (DAS.packets v')
    /\ Forall (fun p => DAS.remaining_time p <= 0) timed_out
    /\ DAS.timeouts st !! DAS.id v = Some t
    /\ DAS.timeouts st' !! DAS.id v = Some (t + Z.of_nat (length timed_out))
    /\ DAS.delays st !! DAS.id v = Some d
    /\ DAS.delays st' !! DAS.id v
       = Some (d ++ map (fun p => DAS.pdb v - DAS.remaining_time p) sent).

(** * Properties *)

(** ** The monad and its loops *)

Section MonadFacts.
Context `{NumpyRandom}.

Lemma bind_ok {A B} (m : M A) (k : A -> M B) w a w1 :
  m w = Ok (a, w1) -> bind m k w = k a w1.
Proof. intros E. unfold bind. now rewrite E. Qed.

Lemma bind_inv {A B} (m : M A) (k : A -> M B) w b w' :
  bind m k w = Ok (b, w') ->
  exists a w1, m w = Ok (a, w1) /\ k a w1 = Ok (b, w').
Proof.
  unfold bind. destruct (m w) as [[a w1]|e]; [|discriminate].
  intros E. now exists a, w1.
Qed.

Lemma draw_ok {A} (f : np_state -> A * np_state) w :
  exists a w', draw f w = Ok (a, w').
Proof. unfold draw. destruct (f (np_gen w)) as [a g]. eauto. Qed.

(** A loop over objects whose body always returns, returns; the objects
    it returns are related to the ones it was given as the body relates
    them. *)
Lemma for_objects_total {A B} (body : A -> M B) (R : A -> B -> Prop) :
  (forall x w, exists y w', body x w = Ok (y, w') /\ R x y) ->
  forall l w, exists ys w', for_objects body l w = Ok (ys, w') /\ Forall2 R l ys.
Proof.
  intros Hb l. induction l as [|x r IH]; intros w; simpl.
  - exists [], w. split; [reflexivity|constructor].
  - destruct (Hb x w) as (y & w1 & E & HR).
    destruct (IH w1) as (ys & w2 & E2 & HF).
    exists (y :: ys), w2. split; [|now constructor].
    rewrite (bind_ok _ _ _ _ _ E), (bind_ok _ _ _ _ _ E2). reflexivity.
Qed.

(** The slot loop under an invariant indexed by the number of completed
    iterations. *)
Lemma for_range_total {S} (P : nat -> S -> Prop) (body : S -> M S) :
  (forall k s w, P k s -> exists s' w', body s w = Ok (s', w') /\ P (Datatypes.S k) s') ->
  forall n k s w, P k s ->
    exists s' w', for_range n body s w = Ok (s', w') /\ P (n + k)%nat s'.
Proof.
  intros Hb n. induction n as [|n IH]; intros k s w HP; simpl.
  - now exists s, w.
  - destruct (Hb k s w HP) as (s1 & w1 & E & HP1).
    destruct (IH _ s1 w1 HP1) as (s2 & w2 & E2 & HP2).
    exists s2, w2. rewrite (bind_ok _ _ _ _ _ E). split; [exact E2|].
    now replace (Datatypes.S (n + k)) with (n + Datatypes.S k)%nat by lia.
Qed.

Lemma for_range_snoc {S} (body : S -> M S) n s w :
  for_range (Datatypes.S n) body s w = bind (for_range n body s) body w.
Proof.
  revert s w. induction n as [|n IH]; intros s w.
  - simpl. unfold bind, ret. now destruct (body s w) as [[? ?]|].
  - simpl. simpl in IH. unfold bind in *.
    destruct (body s w) as [[s1 w1]|e]; [|reflexivity].
    apply IH.
Qed.

End MonadFacts.

(** ** Lists, sums and percentages *)

Lemma length_last50 {A} (l : list A) : length (last50 l) = Nat.min (length l) 50.
Proof. unfold last50. rewrite length_drop. lia. Qed.

Lemma Zsum_app (l1 l2 : list Z) : Zsum (l1 ++ l2) = Zsum l1 + Zsum l2.
Proof. unfold Zsum. induction l1 as [|x l IH]; simpl; lia. Qed.

Lemma percent_ratio (a b : Z) :
  0 <= a <= b -> 1 <= b -> percent (inject_Z a / inject_Z b * 100).
Proof.
  intros Ha Hb. unfold percent.
  assert (Hpos : (0 < inject_Z b)%Q) by (unfold Qlt; simpl; lia).
  split.
  - apply Qmult_le_0_compat; [|discriminate].
    apply Qle_shift_div_l; [exact Hpos|].
    rewrite Qmult_0_l. unfold Qle; simpl; lia.
  - apply Qle_trans with (1 * 100)%Q; [|discriminate].
    apply Qmult_le_compat_r; [|discriminate].
    apply Qle_shift_div_r; [exact Hpos|].
    rewrite Qmult_1_l. unfold Qle; simpl; lia.
Qed.

(** ** The fragment store under allocation *)

Section StoreFacts.
Import FRAG.

Lemma total_capacity_alter (h : Store) (i : nat) (c : Z) :
  (i < length h)%nat ->
  total_capacity (alter (set_capacity c) i h)
  = total_capacity h - capacity (h !!! i) + c.
Proof.
  unfold total_capacity, Zsum. revert i.
  induction h as [|f h IH]; intros i Hi; simpl in Hi; [lia|].
  destruct i as [|i].
  - simpl. lia.
  - change (capacity f + foldr Z.add 0 (map capacity (alter (set_capacity c) i h))
            = capacity f + foldr Z.add 0 (map capacity h) - capacity (h !!! i) + c).
    rewrite IH by lia. lia.
Qed.

Lemma shape_alter (h : Store) (i : nat) (c : Z) :
  shape (alter (set_capacity c) i h) = shape h.
Proof.
  unfold shape. revert i. induction h as [|f h IH]; intros [|i]; simpl; try reflexivity.
  f_equal. apply IH.
Qed.

Lemma shape_length (h h' : Store) : shape h = shape h' -> length h = length h'.
Proof. unfold shape. intros E. apply (f_equal length) in E. now rewrite !length_map in E. Qed.

Lemma nonneg_alter (h : Store) (i : nat) (c : Z) :
  0 <= c -> Forall (fun f => 0 <= capacity f) h ->
  Forall (fun f => 0 <= capacity f) (alter (set_capacity c) i h).
Proof.
  intros Hc Hh. revert i. induction Hh as [|f h Hf Hh IH]; intros [|i]; simpl;
    constructor; simpl; auto.
  apply IH.
Qed.

Lemma alter_beyond (g : Fragment -> Fragment) (h : Store) (i : nat) :
  (length h <= i)%nat -> alter g i h = h.
Proof.
  revert i. induction h as [|f h IH]; intros i Hi; [reflexivity|].
  destruct i as [|i]; simpl in Hi; [lia|].
  change (f :: alter g i h = f :: h). f_equal. apply IH. lia.
Qed.

Lemma lookup_total_beyond (h : Store) (i : nat) :
  (length h <= i)%nat -> capacity (h !!! i) = 0.
Proof.
  intros Hi. rewrite list_lookup_total_alt.
  now rewrite (lookup_ge_None_2 h i Hi).
Qed.

Lemma lookup_total_nonneg (h : Store) (i : nat) :
  Forall (fun f => 0 <= capacity f) h -> 0 <= capacity (h !!! i).
Proof.
  intros Hh. destruct (decide (i < length h)%nat) as [Hi|Hi].
  - now apply (Forall_lookup_total_1 (fun f => 0 <= capacity f)).
  - rewrite lookup_total_beyond by lia. lia.
Qed.

(** What the loop over fragment references keeps: the fragments'
    identities and frequencies, the sum of what is allocated and what is
    left, and that no capacity becomes negative. *)
Lemma alloc_frags_inv (refs : list nat) (alloc remaining : Z) (h : Store) :
  Forall (fun f => 0 <= capacity f) h ->
  let '(alloc', remaining', h') := alloc_frags refs (alloc, remaining, h) in
  shape h' = shape h
  /\ alloc' + total_capacity h' = alloc + total_capacity h
  /\ Forall (fun f => 0 <= capacity f) h'
  /\ alloc <= alloc'.
Proof.
  revert alloc remaining h.
  induction refs as [|frag rest IH]; intros alloc remaining h Hh; simpl.
  - repeat split; auto; lia.
  - destruct (remaining <=? 0) eqn:Hr; [repeat split; auto; lia|].
    apply Z.leb_gt in Hr.
    pose proof (lookup_total_nonneg h frag Hh) as Hcap.
    set (a := Z.min remaining (capacity (h !!! frag))).
    assert (Ha : 0 <= a <= capacity (h !!! frag)) by (unfold a; lia).
    set (h1 := alter (set_capacity (capacity (h !!! frag) - a)) frag h).
    assert (Hh1 : Forall (fun f => 0 <= capacity f) h1)
      by (apply nonneg_alter; [lia|exact Hh]).
    specialize (IH (alloc + a) (remaining - a) h1 Hh1).
    destruct (alloc_frags rest (alloc + a, remaining - a, h1)) as [[alloc' remaining'] h'].
    destruct IH as (Hs & Hc & Hn & Hle).
    assert (Ht : a + total_capacity h1 = total_capacity h).
    { unfold h1. destruct (decide (frag < length h)%nat) as [Hi|Hi].
      - rewrite total_capacity_alter by exact Hi. lia.
      - rewrite alter_beyond by lia.
        rewrite lookup_total_beyond in Ha by lia. lia. }
    repeat split; auto; try lia.
    rewrite Hs. apply shape_alter.
Qed.

Lemma alloc_frags_done (refs : list nat) (alloc remaining : Z) (h : Store) :
  remaining <= 0 -> alloc_frags refs (alloc, remaining, h) = (alloc, remaining, h).
Proof.
  intros Hr. destruct refs as [|frag rest]; simpl; [reflexivity|].
  apply Z.leb_le in Hr. now rewrite Hr.
Qed.

Lemma alloc_frags_app (c r : list nat) (a : Alloc) :
  alloc_frags (c ++ r) a = alloc_frags r (alloc_frags c a).
Proof.
  revert a. induction c as [|frag rest IH]; intros [[alloc remaining] h]; simpl.
  - reflexivity.
  - destruct (remaining <=? 0) eqn:Hr.
    + apply Z.leb_le in Hr. now rewrite alloc_frags_done.
    + apply IH.
Qed.

(** The two nested loops of the clustering branch visit the fragments of
    the clusters in order, as one loop over the flattened clusters does. *)
Lemma alloc_clusters_concat (clusters : list (list nat)) (a : Alloc) :
  alloc_clusters clusters a = alloc_frags (concat clusters) a.
Proof.
  revert a. induction clusters as [|c cs IH]; intros [[alloc remaining] h]; simpl.
  - reflexivity.
  - destruct (remaining <=? 0) eqn:Hr.
    + apply Z.leb_le in Hr. now rewrite alloc_frags_done.
    + rewrite IH. now rewrite alloc_frags_app.
Qed.

Lemma consumed_sums (h0 h : Store) :
  length h0 = length h -> consumed h0 h = total_capacity h0 - total_capacity h.
Proof.
  unfold consumed, total_capacity, Zsum. revert h.
  induction h0 as [|f0 h0 IH]; intros [|f h] E; simpl in *; try lia.
  rewrite IH by lia. lia.
Qed.

End StoreFacts.

(** ** The fragmentation-aware simulator *)

Section FragFacts.
Context `{NumpyRandom}.
Import FRAG.

Lemma serve_user_refs (c : bool) (clusters : list (list nat)) (u : User) (h : Store) :
  exists refs,
    serve_user c clusters u h
    = (let '(alloc, _, h') := alloc_frags refs (allocated u, demand u - allocated u, h) in
       (set_allocated alloc u, h')).
Proof.
  unfold serve_user. destruct c.
  - exists (concat clusters). now rewrite alloc_clusters_concat.
  - now exists (fragment_refs h).
Qed.

Lemma serve_user_inv (c : bool) (clusters : list (list nat)) (u : User) (h : Store) :
  nonneg_store h ->
  let '(u', h') := serve_user c clusters u h in
  shape h' = shape h
  /\ allocated u' + total_capacity h' = allocated u + total_capacity h
  /\ nonneg_store h'
  /\ allocated u <= allocated u'.
Proof.
  intros Hh. destruct (serve_user_refs c clusters u h) as [refs ->].
  pose proof (alloc_frags_inv refs (allocated u) (demand u - allocated u) h Hh) as Hi.
  destruct (alloc_frags refs (allocated u, demand u - allocated u, h)) as [[alloc rem] h'].
  simpl. exact Hi.
Qed.

Lemma serve_users_inv (c : bool) (clusters : list (list nat)) (us : list User) (h : Store) :
  nonneg_store h ->
  let '(us', h') := serve_users c clusters us h in
  shape h' = shape h
  /\ total_allocated us' + total_capacity h' = total_allocated us + total_capacity h
  /\ nonneg_store h'
  /\ total_allocated us <= total_allocated us'.
Proof.
  revert h. induction us as [|u rest IH]; intros h Hh; simpl.
  - repeat split; auto; lia.
  - pose proof (serve_user_inv c clusters u h Hh) as H1.
    destruct (serve_user c clusters u h) as [u' h1].
    destruct H1 as (Hs1 & Hc1 & Hn1 & Hle1).
    specialize (IH h1 Hn1).
    destruct (serve_users c clusters rest h1) as [rest' h2].
    destruct IH as (Hs2 & Hc2 & Hn2 & Hle2).
    unfold total_allocated, Zsum in *. simpl.
    repeat split; auto; try lia. congruence.
Qed.

(** With clusters that flatten to the list of fragment references, the
    clustering branch serves every user as the other branch does. *)
Lemma serve_users_modes (clusters other : list (list nat)) (us : list User) (h : Store) :
  nonneg_store h ->
  concat clusters = fragment_refs h ->
  serve_users true clusters us h = serve_users false other us h.
Proof.
  revert h. induction us as [|u rest IH]; intros h Hh Hc; simpl; [reflexivity|].
  assert (E : serve_user true clusters u h = serve_user false other u h).
  { unfold serve_user. now rewrite alloc_clusters_concat, Hc. }
  rewrite E.
  pose proof (serve_user_inv false other u h Hh) as H1.
  destruct (serve_user false other u h) as [u' h1].
  destruct H1 as (Hs1 & _ & Hn1 & _).
  rewrite (IH h1 Hn1); [reflexivity|].
  unfold fragment_refs in *. now rewrite (shape_length _ _ Hs1).
Qed.

Lemma fragments_nonneg : nonneg_store fragments.
Proof. unfold nonneg_store, fragments. repeat constructor; simpl; lia. Qed.

Lemma make_clusters_fragments : make_clusters fragments = [[0; 1]; [2]; [3]]%nat.
Proof. reflexivity. Qed.

Lemma reset_shape (h : Store) : shape h = shape fragments -> reset_capacities h = fragments.
Proof.
  intros E. destruct h as [|[i0 c0 f0] [|[i1 c1 f1] [|[i2 c2 f2] [|[i3 c3 f3] [|? ?]]]]];
    try discriminate E.
  unfold shape in E. simpl in E. inversion E; subst. reflexivity.
Qed.

Lemma allocate_modes (us : list User) :
  allocate true us fragments = allocate false us fragments.
Proof.
  unfold allocate. apply serve_users_modes; [apply fragments_nonneg|reflexivity].
Qed.

(** Every slot's users exist, and none has anything allocated yet. *)
Lemma frag_new_user_total (i : nat) (w : World) :
  exists u w', new_user i w = Ok (u, w') /\ allocated u = 0.
Proof.
  unfold new_user, randint, bind, draw, ret.
  destruct (i <? 4)%nat; [|destruct (i <? 8)%nat];
    repeat match goal with
           | |- context [np_randint ?a ?b ?g] => destruct (np_randint a b g)
           end; simpl; eauto.
Qed.

Lemma insert_desc_Forall (P : User -> Prop) (x : User) (l : list User) :
  P x -> Forall P l -> Forall P (insert_desc x l).
Proof.
  intros Hx Hl. induction Hl as [|y l Hy Hl IH]; simpl.
  - now repeat constructor.
  - destruct (Qltb (score x) (score y)); repeat constructor; auto.
Qed.

Lemma sort_desc_Forall (P : User -> Prop) (l : list User) :
  Forall P l -> Forall P (sort_desc l).
Proof.
  unfold sort_desc. induction 1; simpl; [constructor|].
  now apply insert_desc_Forall.
Qed.

Lemma total_allocated_zero (us : list User) :
  Forall (fun u => allocated u = 0) us -> total_allocated us = 0.
Proof.
  unfold total_allocated, Zsum. induction 1 as [|u l Hu Hl IH]; simpl; lia.
Qed.

Lemma frag_slot_users_total (w : World) :
  exists us w', slot_users w = Ok (us, w') /\ total_allocated us = 0.
Proof.
  unfold slot_users, generate_users.
  destruct (for_objects_total new_user (fun _ u => allocated u = 0) frag_new_user_total
              (seq 0 num_users) w) as (us & w' & E & HF).
  exists (sort_desc (map set_score us)), w'. split.
  - now rewrite (bind_ok _ _ _ _ _ E).
  - apply total_allocated_zero, sort_desc_Forall.
    apply Forall_map. clear E.
    induction HF; constructor; auto.
Qed.

(** What one slot's allocation does to the nominal store. *)
Lemma allocate_nominal (c : bool) (us : list User) :
  total_allocated us = 0 ->
  let '(us', h) := allocate c us fragments in
  shape h = shape fragments
  /\ consumed fragments h = total_allocated us'
  /\ 0 <= total_allocated us' <= 155.
Proof.
  intros Hz. unfold allocate.
  pose proof (serve_users_inv c (if c then make_clusters fragments else []) us
                fragments fragments_nonneg) as Hi.
  destruct (serve_users c _ us fragments) as [us' h].
  destruct Hi as (Hs & Hc & Hn & Hle).
  assert (Hcap : 0 <= total_capacity h).
  { clear -Hn. unfold total_capacity, Zsum. induction Hn; simpl; lia. }
  assert (H155 : total_capacity fragments = 155) by reflexivity.
  rewrite consumed_sums by (symmetry; now apply shape_length).
  repeat split; auto; lia.
Qed.

End FragFacts.

Lemma percent_proper (q q' : Q) : (q == q')%Q -> percent q -> percent q'.
Proof. unfold percent. intros E [H0 H1]. rewrite <- E. now split. Qed.

Section FragLoop.
Context `{NumpyRandom}.
Import FRAG.

Lemma utilization_percent (us : list User) :
  0 <= total_allocated us <= 155 -> percent (utilization us).
Proof.
  intros Hb. unfold utilization.
  apply percent_proper
    with (inject_Z (total_allocated us) / inject_Z original_total_capacity * 100)%Q.
  - apply Qmult_comp; reflexivity.
  - apply percent_ratio; unfold original_total_capacity; lia.
Qed.

Lemma urllc_compliance_percent (us : list User) : percent (urllc_compliance_of us).
Proof.
  unfold urllc_compliance_of, compliant.
  pose proof (length_filter (fun u => demand u <= allocated u) (urllc_users us)).
  apply percent_ratio; lia.
Qed.

Lemma frag_slot_total (c : bool) (k : nat) (st : State) (w : World) :
  slot_inv k st ->
  exists st' w', slot c st w = Ok (st', w') /\ slot_inv (Datatypes.S k) st'.
Proof.
  intros (Hs & Hu & Ht & Hc & Pu & Pc).
  destruct (frag_slot_users_total w) as (us & w' & E & Hz).
  unfold slot. rewrite (bind_ok _ _ _ _ _ E), Hs.
  pose proof (allocate_nominal c us Hz) as Ha.
  destruct (allocate c us fragments) as [us' h].
  destruct Ha as (Hsh & _ & Hb).
  eexists _, w'. split; [reflexivity|].
  unfold slot_inv; simpl. rewrite !length_app, Hu, Ht, Hc. simpl.
  repeat split; try lia.
  - now apply reset_shape.
  - apply Forall_app. split; [exact Pu|].
    constructor; [|constructor]. now apply utilization_percent.
  - apply Forall_app. split; [exact Pc|].
    constructor; [|constructor]. apply urllc_compliance_percent.
Qed.

Lemma frag_init_inv : slot_inv 0 init_state.
Proof. unfold slot_inv, init_state; simpl. repeat split; constructor. Qed.

Lemma frag_run_total (c : bool) (n : nat) (w : World) :
  exists st w', run c n w = Ok (st, w') /\ slot_inv n st.
Proof.
  destruct (for_range_total slot_inv (slot c) (frag_slot_total c) n 0%nat init_state w frag_init_inv)
    as (st & w' & E & HI).
  exists st, w'. split; [exact E|]. now rewrite Nat.add_0_r in HI.
Qed.

Lemma slot_modes (st : State) (w : World) :
  store st = fragments -> slot true st w = slot false st w.
Proof.
  intros Hs. unfold slot, bind.
  destruct (slot_users w) as [[us w']|e]; [|reflexivity].
  now rewrite Hs, allocate_modes.
Qed.

Lemma run_modes (n : nat) (w : World) : run true n w = run false n w.
Proof.
  unfold run. induction n as [|n IH]; [reflexivity|].
  rewrite !for_range_snoc. unfold bind. rewrite <- IH.
  destruct (frag_run_total true n w) as (st & w' & E & HI).
  unfold run in E. rewrite E. apply slot_modes. apply HI.
Qed.

End FragLoop.

(** ** Conservation of allocated capacity and the clustering branch *)

(** C6. In the non-clustering mode, in every slot (the slot after any [n]
    completed ones, for any draws): the capacity consumed, summed over
    the fragments as nominal capacity minus the capacity at the end of
    the allocation, is at most 155 and equals the sum of the users'
    [allocated] counters, which is the [total_allocated] that the slot
    appends to the throughput series and from which it computes the
    utilization. *)
Theorem frag_allocation_conservation `{NumpyRandom} (n : nat) (w : World) :
  exists st w1 us w2,
    FRAG.run false n w = Ok (st, w1)
    /\ FRAG.store st = FRAG.fragments
    /\ FRAG.slot_users w1 = Ok (us, w2)
    /\ let '(us', h) := FRAG.allocate false us (FRAG.store st) in
       FRAG.consumed FRAG.fragments h <= 155
       /\ FRAG.consumed FRAG.fragments h = Zsum (map FRAG.allocated us')
       /\ exists st',
           FRAG.slot false st w1 = Ok (st', w2)
           /\ FRAG.st_throughput_history st'
              = FRAG.st_throughput_history st ++ [Zsum (map FRAG.allocated us')]
           /\ FRAG.utilization_history st'
              = FRAG.utilization_history st
                ++ [(inject_Z (Zsum (map FRAG.allocated us')) / inject_Z 155 * 100.0)%Q].
Proof.
  destruct (frag_run_total false n w) as (st & w1 & E & HI).
  destruct (frag_slot_users_total w1) as (us & w2 & Eu & Hz).
  exists st, w1, us, w2.
  destruct HI as (Hs & _). rewrite Hs.
  repeat split; auto.
  pose proof (allocate_nominal false us Hz) as Ha.
  unfold FRAG.slot. rewrite (bind_ok _ _ _ _ _ Eu), Hs.
  destruct (FRAG.allocate false us FRAG.fragments) as [us' h].
  destruct Ha as (_ & Hc & Hb).
  fold (FRAG.total_allocated us').
  repeat split; try lia.
  eexists. split; [reflexivity|]. split; reflexivity.
Qed.

(** C8. In every slot of a run with clustering the clusters are
    [[0, 1], [2], [3]], which flatten to the fragment order of the other
    branch; and for the same draws the two modes return the same
    result. *)
Theorem frag_clustering_is_identity `{NumpyRandom} :
  (forall (n : nat) (w : World),
     exists st w',
       FRAG.run true n w = Ok (st, w')
       /\ FRAG.make_clusters (FRAG.store st) = [[0; 1]; [2]; [3]]%nat
       /\ concat (FRAG.make_clusters (FRAG.store st)) = FRAG.fragment_refs (FRAG.store st))
  /\ (forall (us : list FRAG.User),
        FRAG.allocate true us FRAG.fragments = FRAG.allocate false us FRAG.fragments)
  /\ (forall (num_slots : Z) (w : World),
        FRAG.simulate_fragmentation_aware true num_slots w
        = FRAG.simulate_fragmentation_aware false num_slots w).
Proof.
  split; [|split].
  - intros n w. destruct (frag_run_total true n w) as (st & w' & E & Hs & _).
    exists st, w'. rewrite Hs. repeat split. exact E.
  - exact allocate_modes.
  - intros num_slots w. unfold FRAG.simulate_fragmentation_aware, bind.
    now rewrite run_modes.
Qed.

(** ** [max] with a key *)

Lemma max_from_lookup {A} (key : A -> Q) (l0 l : list A) (best : nat * A) :
  (l0 ++ l) !! fst best = Some (snd best) ->
  let r := max_from key best (length l0) l in
  (l0 ++ l) !! fst r = Some (snd r).
Proof.
  revert l0 best. induction l as [|x l IH]; intros l0 best Hb; simpl; [exact Hb|].
  specialize (IH (l0 ++ [x])
                (if Qltb (key (snd best)) (key x) then (length l0, x) else best)).
  rewrite length_app, <- app_assoc in IH. simpl in IH.
  replace (length l0 + 1)%nat with (Datatypes.S (length l0)) in IH by lia.
  apply IH. destruct (Qltb (key (snd best)) (key x)); [|exact Hb].
  simpl. now apply list_lookup_middle.
Qed.

Lemma max_by_lookup {A} (key : A -> Q) (l : list A) (i : nat) (x : A) :
  max_by key l = Some (i, x) -> l !! i = Some x.
Proof.
  destruct l as [|y l]; simpl; [discriminate|].
  intros E. injection E as E.
  pose proof (max_from_lookup key [y] l (0%nat, y) eq_refl) as Hl.
  simpl in Hl. now rewrite E in Hl.
Qed.

Lemma max_by_nonempty {A} (key : A -> Q) (l : list A) :
  l <> [] -> exists i x, max_by key l = Some (i, x).
Proof.
  destruct l as [|y l]; [congruence|]. intros _. simpl.
  destruct (max_from key (0%nat, y) 1 l) as [i x]. eauto.
Qed.

Lemma Zsum_map_insert {A} (f : A -> Z) (l : list A) (i : nat) (x y : A) :
  l !! i = Some x ->
  Zsum (map f (<[i := y]> l)) = Zsum (map f l) - f x + f y.
Proof.
  unfold Zsum. revert i. induction l as [|a l IH]; intros [|i] E; simpl in *;
    try discriminate.
  - injection E as ->. lia.
  - change (f a + foldr Z.add 0 (map f (<[i := y]> l))
            = f a + foldr Z.add 0 (map f l) - f x + f y).
    rewrite (IH i E). lia.
Qed.

(** ** The CSI simulator *)

Section CsiFacts.
Context `{NumpyRandom}.
Import CSI.

Lemma update_cqi_total (alpha : Q) (u : User) (w : World) :
  exists u' w',
    update_cqi alpha u w = Ok (u', w')
    /\ (successful_tx u', retransmissions u') = (successful_tx u, retransmissions u).
Proof.
  unfold update_cqi, normal, bind, draw, ret.
  destruct (np_normal 0 _ (np_gen w)) as [step g1].
  destruct (is_high (mobility u)); simpl.
  - destruct (np_normal 0 1.5 g1) as [noise g2]. eexists _, _. split; reflexivity.
  - destruct (np_normal 0 0.5 g1) as [noise g2]. eexists _, _. split; reflexivity.
Qed.

Lemma update_all_total (alpha : Q) (us : list User) (w : World) :
  exists us1 w',
    for_objects (update_cqi alpha) us w = Ok (us1, w')
    /\ counters (map set_metric us1) = counters us.
Proof.
  destruct (for_objects_total (update_cqi alpha)
              (fun u u' => (successful_tx u', retransmissions u')
                           = (successful_tx u, retransmissions u))
              (update_cqi_total alpha) us w) as (us1 & w' & E & HF).
  exists us1, w'. split; [exact E|].
  unfold counters. clear E. induction HF as [|u u' l l' Hu HF IH]; simpl; [reflexivity|].
  now rewrite Hu, IH.
Qed.

Lemma total_tx_counters (us : list User) :
  total_tx us = Zsum (map (fun c => fst c + snd c) (counters us)).
Proof. unfold total_tx, counters. now rewrite map_map. Qed.

Lemma total_retransmissions_counters (us : list User) :
  total_retransmissions us = Zsum (map snd (counters us)).
Proof. unfold total_retransmissions, counters. now rewrite map_map. Qed.

Lemma retransmissions_le_total (cs : list (Z * Z)) :
  Forall (fun c => 0 <= fst c /\ 0 <= snd c) cs ->
  0 <= Zsum (map snd cs) <= Zsum (map (fun c => fst c + snd c) cs).
Proof. unfold Zsum. induction 1 as [|c l [H0 H1] Hl IH]; simpl; lia. Qed.

Lemma retrans_rate_percent (us : list User) :
  Forall (fun c => 0 <= fst c /\ 0 <= snd c) (counters us) -> percent (retrans_rate us).
Proof.
  intros Hc. unfold retrans_rate.
  pose proof (retransmissions_le_total _ Hc) as Hle.
  rewrite <- total_tx_counters, <- total_retransmissions_counters in Hle.
  apply percent_ratio; lia.
Qed.

Lemma counters_insert (us : list User) (i : nat) (u : User) :
  counters (<[i := u]> us) = <[i := (successful_tx u, retransmissions u)]> (counters us).
Proof. unfold counters. now rewrite list_fmap_insert. Qed.

(** One slot: it returns when there is a user, and exactly one counter of
    exactly one user has grown by one. *)
Lemma csi_slot_step (alpha : Q) (st : State) (w : World) :
  users st <> [] ->
  exists st' w' i s r,
    slot alpha st w = Ok (st', w')
    /\ counters (users st) !! i = Some (s, r)
    /\ (counters (users st') = <[i := (s + 1, r)]> (counters (users st))
        \/ counters (users st') = <[i := (s, r + 1)]> (counters (users st)))
    /\ st_retransmission_rates st'
       = st_retransmission_rates st ++ [retrans_rate (users st')]
    /\ length (st_spectral_efficiency st') = Datatypes.S (length (st_spectral_efficiency st)).
Proof.
  intros Hne.
  destruct (update_all_total alpha (users st) w) as (us1 & w1 & E1 & Hc).
  assert (Hne2 : map set_metric us1 <> []).
  { intros E0. rewrite E0 in Hc. destruct (users st); [congruence|discriminate]. }
  destruct (max_by_nonempty metric _ Hne2) as (i & sel & Em).
  pose proof (max_by_lookup _ _ _ _ Em) as Hl.
  unfold slot. rewrite (bind_ok _ _ _ _ _ E1), Em.
  unfold random, bind, draw, ret.
  destruct (np_random (np_gen w1)) as [x g].
  eexists _, _, i, (successful_tx sel), (retransmissions sel).
  split; [reflexivity|]. cbn [users st_retransmission_rates st_spectral_efficiency].
  rewrite counters_insert, Hc.
  assert (Hci : counters (users st) !! i = Some (successful_tx sel, retransmissions sel)).
  { rewrite <- Hc. unfold counters. rewrite list_lookup_fmap, Hl. reflexivity. }
  repeat split; auto.
  - destruct (Qltb x _); [left|right]; reflexivity.
  - rewrite length_app. simpl. lia.
Qed.

Lemma counters_step_inv (cs cs' : list (Z * Z)) (i : nat) (s r : Z) :
  cs !! i = Some (s, r) ->
  cs' = <[i := (s + 1, r)]> cs \/ cs' = <[i := (s, r + 1)]> cs ->
  Forall (fun c => 0 <= fst c /\ 0 <= snd c) cs ->
  Forall (fun c => 0 <= fst c /\ 0 <= snd c) cs'
  /\ Zsum (map (fun c => fst c + snd c) cs')
     = Zsum (map (fun c => fst c + snd c) cs) + 1.
Proof.
  intros Hi Hs Hc.
  pose proof (Forall_lookup_1 _ _ _ _ Hc Hi) as [H0 H1]. simpl in H0, H1.
  destruct Hs as [-> | ->]; (split;
    [apply Forall_insert; [exact Hc|simpl; lia]
    |rewrite (Zsum_map_insert _ _ _ _ _ Hi); simpl; lia]).
Qed.

Lemma csi_slot_total (alpha : Q) (n k : nat) (st : State) (w : World) :
  (0 < n)%nat -> slot_inv n k st ->
  exists st' w', slot alpha st w = Ok (st', w') /\ slot_inv n (Datatypes.S k) st'.
Proof.
  intros Hn (Hlen & Hc & Ht & Hse & Hrr & Hp).
  assert (Hne : users st <> []) by (destruct (users st); [simpl in Hlen; lia|congruence]).
  destruct (csi_slot_step alpha st w Hne) as (st' & w' & i & s & r & E & Hi & Hs & Hr & Hl).
  exists st', w'. split; [exact E|].
  destruct (counters_step_inv _ _ _ _ _ Hi Hs Hc) as [Hc' Hsum].
  rewrite <- !total_tx_counters in Hsum.
  unfold slot_inv. repeat split.
  - unfold counters in Hs.
    destruct Hs as [Hs|Hs]; apply (f_equal length) in Hs;
      rewrite length_insert, !length_map in Hs; lia.
  - exact Hc'.
  - lia.
  - lia.
  - rewrite Hr, length_app. simpl. lia.
  - rewrite Hr. apply Forall_app. split; [exact Hp|].
    constructor; [|constructor]. now apply retrans_rate_percent.
Qed.

Lemma csi_init_inv (num_users : Z) : slot_inv (Z.to_nat num_users) 0 (init_state num_users).
Proof.
  unfold slot_inv, init_state. cbn [users st_spectral_efficiency st_retransmission_rates].
  rewrite length_map, length_seq. repeat split; try constructor.
  - unfold counters. rewrite map_map. apply Forall_map, Forall_forall.
    intros x _. simpl. lia.
  - unfold total_tx, Zsum. induction (seq 0 (Z.to_nat num_users)); simpl; lia.
Qed.

Lemma csi_run_total (alpha : Q) (n : nat) (num_users : Z) (w : World) :
  0 < num_users ->
  exists st w', run alpha n num_users w = Ok (st, w')
                /\ slot_inv (Z.to_nat num_users) n st.
Proof.
  intros Hu.
  destruct (for_range_total (slot_inv (Z.to_nat num_users)) (slot alpha)
              (fun k s w => csi_slot_total alpha (Z.to_nat num_users) k s w ltac:(lia))
              n 0%nat (init_state num_users) w (csi_init_inv num_users))
    as (st & w' & E & HI).
  exists st, w'. split; [exact E|]. now rewrite Nat.add_0_r in HI.
Qed.

End CsiFacts.

(** C10. With at least one user, in every slot (the one after any [t]
    completed slots, for any draws) exactly one counter, [successful_tx]
    or [retransmissions], of exactly one user grows by one; so the
    counters sum to [t] after [t] slots, the denominator
    [max(total_tx, 1)] of the slot's sample is [total_tx >= 1], and the
    sample is a percentage. *)
Theorem csi_one_transmission_per_slot `{NumpyRandom}
    (alpha : Q) (num_users : Z) (t : nat) (w : World) :
  0 < num_users ->
  exists st w1 st' w2 i s r,
    CSI.run alpha t num_users w = Ok (st, w1)
    /\ CSI.total_tx (CSI.users st) = Z.of_nat t
    /\ CSI.slot alpha st w1 = Ok (st', w2)
    /\ CSI.counters (CSI.users st) !! i = Some (s, r)
    /\ (CSI.counters (CSI.users st') = <[i := (s + 1, r)]> (CSI.counters (CSI.users st))
        \/ CSI.counters (CSI.users st') = <[i := (s, r + 1)]> (CSI.counters (CSI.users st)))
    /\ CSI.total_tx (CSI.users st') = Z.of_nat t + 1
    /\ Z.max (CSI.total_tx (CSI.users st')) 1 = CSI.total_tx (CSI.users st')
    /\ CSI.st_retransmission_rates st'
       = CSI.st_retransmission_rates st
         ++ [(inject_Z (CSI.total_retransmissions (CSI.users st'))
              / inject_Z (CSI.total_tx (CSI.users st')) * 100)%Q]
    /\ percent (inject_Z (CSI.total_retransmissions (CSI.users st'))
                / inject_Z (CSI.total_tx (CSI.users st')) * 100).
Proof.
  intros Hu.
  destruct (csi_run_total alpha t num_users w Hu) as (st & w1 & E & HI).
  pose proof HI as (Hlen & Hc & Ht & _).
  assert (Hne : CSI.users st <> [])
    by (destruct (CSI.users st); [simpl in Hlen; lia|congruence]).
  destruct (csi_slot_step alpha st w1 Hne) as (st' & w2 & i & s & r & Es & Hi & Hs & Hr & _).
  destruct (counters_step_inv _ _ _ _ _ Hi Hs Hc) as [Hc' Hsum].
  rewrite <- !total_tx_counters in Hsum.
  assert (Hmax : Z.max (CSI.total_tx (CSI.users st')) 1 = CSI.total_tx (CSI.users st')) by lia.
  pose proof (retrans_rate_percent _ Hc') as Hp.
  unfold CSI.retrans_rate in Hr, Hp. rewrite Hmax in Hr, Hp.
  exists st, w1, st', w2, i, s, r. repeat split; auto; try lia; apply Hp.
Qed.

Lemma csi_one_transmission_per_slot_witness :
  0 < 3
  /\ exists st w1, CSI.run 0.2 2 3 (lcg_world 7) = Ok (st, w1)
                   /\ CSI.total_tx (CSI.users st) = 2.
Proof.
  split; [lia|].
  destruct (csi_one_transmission_per_slot 0.2 3 2 (lcg_world 7) ltac:(lia))
    as (st & w1 & _ & _ & _ & _ & _ & E & Ht & _).
  exists st, w1. split; [exact E|exact Ht].
Defined.

(** ** Means *)

Lemma nf_sum_Num (l : list Q) : nf_sum (map Num l) = Num (Qsum l).
Proof.
  unfold nf_sum, Qsum. induction l as [|x l IH]; simpl; [reflexivity|].
  now rewrite IH.
Qed.

Lemma Qsum_bounds (l : list Q) :
  Forall percent l ->
  (0 <= Qsum l)%Q /\ (Qsum l <= 100 * inject_Z (Z.of_nat (length l)))%Q.
Proof.
  unfold Qsum. induction 1 as [|x l [H0 H1] Hl [IH0 IH1]].
  - simpl. split; [apply Qle_refl|]. unfold Qle; simpl; lia.
  - cbn [foldr length]. split.
    + replace 0%Q with (0 + 0)%Q by reflexivity. now apply Qplus_le_compat.
    + apply Qle_trans with (100 + 100 * inject_Z (Z.of_nat (length l)))%Q;
        [now apply Qplus_le_compat|].
      rewrite Nat2Z.inj_succ. unfold Z.succ. rewrite inject_Z_plus.
      apply Qle_lteq. right. change (inject_Z 1) with 1%Q. ring.
Qed.

(** The mean of a non-empty series of percentages is a percentage. *)
Lemma np_mean_percent (l : list Q) :
  l <> [] -> Forall percent l -> nf_percent (np_mean (map Num l)).
Proof.
  intros Hne Hl. unfold np_mean.
  destruct l as [|x l']; [congruence|]. set (l := x :: l') in *.
  change (map Num l) with (Num x :: map Num l') at 1. cbv iota.
  rewrite nf_sum_Num, length_map. simpl nf_percent.
  destruct (Qsum_bounds l Hl) as [H0 H1].
  assert (Hpos : (0 < inject_Z (Z.of_nat (length l)))%Q).
  { unfold Qlt; simpl. lia. }
  split.
  - apply Qle_shift_div_l; [exact Hpos|]. now rewrite Qmult_0_l.
  - apply Qle_shift_div_r; [exact Hpos|exact H1].
Qed.

Lemma nan_not_zero : NaN <> Num 0.0.
Proof. discriminate. Qed.

(** ** Loops that update a dict entry per object *)

Section KeyedLoops.
Context `{NumpyRandom}.

(** A loop whose body, for the object [x], rewrites the entry of the dict
    at [key x] and changes [x] without changing its key: on objects of
    distinct keys, all present in the dict, it returns, every object and
    its entry are related as the body relates them, and the entries of
    other keys are untouched. *)
Lemma for_objects_with_keyed {A V} (key : A -> nat)
    (body : A -> gmap nat V -> M (A * gmap nat V)) (R : A -> V -> A -> V -> Prop) :
  (forall x d w v, d !! key x = Some v ->
     exists x' v' w', body x d w = Ok ((x', <[key x := v']> d), w')
                      /\ key x' = key x /\ R x v x' v') ->
  forall l d w,
    NoDup (map key l) ->
    (forall x, x ∈ l -> is_Some (d !! key x)) ->
    exists l' d' w',
      for_objects_with body l d w = Ok ((l', d'), w')
      /\ length l' = length l
      /\ (forall j x, l !! j = Some x ->
            exists x' v v', l' !! j = Some x' /\ key x' = key x
                            /\ d !! key x = Some v /\ d' !! key x = Some v'
                            /\ R x v x' v')
      /\ (forall k, k ∉ map key l -> d' !! k = d !! k).
Proof.
  intros Hb l. induction l as [|x r IH]; intros d w Hnd Hin.
  - exists [], d, w. simpl. repeat split; auto. intros j x E. discriminate.
  - simpl in Hnd. apply NoDup_cons in Hnd as [Hx Hnd].
    destruct (Hin x ltac:(left)) as [v Hv].
    destruct (Hb x d w v Hv) as (x' & v' & w1 & E1 & Hk & HR).
    destruct (IH (<[key x := v']> d) w1 Hnd) as (r' & d' & w2 & E2 & Hlen & Hpt & Hout).
    { intros y Hy. rewrite lookup_insert. case_decide; [eauto|].
      apply Hin. now right. }
    exists (x' :: r'), d', w2. split; [|split; [|split]].
    + simpl. rewrite (bind_ok _ _ _ _ _ E1). simpl.
      rewrite (bind_ok _ _ _ _ _ E2). reflexivity.
    + simpl. now rewrite Hlen.
    + intros [|j] y E; simpl in E.
      * injection E as <-. exists x', v, v'. repeat split; auto.
        rewrite (Hout _ Hx). apply lookup_insert_eq.
      * destruct (Hpt j y E) as (y' & vy & vy' & Ey & Hky & Hd & Hd' & HRy).
        exists y', vy, vy'. repeat split; auto.
        rewrite lookup_insert_ne in Hd; [exact Hd|].
        intros Ek. apply Hx. apply list_elem_of_fmap.
        exists y. split; [exact Ek|]. now apply list_elem_of_lookup_2 in E.
    + intros k Hk'. rewrite Hout.
      * apply lookup_insert_ne. intros Ek. apply Hk'. rewrite <- Ek. simpl. left.
      * intros Hr. apply Hk'. simpl. now right.
Qed.

(** The same for a loop that only changes the objects. *)
Lemma for_objects_pointwise {A B} (body : A -> M B) (R : A -> B -> Prop) :
  (forall x w, exists y w', body x w = Ok (y, w') /\ R x y) ->
  forall l w,
    exists l' w',
      for_objects body l w = Ok (l', w')
      /\ length l' = length l
      /\ (forall j x, l !! j = Some x -> exists x', l' !! j = Some x' /\ R x x').
Proof.
  intros Hb l w.
  destruct (for_objects_total body R Hb l w) as (l' & w' & E & HF).
  exists l', w'. split; [exact E|]. split.
  - symmetry. now apply Forall2_length in HF.
  - intros j x Hj. destruct (Forall2_lookup_l _ _ _ _ _ HF Hj) as (x' & Hx' & HR).
    eauto.
Qed.

End KeyedLoops.

(** ** The delay-aware scheduler: the phases of a slot *)

Section DasPhases.
Context `{NumpyRandom}.
Import DAS.

Lemma arrive_spec (u : User) (d : gmap nat Z) (w : World) (n : Z) :
  d !! id u = Some n ->
  exists u' n' w', arrive u d w = Ok ((u', <[id u := n']> d), w')
                   /\ id u' = id u /\ arrived u n u' n'.
Proof.
  intros Hn. unfold arrive, random, uniform, dict_get, bind, draw, ret.
  destruct (np_random (np_gen w)) as [r g1].
  destruct (Qltb r 0.3); simpl.
  - destruct (np_uniform 1 5 g1) as [sz g2]. rewrite Hn.
    eexists _, _, _. split; [reflexivity|]. split; [reflexivity|].
    split; [repeat split|]. exists [mkPacket (pdb u) sz]. repeat split; eauto.
  - exists u, n. eexists. rewrite (insert_id _ _ _ Hn).
    split; [reflexivity|]. split; [reflexivity|].
    split; [repeat split|]. exists []. rewrite app_nil_r. repeat split; auto.
    simpl. lia.
Qed.

Lemma sweep_spec (u : User) (d : gmap nat Z) (w : World) (n : Z) :
  d !! id u = Some n ->
  exists u' n' w', sweep u d w = Ok ((u', <[id u := n']> d), w')
                   /\ id u' = id u /\ swept u n u' n'.
Proof.
  intros Hn. unfold sweep, dict_get, bind, ret. rewrite Hn.
  eexists _, _, _. split; [reflexivity|]. repeat split.
Qed.

Lemma update_channel_spec (u : User) (w : World) :
  exists u' w', update_channel u w = Ok (u', w')
                /\ same_user u u' /\ packets u' = packets u.
Proof.
  unfold update_channel, normal, bind, draw, ret.
  destruct (np_normal 0 2 (np_gen w)) as [step g].
  eexists _, _. split; [reflexivity|]. repeat split.
Qed.

Lemma odict_set_keys (k : nat) (v : Q) (d : list (nat * Q)) (k' : nat) :
  k' ∈ map fst (odict_set k v d) -> k' = k \/ k' ∈ map fst d.
Proof.
  induction d as [|[k0 v0] d IH]; simpl.
  - intros Hk. apply list_elem_of_singleton in Hk. now left.
  - destruct (k =? k0)%nat eqn:E; simpl; intros Hk;
      apply elem_of_cons in Hk as [Hk|Hk].
    + now left.
    + right. now right.
    + right. subst. left.
    + destruct (IH Hk) as [Hk'|Hk']; [now left|]. right. now right.
Qed.

Lemma compute_priorities_keys (beta : Q) (us : list User) (k : nat) :
  k ∈ map fst (compute_priorities beta us) -> k ∈ map id us.
Proof.
  unfold compute_priorities.
  assert (G : forall d,
             k ∈ map fst (fold_left
                            (fun priorities u => odict_set (id u) (priority beta u) priorities)
                            us d) ->
             k ∈ map fst d \/ k ∈ map id us).
  { induction us as [|u r IH]; intros d; simpl; [now left|].
    intros Hk. destruct (IH _ Hk) as [Hd|Hr].
    - destruct (odict_set_keys _ _ _ _ Hd) as [->|Hd']; [right; left|now left].
    - right. now right. }
  intros Hk. destruct (G [] Hk) as [Hd|Hd]; [|exact Hd].
  simpl in Hd. now apply elem_of_nil in Hd.
Qed.

Lemma find_user_spec (k : nat) (us : list User) (n : nat) :
  k ∈ map id us ->
  exists i u, find_user k n us = Some ((n + i)%nat, u) /\ us !! i = Some u /\ id u = k.
Proof.
  revert n. induction us as [|u r IH]; intros n Hk; simpl in *.
  - now apply elem_of_nil in Hk.
  - destruct (id u =? k)%nat eqn:E.
    + apply Nat.eqb_eq in E. exists 0%nat, u. rewrite Nat.add_0_r. auto.
    + apply Nat.eqb_neq in E. apply elem_of_cons in Hk as [Hk|Hk]; [congruence|].
      destruct (IH (Datatypes.S n) Hk) as (i & u' & Ef & Hl & Hi).
      exists (Datatypes.S i), u'. rewrite Ef. repeat split; auto.
      do 2 f_equal. lia.
Qed.

(** Selection: nothing is transmitted, or the head packet of the user at
    one position is. *)
Lemma select_and_serve_spec (beta : Q) (us : list User) (ds : gmap nat (list Z)) (w : World) :
  (forall u, u ∈ us -> is_Some (ds !! id u)) ->
  (select_and_serve (compute_priorities beta us) us ds w = Ok ((us, ds, 0.0%Q), w))
  \/ exists i u packet rest d,
       us !! i = Some u /\ packets u = packet :: rest /\ ds !! id u = Some d
       /\ select_and_serve (compute_priorities beta us) us ds w
          = Ok ((<[i := after_transmission packet rest u]> us,
                 <[id u := d ++ [pdb u - remaining_time packet]]> ds,
                 (0.0 + size packet)%Q), w).
Proof.
  intros Hds. unfold select_and_serve.
  destruct (max_by snd (compute_priorities beta us)) as [[j [k v]]|] eqn:Em;
    [|now left].
  apply max_by_lookup in Em.
  assert (Hk : k ∈ map id us).
  { apply (compute_priorities_keys beta). apply list_elem_of_fmap.
    exists (k, v). split; [reflexivity|]. now apply list_elem_of_lookup_2 in Em. }
  destruct (find_user_spec k us 0 Hk) as (i & u & Ef & Hl & Hi).
  rewrite Ef. simpl.
  destruct (packets u) as [|packet rest] eqn:Ep; [now left|].
  right. destruct (Hds u) as [d Hd]; [now apply list_elem_of_lookup_2 in Hl|].
  exists i, u, packet, rest, d. repeat split; auto.
  unfold dict_get, bind, ret. now rewrite Hd.
Qed.

End DasPhases.

Lemma map_pointwise {A B C} (f : A -> C) (g : B -> C) (l : list A) (l' : list B) :
  length l' = length l ->
  (forall j x, l !! j = Some x -> exists x', l' !! j = Some x' /\ g x' = f x) ->
  map g l' = map f l.
Proof.
  intros Hlen Hpt. apply list_eq. intros j. rewrite !list_lookup_fmap.
  destruct (l !! j) as [x|] eqn:E.
  - destruct (Hpt j x E) as (x' & -> & Hx). simpl. now rewrite Hx.
  - apply lookup_ge_None in E. rewrite <- Hlen in E.
    apply lookup_ge_None in E. now rewrite E.
Qed.

Section DasSlot.
Context `{NumpyRandom}.
Import DAS.

Lemma select_and_serve_pointwise (beta : Q) (us : list User)
    (ds : gmap nat (list Z)) (w : World) :
  NoDup (map id us) ->
  (forall u, u ∈ us -> is_Some (ds !! id u)) ->
  exists us' ds' transmitted_bytes sel,
    select_and_serve (compute_priorities beta us) us ds w
    = Ok ((us', ds', transmitted_bytes), w)
    /\ length us' = length us
    /\ (sel = None -> transmitted_bytes = 0.0%Q)
    /\ forall j u, us !! j = Some u ->
         exists u', us' !! j = Some u' /\ selected ds ds' transmitted_bytes sel j u u'.
Proof.
  intros Hnd Hds.
  destruct (select_and_serve_spec beta us ds w Hds)
    as [E|(i & ui & packet & rest & d & Hi & Hp & Hd & E)].
  - exists us, ds, 0.0%Q, None. repeat split; auto.
    intros j u Hj. exists u. split; [exact Hj|]. split; [repeat split|].
    right. repeat split. discriminate.
  - eexists _, _, _, (Some i). split; [exact E|].
    split; [apply length_insert|]. split; [discriminate|].
    intros j u Hj. destruct (decide (i = j)) as [->|Hne].
    + assert (u = ui) as -> by congruence.
      exists (after_transmission packet rest ui). split.
      * apply list_lookup_insert_eq. now apply lookup_lt_Some in Hj.
      * split; [repeat split|]. left. split; [reflexivity|].
        exists packet, rest, d. repeat split; auto.
        apply lookup_insert_eq.
    + exists u. split; [now rewrite list_lookup_insert_ne|].
      split; [repeat split|]. right. repeat split; [congruence|].
      apply lookup_insert_ne. intros Eid. apply Hne.
      apply (NoDup_lookup _ i j (id ui) Hnd); rewrite list_lookup_fmap.
      * now rewrite Hi.
      * now rewrite Hj, Eid.
Qed.

Lemma same_user_trans (u v x : User) : same_user u v -> same_user v x -> same_user u x.
Proof. unfold same_user. intros (-> & -> & ->) (? & ? & ?). auto. Qed.

End DasSlot.

Section DasSlotSpec.
Context `{NumpyRandom}.
Import DAS.

Lemma key_present {V} (m : gmap nat V) (us us' : list User) :
  map id us' = map id us ->
  (forall u, u ∈ us -> is_Some (m !! id u)) ->
  forall u, u ∈ us' -> is_Some (m !! id u).
Proof.
  intros E Hm u Hu.
  assert (Hi : id u ∈ map id us).
  { rewrite <- E. apply list_elem_of_fmap. now exists u. }
  apply list_elem_of_fmap in Hi as (u0 & -> & Hu0). now apply Hm.
Qed.

(** One slot on a well-formed state returns, and relates every user of
    the state before to the user at the same position after. *)
Lemma das_slot_spec (beta : Q) (st : State) (w : World) :
  wf st ->
  exists st' w',
    slot beta st w = Ok (st', w')
    /\ slot_step st st'
    /\ map id (users st') = map id (users st).
Proof.
  intros [Hnd Hkeys].
  destruct (for_objects_with_keyed id arrive arrived arrive_spec
              (users st) (total_packets st) w Hnd)
    as (us1 & tp1 & w1 & E1 & L1 & P1 & O1).
  { intros u Hu. now destruct (Hkeys u Hu) as (_ & ? & _). }
  assert (I1 : map id us1 = map id (users st)).
  { apply map_pointwise; [exact L1|]. intros j u Hj.
    destruct (P1 j u Hj) as (u1 & n & n' & Hu1 & Hid & _). eauto. }
  set (us2 := age_packets us1).
  assert (L2 : length us2 = length us1) by apply length_map.
  assert (I2 : map id us2 = map id (users st)).
  { unfold us2, age_packets. rewrite map_map. exact I1. }
  destruct (select_and_serve_pointwise beta us2 (delays st) w1)
    as (us3 & ds3 & tb & sel & E3 & L3 & Hnone & P3).
  { now rewrite I2. }
  { apply (key_present _ (users st)); [exact I2|].
    intros u Hu. now destruct (Hkeys u Hu) as (_ & _ & ?). }
  assert (I3 : map id us3 = map id (users st)).
  { rewrite <- I2. apply map_pointwise; [exact L3|]. intros j u Hj.
    destruct (P3 j u Hj) as (u' & Hu' & (Hid & _) & _). eauto. }
  destruct (for_objects_with_keyed id sweep swept sweep_spec us3 (timeouts st) w1)
    as (us4 & to4 & w4 & E4 & L4 & P4 & O4).
  { now rewrite I3. }
  { apply (key_present _ (users st)); [exact I3|].
    intros u Hu. now destruct (Hkeys u Hu) as (? & _ & _). }
  destruct (for_objects_pointwise update_channel
              (fun u u' => same_user u u' /\ packets u' = packets u)
              update_channel_spec us4 w4)
    as (us5 & w5 & E5 & L5 & P5).
  eexists _, w5. split; [|split].
  - unfold slot. rewrite (bind_ok _ _ _ _ _ E1). cbv beta iota. fold us2.
    rewrite (bind_ok _ _ _ _ _ E3). cbv beta iota.
    rewrite (bind_ok _ _ _ _ _ E4). cbv beta iota.
    rewrite (bind_ok _ _ _ _ _ E5). reflexivity.
  - exists tb, sel. cbn [users timeouts total_packets delays st_throughput_history].
    split; [reflexivity|]. split; [lia|]. split; [exact Hnone|].
    intros j u Hj.
    destruct (P1 j u Hj)
      as (u1 & n & n' & Hu1 & Hid1 & Hn & Hn' & Hs1 & new & Hnew & Hp1 & ->).
    assert (Hu2 : us2 !! j = Some (set_packets (map age (packets u1)) u1)).
    { unfold us2, age_packets. now rewrite list_lookup_fmap, Hu1. }
    destruct (P3 j _ Hu2) as (u3 & Hu3 & Hs3 & Hsel).
    destruct (P4 j u3 Hu3) as (u4 & t & t' & Hu4 & Hid4 & Ht & Ht' & Hs4 & Hp4 & ->).
    destruct (P5 j u4 Hu4) as (u5 & Hu5 & Hs5 & Hp5).
    exists u5. split; [exact Hu5|].
    assert (Hs13 : same_user u u3).
    { apply (same_user_trans _ u1); [exact Hs1|].
      destruct Hs3 as (? & ? & ?). repeat split; assumption. }
    assert (Hid3 : id u3 = id u) by apply Hs13.
    assert (Hpdb : pdb u1 = pdb u) by apply Hs1.
    cbn [id pdb packets set_packets] in Hsel.
    rewrite Hid1, Hp1, Hpdb in Hsel. rewrite Hid3 in Ht, Ht'.
    split.
    { apply (same_user_trans _ u3); [exact Hs13|].
      apply (same_user_trans _ u4); assumption. }
    exists new, n. split; [exact Hnew|]. split; [exact Hn|]. split; [exact Hn'|].
    cbv zeta.
    destruct Hsel as [(Hsj & packet & rest & d & Hq & Hq3 & Hd & Hd3 & Htb)
                     |(Hsj & Hq3 & Hd3)].
    + left. split; [exact Hsj|]. exists packet, rest, d, t.
      rewrite Hp5, Hp4, Hq3. rewrite Hq3 in Ht'. repeat split; auto.
    + right. split; [exact Hsj|]. unfold unserved.
      rewrite Hp5, Hp4, Hq3. rewrite Hq3 in Ht'. repeat split; auto.
      exists t. split; assumption.
  - cbn [users]. rewrite <- I3. apply map_pointwise; [lia|].
    intros j u3 Hu3.
    destruct (P4 j u3 Hu3) as (u4 & t & t' & Hu4 & Hid4 & _).
    destruct (P5 j u4 Hu4) as (u5 & Hu5 & Hs5 & _).
    exists u5. split; [exact Hu5|]. destruct Hs5 as (-> & _). exact Hid4.
Qed.

End DasSlotSpec.

(** ** The delay-aware scheduler: the loop invariant *)

Section DasLoop.
Context `{NumpyRandom}.
Import DAS.

Lemma alive_expired_length (l : list Packet) :
  (length (alive l) + length (expired l) = length l)%nat.
Proof.
  unfold alive, expired. induction l as [|p l IH]; [reflexivity|].
  rewrite !filter_cons.
  destruct (decide (0 < remaining_time p)), (decide (remaining_time p <= 0));
    simpl; lia.
Qed.

Lemma alive_positive (l : list Packet) :
  Forall (fun p => 0 < remaining_time p) (alive l).
Proof.
  unfold alive. apply Forall_forall. intros p Hp.
  now apply list_elem_of_filter in Hp as [Hp _].
Qed.

Lemma inv_wf (k : nat) (st : State) : slot_inv k st -> wf st.
Proof.
  intros (Hnd & Hacc & _). split; [exact Hnd|].
  intros u Hu. destruct (Hacc u Hu) as (n & t & ds & Hn & Ht & Hd & _).
  rewrite Hn, Ht, Hd. repeat split; eauto.
Qed.

Lemma step_accounted (st st' : State) :
  slot_step st st' ->
  (forall u, u ∈ users st -> accounted st u) ->
  forall u', u' ∈ users st' -> accounted st' u'.
Proof.
  intros (tb & sel & _ & Hlen & _ & Hpt) Hacc u' Hu'.
  apply list_elem_of_lookup in Hu' as [j Hj].
  assert (Hlt : (j < length (users st))%nat)
    by (rewrite <- Hlen; now apply lookup_lt_Some in Hj).
  apply lookup_lt_is_Some in Hlt as [u Hu].
  destruct (Hpt j u Hu) as (u'' & Hj' & (Hid & _) & new & n & Hnew & Hn & Hn' & Hcase).
  assert (u'' = u') as -> by congruence.
  destruct (Hacc u) as (n0 & t & ds & Hn0 & Ht & Hd & Ht0 & Hsum & _);
    [now apply list_elem_of_lookup_2 in Hu|].
  assert (n0 = n) as -> by congruence.
  unfold accounted. rewrite Hid.
  assert (Hq : length (map age (packets u ++ new))
               = (length (packets u) + length new)%nat)
    by now rewrite length_map, length_app.
  cbv zeta in Hcase.
  destruct Hcase as [(_ & packet & rest & ds0 & t0 & Hqe & Hp' & Hd0 & Hd' & _ & Ht1 & Ht')
                    |(_ & Hp' & Hd' & t0 & Ht1 & Ht')].
  - assert (ds0 = ds) as -> by congruence. assert (t0 = t) as -> by congruence.
    exists (n + Z.of_nat (length new)), (t + Z.of_nat (length (expired rest))),
      (ds ++ [pdb u - remaining_time packet]).
    rewrite Hp'. repeat split; auto; try lia; [|apply alive_positive].
    rewrite Hqe in Hq. simpl in Hq. rewrite length_app. simpl.
    pose proof (alive_expired_length rest). lia.
  - assert (t0 = t) as -> by congruence.
    exists (n + Z.of_nat (length new)),
      (t + Z.of_nat (length (expired (map age (packets u ++ new))))), ds.
    rewrite Hp'. repeat split; auto; try lia; [congruence| |apply alive_positive].
    pose proof (alive_expired_length (map age (packets u ++ new))). lia.
Qed.

Lemma das_slot_total (beta : Q) (k : nat) (st : State) (w : World) :
  slot_inv k st ->
  exists st' w', slot beta st w = Ok (st', w') /\ slot_inv (Datatypes.S k) st'.
Proof.
  intros HI. pose proof HI as (Hnd & Hacc & Hlen).
  destruct (das_slot_spec beta st w (inv_wf k st HI)) as (st' & w' & E & Hstep & Hids).
  exists st', w'. split; [exact E|]. split; [|split].
  - now rewrite Hids.
  - now apply (step_accounted st).
  - destruct Hstep as (tb & sel & -> & _). rewrite length_app. simpl. lia.
Qed.

Lemma dict_of_users_lookup {V} (v : V) (us : list User) (k : nat) :
  k ∈ map id us -> dict_of_users v us !! k = Some v.
Proof.
  unfold dict_of_users.
  assert (G : forall d : gmap nat V,
             fold_left (fun d u => <[id u := v]> d) us d !! k
             = if decide (k ∈ map id us) then Some v else d !! k).
  { induction us as [|u r IH]; intros d; simpl.
    - destruct (decide (k ∈ [])) as [Hk|Hk]; [now apply elem_of_nil in Hk|reflexivity].
    - rewrite IH. destruct (decide (k ∈ map id r)) as [Hr|Hr].
      + rewrite decide_True; [reflexivity|now right].
      + destruct (decide (k = id u)) as [->|Hne].
        * rewrite decide_True by left. apply lookup_insert_eq.
        * rewrite decide_False; [now apply lookup_insert_ne|].
          intros Hk. apply elem_of_cons in Hk as [Hk|Hk]; congruence. }
  intros Hk. rewrite G. now rewrite decide_True.
Qed.

Lemma new_user_spec (i : nat) (w : World) :
  exists u w', new_user i w = Ok (u, w') /\ id u = i /\ packets u = [].
Proof.
  unfold new_user, uniform, bind, draw, ret.
  destruct (i <? 5)%nat; [|destruct (i <? 10)%nat];
    (simpl; destruct (np_uniform 5 20 (np_gen w)) as [rate g];
     eexists _, _; split; [reflexivity|split; reflexivity]).
Qed.

Lemma setup_total (num_users : Z) (seed : option Z) (w : World) :
  seed_accepted seed ->
  exists st w', setup num_users seed w = Ok (st, w') /\ slot_inv 0 st.
Proof.
  intros Hs.
  assert (Es : exists w0, (match seed with Some s => seed_all s | None => ret tt end) w
                          = Ok (tt, w0)).
  { destruct seed as [s|]; [|now exists w].
    destruct Hs as [g Hg]. unfold seed_all. rewrite Hg. eauto. }
  destruct Es as [w0 Es].
  destruct (for_objects_pointwise new_user (fun i u => id u = i /\ packets u = [])
              new_user_spec (seq 0 (Z.to_nat num_users)) w0)
    as (us & w1 & E & Hlen & Hpt).
  exists (init_state us), w1. split.
  - unfold setup. rewrite (bind_ok _ _ _ _ _ Es), (bind_ok _ _ _ _ _ E). reflexivity.
  - assert (Hids : map id us = seq 0 (Z.to_nat num_users)).
    { rewrite <- (map_id (seq 0 (Z.to_nat num_users))).
      apply map_pointwise; [exact Hlen|].
      intros j x Hj. destruct (Hpt j x Hj) as (u & Hu & Hid & _). eauto. }
    split; [|split; [|reflexivity]].
    + cbn [init_state users]. rewrite Hids. apply NoDup_seq.
    + intros u Hu. cbn [init_state users] in Hu.
      assert (Hk : id u ∈ map id us) by (apply list_elem_of_fmap; now exists u).
      exists 0, 0, []. unfold init_state. cbn [total_packets timeouts delays].
      rewrite !dict_of_users_lookup by exact Hk.
      apply list_elem_of_lookup in Hu as [j Hj].
      assert (Hp : packets u = []).
      { assert (Hlt : (j < length (seq 0 (Z.to_nat num_users)))%nat)
          by (rewrite <- Hlen; now apply lookup_lt_Some in Hj).
        apply lookup_lt_is_Some in Hlt as [x Hx].
        destruct (Hpt j x Hx) as (u0 & Hu0 & _ & Hp0). congruence. }
      rewrite Hp. repeat split; auto; try lia.
Qed.

Lemma das_run_total (beta : Q) (n : nat) (num_users : Z) (seed : option Z) (w : World) :
  seed_accepted seed ->
  exists st w', run beta n num_users seed w = Ok (st, w') /\ slot_inv n st.
Proof.
  intros Hs. destruct (setup_total num_users seed w Hs) as (st0 & w0 & E0 & HI0).
  destruct (for_range_total slot_inv (slot beta) (das_slot_total beta) n 0%nat st0 w0 HI0)
    as (st & w' & E & HI).
  exists st, w'. unfold run. rewrite (bind_ok _ _ _ _ _ E0).
  split; [exact E|]. now rewrite Nat.add_0_r in HI.
Qed.

End DasLoop.

(** ** The aggregates of the delay-aware scheduler *)

Section DasFinish.
Context `{NumpyRandom}.
Import DAS.

Lemma lookups_total {V} (d : gmap nat V) (l : list User) (w : World) :
  (forall u, u ∈ l -> is_Some (d !! id u)) ->
  exists vs, for_objects (fun u => dict_get d (id u)) l w = Ok (vs, w)
             /\ Forall2 (fun u v => d !! id u = Some v) l vs.
Proof.
  induction l as [|u r IH]; intros Hd; simpl.
  - exists []. split; [reflexivity|constructor].
  - destruct (Hd u ltac:(left)) as [v Hv].
    destruct IH as (vs & E & HF); [intros x Hx; apply Hd; now right|].
    exists (v :: vs). split; [|now constructor].
    unfold bind at 1. unfold dict_get at 1. rewrite Hv. unfold ret at 1.
    rewrite (bind_ok _ _ _ _ _ E). reflexivity.
Qed.

Lemma timeouts_le_arrivals (st : State) (l : list User) (ts ns : list Z) :
  (forall u, u ∈ l -> accounted st u) ->
  Forall2 (fun u t => timeouts st !! id u = Some t) l ts ->
  Forall2 (fun u n => total_packets st !! id u = Some n) l ns ->
  0 <= Zsum ts <= Zsum ns.
Proof.
  unfold Zsum. intros Hacc Ht. revert ns.
  induction Ht as [|u t l ts Hu Ht IH]; intros ns Hn; inversion Hn as [|? n ? ns' Hun Hn']; subst.
  - simpl. lia.
  - destruct (Hacc u ltac:(left)) as (n0 & t0 & ds & Hn0 & Ht0 & _ & Hpos & Hsum & _).
    assert (n0 = n) as -> by congruence. assert (t0 = t) as -> by congruence.
    specialize (IH ltac:(intros x Hx; apply Hacc; now right) ns' Hn').
    simpl. lia.
Qed.

(** The aggregation returns, the timeout rate is a percentage, and the
    history is the last 50 samples of the series. *)
Lemma finish_spec (k : nat) (st : State) (w : World) :
  slot_inv k st ->
  exists r, finish st w = Ok (r, w)
            /\ percent (urllc_timeout_rate r)
            /\ throughput_history r = last50 (st_throughput_history st).
Proof.
  intros (_ & Hacc & _).
  assert (Hin : forall u, u ∈ urllc_users (users st) -> accounted st u).
  { intros u Hu. apply Hacc. unfold urllc_users in Hu.
    now apply list_elem_of_filter in Hu as [_ Hu]. }
  destruct (lookups_total (timeouts st) (urllc_users (users st)) w) as (ts & Et & Ht).
  { intros u Hu. destruct (Hin u Hu) as (n & t & ds & _ & -> & _). eauto. }
  destruct (lookups_total (total_packets st) (urllc_users (users st)) w) as (ns & En & Hn).
  { intros u Hu. destruct (Hin u Hu) as (n & t & ds & -> & _). eauto. }
  destruct (lookups_total (delays st) (urllc_users (users st)) w) as (ds & Ed & Hd).
  { intros u Hu. destruct (Hin u Hu) as (n & t & d & _ & _ & -> & _). eauto. }
  eexists. unfold finish.
  rewrite (bind_ok _ _ _ _ _ Et), (bind_ok _ _ _ _ _ En), (bind_ok _ _ _ _ _ Ed).
  split; [reflexivity|]. split; [|reflexivity].
  cbn [urllc_timeout_rate].
  pose proof (timeouts_le_arrivals st _ ts ns Hin Ht Hn).
  apply percent_ratio; lia.
Qed.

End DasFinish.

(** ** The results of the three simulators *)

Section Results.
Context `{NumpyRandom}.

Lemma das_simulate_total (beta : Q) (num_slots num_users : Z) (seed : option Z) (w : World) :
  DAS.seed_accepted seed ->
  exists r w',
    DAS.simulate_das beta num_slots num_users seed w = Ok (r, w')
    /\ percent (DAS.urllc_timeout_rate r)
    /\ length (DAS.throughput_history r) = Nat.min (Z.to_nat num_slots) 50.
Proof.
  intros Hs.
  destruct (das_run_total beta (Z.to_nat num_slots) num_users seed w Hs)
    as (st & w' & E & HI).
  destruct (finish_spec _ st w' HI) as (r & Ef & Hp & Hh).
  exists r, w'. unfold DAS.simulate_das. rewrite (bind_ok _ _ _ _ _ E).
  split; [exact Ef|]. split; [exact Hp|].
  rewrite Hh, length_last50. destruct HI as (_ & _ & ->). reflexivity.
Qed.

Lemma csi_simulate_total (alpha : Q) (num_slots num_users : Z) (w : World) :
  0 < num_users ->
  exists r w',
    CSI.simulate_csi_smoothing alpha num_slots num_users w = Ok (r, w')
    /\ (0 < num_slots -> nf_percent (CSI.retransmission_rate r))
    /\ length (CSI.se_history r) = Nat.min (Z.to_nat num_slots) 50
    /\ length (CSI.retrans_history r) = Nat.min (Z.to_nat num_slots) 50.
Proof.
  intros Hu.
  destruct (csi_run_total alpha (Z.to_nat num_slots) num_users w Hu)
    as (st & w' & E & (_ & _ & _ & Hse & Hrr & Hp)).
  exists (CSI.result st), w'. unfold CSI.simulate_csi_smoothing.
  rewrite (bind_ok _ _ _ _ _ E). split; [reflexivity|].
  unfold CSI.result; simpl. rewrite !length_last50, Hse, Hrr.
  repeat split. intros Hn. apply np_mean_percent; [|exact Hp].
  intros E0. rewrite E0 in Hrr. simpl in Hrr. lia.
Qed.

Lemma frag_simulate_total (clustering_enabled : bool) (num_slots : Z) (w : World) :
  exists r w',
    FRAG.simulate_fragmentation_aware clustering_enabled num_slots w = Ok (r, w')
    /\ (0 < num_slots ->
        nf_percent (FRAG.spectrum_utilization r) /\ nf_percent (FRAG.urllc_compliance r))
    /\ length (FRAG.util_history r) = Nat.min (Z.to_nat num_slots) 50
    /\ length (FRAG.throughput_history r) = Nat.min (Z.to_nat num_slots) 50.
Proof.
  destruct (frag_run_total clustering_enabled (Z.to_nat num_slots) w)
    as (st & w' & E & (_ & Hu & Ht & Hc & Pu & Pc)).
  exists (FRAG.result st), w'. unfold FRAG.simulate_fragmentation_aware.
  rewrite (bind_ok _ _ _ _ _ E). split; [reflexivity|].
  unfold FRAG.result; simpl. rewrite !length_last50, Hu, Ht.
  repeat split.
  - apply np_mean_percent; [|exact Pu].
    intros E0. rewrite E0 in Hu. simpl in Hu. lia.
  - apply np_mean_percent; [|exact Pc].
    intros E0. rewrite E0 in Hc. simpl in Hc. lia.
Qed.

Lemma histories_min (num_slots : Z) :
  histories_have_length num_slots (Nat.min (Z.to_nat num_slots) 50).
Proof.
  split; [|split].
  - intros beta num_users seed w Hs.
    destruct (das_simulate_total beta num_slots num_users seed w Hs)
      as (r & w' & E & _ & Hl). eauto.
  - intros alpha num_users w Hu.
    destruct (csi_simulate_total alpha num_slots num_users w Hu)
      as (r & w' & E & _ & Hl). eauto.
  - intros c w.
    destruct (frag_simulate_total c num_slots w) as (r & w' & E & _ & Hl). eauto.
Qed.

(** Away from the empty run the rates are percentages: for every number
    of slots the timeout rate of the delay-aware scheduler, and with at
    least one slot the retransmission rate (given a user), the spectrum
    utilization and the URLLC compliance. *)
Lemma rates_are_percentages_after_a_slot :
  (forall beta num_slots num_users seed w,
     DAS.seed_accepted seed ->
     exists r w', DAS.simulate_das beta num_slots num_users seed w = Ok (r, w')
                  /\ percent (DAS.urllc_timeout_rate r))
  /\ (forall alpha num_slots num_users w,
        0 < num_slots -> 0 < num_users ->
        exists r w', CSI.simulate_csi_smoothing alpha num_slots num_users w = Ok (r, w')
                     /\ nf_percent (CSI.retransmission_rate r))
  /\ (forall clustering_enabled num_slots w,
        0 < num_slots ->
        exists r w',
          FRAG.simulate_fragmentation_aware clustering_enabled num_slots w = Ok (r, w')
          /\ nf_percent (FRAG.spectrum_utilization r)
          /\ nf_percent (FRAG.urllc_compliance r)).
Proof.
  split; [|split].
  - intros beta num_slots num_users seed w Hs.
    destruct (das_simulate_total beta num_slots num_users seed w Hs)
      as (r & w' & E & Hp & _). eauto.
  - intros alpha num_slots num_users w Hn Hu.
    destruct (csi_simulate_total alpha num_slots num_users w Hu)
      as (r & w' & E & Hp & _). eauto.
  - intros c num_slots w Hn.
    destruct (frag_simulate_total c num_slots w) as (r & w' & E & Hp & _).
    exists r, w'. split; [exact E|]. now apply Hp.
Qed.

End Results.

(** ** Empty runs *)

(** C1 (the code departs from it). With [num_slots = 0] neither
    [simulate_csi_smoothing] nor [simulate_fragmentation_aware] raises,
    but the aggregates they return are [nan], the mean of an empty list,
    and not [0.0]: the guard that [simulate_das] puts before its means is
    missing in both. *)
Theorem empty_run_means_are_nan `{NumpyRandom} :
  (forall (alpha : Q) (num_users : Z) (w : World),
     CSI.simulate_csi_smoothing alpha 0 num_users w
     = Ok ({| CSI.spectral_efficiency := NaN; CSI.retransmission_rate := NaN;
              CSI.se_history := []; CSI.retrans_history := [] |}, w))
  /\ (forall (clustering_enabled : bool) (w : World),
        FRAG.simulate_fragmentation_aware clustering_enabled 0 w
        = Ok ({| FRAG.spectrum_utilization := NaN; FRAG.avg_throughput := NaN;
                 FRAG.urllc_compliance := NaN;
                 FRAG.util_history := []; FRAG.throughput_history := [] |}, w))
  /\ NaN <> Num 0.0.
Proof. repeat split. discriminate. Qed.

(** C3 (the code departs from it). With [num_slots = 0], a valid input,
    the retransmission rate of [simulate_csi_smoothing] and the spectrum
    utilization and URLLC compliance of [simulate_fragmentation_aware]
    are [nan], which is not in [0, 100]. *)
Theorem empty_run_rates_not_percentages `{NumpyRandom} :
  (forall (alpha : Q) (num_users : Z) (w : World),
     exists r, CSI.simulate_csi_smoothing alpha 0 num_users w = Ok (r, w)
               /\ ~ nf_percent (CSI.retransmission_rate r))
  /\ (forall (clustering_enabled : bool) (w : World),
        exists r, FRAG.simulate_fragmentation_aware clustering_enabled 0 w = Ok (r, w)
                  /\ ~ nf_percent (FRAG.spectrum_utilization r)
                  /\ ~ nf_percent (FRAG.urllc_compliance r)).
Proof.
  split; intros; eexists; (split; [reflexivity|]); simpl; tauto.
Qed.

(** ** History truncation *)

(** C4. Run with 200 slots, every simulator returns history arrays of
    length exactly 50; with 10 slots, of length exactly 10. (The
    delay-aware scheduler with a seed numpy accepts, or none; the CSI
    scheduler with at least one user.) *)
Theorem history_truncation `{NumpyRandom} :
  histories_have_length 200 50 /\ histories_have_length 10 10.
Proof. split; [apply (histories_min 200)|apply (histories_min 10)]. Qed.

Lemma history_truncation_witness :
  DAS.seed_accepted (Some 42) /\ 0 < 15
  /\ (exists r w', DAS.simulate_das 0.7 10 15 (Some 42) (lcg_world 7) = Ok (r, w')
                   /\ length (DAS.throughput_history r) = 10%nat)
  /\ (exists r w', CSI.simulate_csi_smoothing 0.2 10 15 (lcg_world 7) = Ok (r, w')
                   /\ length (CSI.se_history r) = 10%nat
                   /\ length (CSI.retrans_history r) = 10%nat).
Proof.
  assert (Hs : DAS.seed_accepted (Some 42)) by (simpl; eauto).
  split; [exact Hs|]. split; [lia|]. split.
  - apply (proj1 (proj2 (@history_truncation lcg))). exact Hs.
  - apply (proj1 (proj2 (proj2 (@history_truncation lcg)))). lia.
Defined.

(** ** The proportional-fair baseline and determinism *)

Lemma Qltb_proper (a a' b b' : Q) :
  (a == a')%Q -> (b == b')%Q -> Qltb a b = Qltb a' b'.
Proof. intros Ha Hb. unfold Qltb. now rewrite Ha, Hb. Qed.

Section DasBeta.
Context `{NumpyRandom}.
Import DAS.

Lemma odict_set_same (k : nat) (v1 v2 : Q) (d1 d2 : list (nat * Q)) :
  (v1 == v2)%Q -> same_priorities d1 d2 ->
  same_priorities (odict_set k v1 d1) (odict_set k v2 d2).
Proof.
  intros Hv Hd. induction Hd as [|[k1 x1] [k2 x2] d1 d2 [Hk Hx] Hd IH]; simpl in *.
  - repeat constructor; auto.
  - subst k2. destruct (k =? k1)%nat; constructor; auto.
Qed.

Lemma priority_proper (b1 b2 : Q) (u : User) :
  (b1 == b2)%Q -> (priority b1 u == priority b2 u)%Q.
Proof. intros Hb. unfold priority. now rewrite Hb. Qed.

Lemma compute_priorities_same (b1 b2 : Q) (us : list User) :
  (b1 == b2)%Q ->
  same_priorities (compute_priorities b1 us) (compute_priorities b2 us).
Proof.
  intros Hb. unfold compute_priorities.
  assert (G : forall d1 d2, same_priorities d1 d2 ->
             same_priorities
               (fold_left (fun d u => odict_set (id u) (priority b1 u) d) us d1)
               (fold_left (fun d u => odict_set (id u) (priority b2 u) d) us d2)).
  { induction us as [|u r IH]; intros d1 d2 Hd; simpl; [exact Hd|].
    apply IH. apply odict_set_same; [now apply priority_proper|exact Hd]. }
  apply G. constructor.
Qed.

Lemma max_from_same (d1 d2 : list (nat * Q)) (b1 b2 : nat * (nat * Q)) (i : nat) :
  same_priorities d1 d2 ->
  fst (snd b1) = fst (snd b2) -> (snd (snd b1) == snd (snd b2))%Q ->
  fst (snd (max_from snd b1 i d1)) = fst (snd (max_from snd b2 i d2)).
Proof.
  intros Hd. revert b1 b2 i.
  induction Hd as [|[k1 x1] [k2 x2] d1 d2 [Hk Hx] Hd IH]; intros b1 b2 i Hb Hv; simpl in *.
  - exact Hb.
  - rewrite (Qltb_proper _ _ _ _ Hv Hx).
    destruct (Qltb (snd (snd b2)) x2); apply IH; auto.
Qed.

Lemma select_and_serve_same (p1 p2 : list (nat * Q)) (us : list User)
    (ds : gmap nat (list Z)) (w : World) :
  same_priorities p1 p2 ->
  select_and_serve p1 us ds w = select_and_serve p2 us ds w.
Proof.
  intros Hp. unfold select_and_serve.
  destruct Hp as [|[k1 x1] [k2 x2] d1 d2 [Hk Hx] Hd]; simpl; [reflexivity|].
  pose proof (max_from_same d1 d2 (0%nat, (k1, x1)) (0%nat, (k2, x2)) 1 Hd Hk Hx) as E.
  destruct (max_from snd (0%nat, (k1, x1)) 1 d1) as [i1 [s1 y1]].
  destruct (max_from snd (0%nat, (k2, x2)) 1 d2) as [i2 [s2 y2]].
  simpl in E. now subst s2.
Qed.

Lemma slot_beta (b1 b2 : Q) (st : State) (w : World) :
  (b1 == b2)%Q -> slot b1 st w = slot b2 st w.
Proof.
  intros Hb. unfold slot, bind.
  destruct (for_objects_with arrive (users st) (total_packets st) w)
    as [[[us1 tp1] w1]|e]; [|reflexivity].
  now rewrite (select_and_serve_same _ _ _ _ _
                 (compute_priorities_same b1 b2 (age_packets us1) Hb)).
Qed.

Lemma for_range_ext {S} (f g : S -> M S) (n : nat) :
  (forall s w, f s w = g s w) -> forall s w, for_range n f s w = for_range n g s w.
Proof.
  intros Hfg. induction n as [|n IH]; intros s w; simpl; [reflexivity|].
  unfold bind. rewrite Hfg. destruct (g s w) as [[s1 w1]|e]; [apply IH|reflexivity].
Qed.

Lemma simulate_das_beta (b1 b2 : Q) (num_slots num_users : Z) (seed : option Z) (w : World) :
  (b1 == b2)%Q ->
  simulate_das b1 num_slots num_users seed w = simulate_das b2 num_slots num_users seed w.
Proof.
  intros Hb. unfold simulate_das, run, bind.
  destruct (setup num_users seed w) as [[st0 w0]|e]; [|reflexivity].
  rewrite (for_range_ext (slot b1) (slot b2) _ (fun s w => slot_beta b1 b2 s w Hb)).
  reflexivity.
Qed.

End DasBeta.

(** C2. For every seed, slot count and user count, [simulate_pf] returns
    what [simulate_das] returns for [beta = 0] (written [0] or [0.0]):
    the same result in every field, or the same exception. *)
Theorem pf_is_das_with_beta_zero `{NumpyRandom}
    (beta : Q) (num_slots num_users : Z) (seed : option Z) (w : World) :
  (beta == 0)%Q ->
  DAS.simulate_pf num_slots num_users seed w
  = DAS.simulate_das beta num_slots num_users seed w.
Proof.
  intros Hb. unfold DAS.simulate_pf. apply simulate_das_beta.
  rewrite Hb. reflexivity.
Qed.

Lemma pf_is_das_with_beta_zero_witness :
  (0 == 0)%Q
  /\ DAS.simulate_pf 3 6 (Some 42) (lcg_world 7)
     = DAS.simulate_das 0 3 6 (Some 42) (lcg_world 7).
Proof.
  split; [reflexivity|].
  apply (pf_is_das_with_beta_zero 0 3 6 (Some 42) (lcg_world 7)). reflexivity.
Defined.

(** C5. [simulate_das] is deterministic under seeding: with a seed, what
    it returns (the result in every field, and the generators it leaves
    behind) is a function of the seed, [beta], the slot count and the
    user count alone, whatever the state of the process-wide generators
    at the call. *)
Theorem das_deterministic_under_seed `{NumpyRandom}
    (beta : Q) (num_slots num_users : Z) (seed : Z) (w1 w2 : World) :
  DAS.simulate_das beta num_slots num_users (Some seed) w1
  = DAS.simulate_das beta num_slots num_users (Some seed) w2.
Proof.
  unfold DAS.simulate_das, DAS.run, DAS.setup, bind, seed_all.
  destruct (np_seed seed); reflexivity.
Qed.

(** ** Packets of the delay-aware scheduler *)

Lemma alive_expired_perm (l : list DAS.Packet) :
  DAS.alive l ++ DAS.expired l ≡ₚ l.
Proof.
  unfold DAS.alive, DAS.expired. induction l as [|p l IH]; [reflexivity|].
  rewrite !filter_cons.
  destruct (decide (0 < DAS.remaining_time p)),
           (decide (DAS.remaining_time p <= 0)); try lia.
  - simpl. now rewrite IH.
  - rewrite <- Permutation_middle. now rewrite IH.
Qed.

(** C7. In every slot of [simulate_das] (the one after any [n] completed
    slots) and for every user: the queue length at the end of the slot
    is the queue length at its start, plus the user's arrivals of the
    slot (the growth of its [total_packets] entry), minus 1 if one of its
    packets was transmitted (a delay was recorded for it), minus its
    timeouts of the slot (the growth of its [timeouts] entry). *)
Theorem das_packet_conservation `{NumpyRandom}
    (beta : Q) (n : nat) (num_users : Z) (seed : option Z) (w : World) :
  DAS.seed_accepted seed ->
  exists st w1 st' w2,
    DAS.run beta n num_users seed w = Ok (st, w1)
    /\ DAS.slot beta st w1 = Ok (st', w2)
    /\ forall j u, DAS.users st !! j = Some u ->
         exists u' arrivals transmitted timed_out a d t,
           DAS.users st' !! j = Some u'
           /\ DAS.id u' = DAS.id u
           /\ DAS.total_packets st !! DAS.id u = Some a
           /\ DAS.total_packets st' !! DAS.id u = Some (a + arrivals)
           /\ DAS.delays st !! DAS.id u = Some d
           /\ ((transmitted = 0 /\ DAS.delays st' !! DAS.id u = Some d)
               \/ (transmitted = 1
                   /\ exists x, DAS.delays st' !! DAS.id u = Some (d ++ [x])))
           /\ DAS.timeouts st !! DAS.id u = Some t
           /\ DAS.timeouts st' !! DAS.id u = Some (t + timed_out)
           /\ Z.of_nat (length (DAS.packets u'))
              = Z.of_nat (length (DAS.packets u)) + arrivals - transmitted - timed_out.
Proof.
  intros Hs.
  destruct (das_run_total beta n num_users seed w Hs) as (st & w1 & E & HI).
  destruct (das_slot_spec beta st w1 (inv_wf n st HI))
    as (st' & w2 & Es & (tb & sel & _ & _ & _ & Hpt) & _).
  exists st, w1, st', w2. split; [exact E|]. split; [exact Es|].
  intros j u Hj.
  destruct (Hpt j u Hj) as (u' & Hj' & (Hid & _) & new & a & Hnew & Ha & Ha' & Hcase).
  destruct HI as (_ & Hacc & _).
  destruct (Hacc u) as (a0 & t & d & _ & Ht & Hd & _);
    [now apply list_elem_of_lookup_2 in Hj|].
  assert (Hq : length (map DAS.age (DAS.packets u ++ new))
               = (length (DAS.packets u) + length new)%nat)
    by now rewrite length_map, length_app.
  cbv zeta in Hcase.
  destruct Hcase as [(_ & packet & rest & d0 & t0 & Hqe & Hp' & Hd0 & Hd' & _ & Ht0 & Ht')
                    |(_ & Hp' & Hd' & t0 & Ht0 & Ht')].
  - assert (d0 = d) as -> by congruence. assert (t0 = t) as -> by congruence.
    exists u', (Z.of_nat (length new)), 1, (Z.of_nat (length (DAS.expired rest))), a, d, t.
    repeat split; auto; [right; eauto|].
    rewrite Hqe in Hq. simpl in Hq. rewrite Hp'.
    pose proof (alive_expired_length rest). lia.
  - assert (t0 = t) as -> by congruence.
    exists u', (Z.of_nat (length new)), 0,
      (Z.of_nat (length (DAS.expired (map DAS.age (DAS.packets u ++ new))))), a, d, t.
    repeat split; auto; [left; split; congruence|].
    rewrite Hp'.
    pose proof (alive_expired_length (map DAS.age (DAS.packets u ++ new))). lia.
Qed.

Lemma das_packet_conservation_witness :
  DAS.seed_accepted (Some 42)
  /\ exists st w1 st' w2,
       DAS.run 0.7 2 6 (Some 42) (lcg_world 7) = Ok (st, w1)
       /\ DAS.slot 0.7 st w1 = Ok (st', w2).
Proof.
  assert (Hs : DAS.seed_accepted (Some 42)) by (simpl; eauto).
  split; [exact Hs|].
  destruct (das_packet_conservation 0.7 2 6 (Some 42) (lcg_world 7) Hs)
    as (st & w1 & st' & w2 & E & Es & _).
  exists st, w1, st', w2. split; [exact E|exact Es].
Defined.

(** ** Concrete runs, on the linear congruential generator *)

Example max_by_first_maximum :
  max_by (fun q : Q => q) [1; 3; 3; 2]%Q = Some (1%nat, 3%Q).
Proof. reflexivity. Qed.

Example last50_short : last50 [1; 2; 3] = [1; 2; 3].
Proof. reflexivity. Qed.

Example last50_long : last50 (seq 0 200) = seq 150 50.
Proof. reflexivity. Qed.

Example sort_desc_is_stable :
  map FRAG.id
    (FRAG.sort_desc
       [FRAG.mkUser 0 FRAG.URLLC 5 3 10.0 0 2; FRAG.mkUser 1 FRAG.URLLC 5 3 10.0 0 3;
        FRAG.mkUser 2 FRAG.URLLC 5 3 10.0 0 2; FRAG.mkUser 3 FRAG.URLLC 5 3 10.0 0 3])
  = [1; 3; 0; 2]%nat.
Proof. reflexivity. Qed.

(** A demand of 60 takes the 50 units of fragment 0 and 10 of fragment 1,
    in either mode. *)
Example allocate_spills_over :
  FRAG.allocate true [FRAG.mkUser 0 FRAG.eMBB 60 10 5.0 0 0] FRAG.fragments
  = ([FRAG.mkUser 0 FRAG.eMBB 60 10 5.0 60 0],
     [FRAG.mkFragment 0 0 3500; FRAG.mkFragment 1 30 3600;
      FRAG.mkFragment 2 30 3800; FRAG.mkFragment 3 35 2600])
  /\ FRAG.allocate false [FRAG.mkUser 0 FRAG.eMBB 60 10 5.0 0 0] FRAG.fragments
     = FRAG.allocate true [FRAG.mkUser 0 FRAG.eMBB 60 10 5.0 0 0] FRAG.fragments.
Proof. split; reflexivity. Qed.

Example frag_three_slots :
  match FRAG.simulate_fragmentation_aware true 3 (lcg_world 7) with
  | Ok (r, _) => FRAG.throughput_history r = [141; 155; 145]
  | Raise _ => False
  end.
Proof. vm_compute. reflexivity. Qed.

Example csi_without_users_raises :
  CSI.simulate_csi_smoothing 0.2 2 0 (lcg_world 7) = Raise ValueError.
Proof. reflexivity. Qed.

Example das_rejected_seed_raises :
  DAS.simulate_das 0.7 12 6 (Some (-1)) (lcg_world 7) = Raise ValueError.
Proof. reflexivity. Qed.

(** A single URLLC user whose only packet has one slot left: the slot ages
    it to [0], transmits it with the delay [5 = pdb], and the sweep counts
    no timeout. *)
Example das_expired_head_is_transmitted :
  let u := DAS.mkUser 0 DAS.URLLC 10 10 [DAS.mkPacket 1 2] 5 in
  let st := DAS.mkState [u] {[0%nat := 0]} {[0%nat := 1]} {[0%nat := []]} [] in
  match DAS.slot 1 st (lcg_world 7) with
  | Ok (st', _) =>
      DAS.delays st' !! 0%nat = Some [5]
      /\ DAS.timeouts st' !! 0%nat = Some 0
      /\ map DAS.packets (DAS.users st') = [[]]
      /\ length (DAS.st_throughput_history st') = 1%nat
  | Raise _ => False
  end.
Proof. vm_compute. repeat split. Qed.

(** * Further properties of the code *)

(** ** The sort of the users and the clusters of the fragments *)

Lemma Qltb_false (a b : Q) : Qltb a b = false <-> (b <= a)%Q.
Proof.
  unfold Qltb. rewrite negb_false_iff. apply Qle_bool_iff.
Qed.

Lemma Qltb_true (a b : Q) : Qltb a b = true <-> (a < b)%Q.
Proof.
  unfold Qltb. rewrite negb_true_iff. split.
  - intros E. apply Qnot_le_lt. intros Hle. apply Qle_bool_iff in Hle. congruence.
  - intros Hlt. destruct (Qle_bool b a) eqn:E; [|reflexivity].
    apply Qle_bool_iff in E. exfalso. now apply (Qlt_not_le _ _ Hlt).
Qed.

Section SortAndClusters.
Import FRAG.

Lemma insert_desc_perm (x : User) (l : list User) : insert_desc x l ≡ₚ x :: l.
Proof.
  induction l as [|y l IH]; simpl; [reflexivity|].
  destruct (Qltb (score x) (score y)); [|reflexivity].
  rewrite IH. apply Permutation_swap.
Qed.

Lemma sort_desc_perm (l : list User) : sort_desc l ≡ₚ l.
Proof.
  unfold sort_desc. induction l as [|x l IH]; simpl; [reflexivity|].
  now rewrite insert_desc_perm, IH.
Qed.

Lemma insert_desc_sorted (x : User) (l : list User) :
  StronglySorted by_score_desc l -> StronglySorted by_score_desc (insert_desc x l).
Proof.
  induction 1 as [|y l Hl IH Hy]; simpl.
  - repeat constructor.
  - destruct (Qltb (score x) (score y)) eqn:E.
    + constructor; [exact IH|].
      rewrite insert_desc_perm. constructor; [|exact Hy].
      apply Qltb_true in E. unfold by_score_desc. now apply Qlt_le_weak.
    + apply Qltb_false in E. constructor; [now constructor|].
      constructor; [exact E|].
      apply Forall_impl with (P := by_score_desc y); [exact Hy|].
      intros z Hz. unfold by_score_desc in *. now apply Qle_trans with (score y).
Qed.

Lemma sort_desc_sorted (l : list User) : StronglySorted by_score_desc (sort_desc l).
Proof.
  unfold sort_desc. induction l as [|x l IH]; simpl; [constructor|].
  now apply insert_desc_sorted.
Qed.

Lemma sort_desc_fixed (l : list User) :
  StronglySorted by_score_desc l -> sort_desc l = l.
Proof.
  unfold sort_desc. induction 1 as [|x l Hl IH Hx]; simpl; [reflexivity|].
  rewrite IH. destruct l as [|y l]; [reflexivity|]. simpl.
  apply Forall_cons in Hx as [Hy _]. apply Qltb_false in Hy. now rewrite Hy.
Qed.

Lemma add_to_cluster_spec (h : Store) (frag : nat) (cs cs' : list (list nat)) :
  add_to_cluster h frag cs = Some cs' ->
  Forall (fun c => c <> []) cs -> Forall (linked h) cs ->
  concat cs' ≡ₚ concat cs ++ [frag]
  /\ Forall (fun c => c <> []) cs' /\ Forall (linked h) cs'.
Proof.
  revert cs'. induction cs as [|c cs IH]; intros cs' E Hne Hl; simpl in E; [discriminate|].
  apply Forall_cons in Hne as [Hc Hne]. apply Forall_cons in Hl as [Hlc Hl].
  destruct (existsb (near h frag) c) eqn:Ex.
  - injection E as <-. split; [|split].
    + simpl. rewrite <- !app_assoc. apply Permutation_app_head, Permutation_app_comm.
    + constructor; [|exact Hne]. now destruct c.
    + constructor; [|exact Hl].
      intros i x Hi Hpos. destruct (decide (i < length c)%nat) as [Hlt|Hge].
      * rewrite lookup_app_l in Hi by exact Hlt.
        destruct (Hlc i x Hi Hpos) as (j & y & Hj & Hy & Hn).
        exists j, y. repeat split; auto. rewrite lookup_app_l by lia. exact Hy.
      * apply lookup_lt_Some in Hi as Hlen. rewrite length_app in Hlen. simpl in Hlen.
        assert (i = length c) as -> by lia.
        rewrite list_lookup_middle in Hi by reflexivity. injection Hi as <-.
        apply existsb_exists in Ex as (y & Hy & Hn).
        apply list_elem_of_In, list_elem_of_lookup in Hy as [j Hj].
        exists j, y. split; [now apply lookup_lt_Some in Hj|].
        split; [|exact Hn]. rewrite lookup_app_l; [exact Hj|].
        now apply lookup_lt_Some in Hj.
  - destruct (add_to_cluster h frag cs) as [cs1|] eqn:E1; [|discriminate].
    simpl in E. injection E as <-.
    destruct (IH cs1 eq_refl Hne Hl) as (Hp & Hne1 & Hl1).
    split; [|split]; [|now constructor|now constructor].
    simpl. rewrite Hp. now rewrite app_assoc.
Qed.

Lemma cluster_step_spec (h : Store) (frag : nat) (cs : list (list nat)) :
  Forall (fun c => c <> []) cs -> Forall (linked h) cs ->
  concat (cluster_step h cs frag) ≡ₚ concat cs ++ [frag]
  /\ Forall (fun c => c <> []) (cluster_step h cs frag)
  /\ Forall (linked h) (cluster_step h cs frag).
Proof.
  intros Hne Hl. unfold cluster_step.
  destruct (add_to_cluster h frag cs) as [cs'|] eqn:E.
  - now apply (add_to_cluster_spec h frag cs).
  - split; [|split].
    + rewrite concat_app. simpl. reflexivity.
    + apply Forall_app. split; [exact Hne|]. now repeat constructor.
    + apply Forall_app. split; [exact Hl|]. constructor; [|constructor].
      intros [|i] x Hi Hpos; [lia|]. simpl in Hi. discriminate.
Qed.

End SortAndClusters.

(** X1. [users.sort(key=score, reverse=True)] as embedded: the sorted
    list is a rearrangement of the users, no score grows along it, and a
    list already in that order is left as it is (ties keep their
    order). *)
Theorem frag_sort_is_a_stable_descending_sort (l : list FRAG.User) :
  FRAG.sort_desc l ≡ₚ l
  /\ StronglySorted by_score_desc (FRAG.sort_desc l)
  /\ (StronglySorted by_score_desc l -> FRAG.sort_desc l = l).
Proof.
  split; [apply sort_desc_perm|]. split; [apply sort_desc_sorted|apply sort_desc_fixed].
Qed.

(** X2. The clustering of lines 248-257, for every fragment list and not
    only the four fragments of the file: every fragment is in exactly
    one cluster, no cluster is empty, and every member of a cluster but
    its first is closer than 150 to a member before it. *)
Theorem frag_clusters_partition_the_fragments (h : list FRAG.Fragment) :
  concat (FRAG.make_clusters h) ≡ₚ FRAG.fragment_refs h
  /\ Forall (fun c => c <> []) (FRAG.make_clusters h)
  /\ Forall (linked h) (FRAG.make_clusters h).
Proof.
  unfold FRAG.make_clusters.
  assert (G : forall refs cs,
             Forall (fun c => c <> []) cs -> Forall (linked h) cs ->
             concat (fold_left (FRAG.cluster_step h) refs cs) ≡ₚ concat cs ++ refs
             /\ Forall (fun c => c <> []) (fold_left (FRAG.cluster_step h) refs cs)
             /\ Forall (linked h) (fold_left (FRAG.cluster_step h) refs cs)).
  { induction refs as [|r refs IH]; intros cs Hne Hl; simpl.
    - rewrite app_nil_r. auto.
    - destruct (cluster_step_spec h r cs Hne Hl) as (Hp & Hne1 & Hl1).
      destruct (IH _ Hne1 Hl1) as (Hp2 & Hne2 & Hl2).
      split; [|auto]. rewrite Hp2, Hp. now rewrite <- app_assoc. }
  apply (G (FRAG.fragment_refs h) []); constructor.
Qed.

(** ** The allocation as the filling of one pool *)

Section PoolFacts.
Import FRAG.

Lemma total_capacity_nonneg (h : Store) : nonneg_store h -> 0 <= total_capacity h.
Proof. unfold total_capacity, Zsum. induction 1; simpl; lia. Qed.

Lemma total_capacity_zero (h : Store) :
  (forall i, (i < length h)%nat -> capacity (h !!! i) = 0) -> total_capacity h = 0.
Proof.
  unfold total_capacity, Zsum. induction h as [|f h IH]; intros Hz; [reflexivity|].
  simpl. rewrite IH.
  - specialize (Hz 0%nat ltac:(simpl; lia)). simpl in Hz. lia.
  - intros i Hi. apply (Hz (Datatypes.S i)). simpl. lia.
Qed.

Lemma alter_capacity_le (h : Store) (frag : nat) (c : Z) (i : nat) :
  c <= capacity (h !!! frag) ->
  capacity (alter (set_capacity c) frag h !!! i) <= capacity (h !!! i).
Proof.
  intros Hc. rewrite list_lookup_total_alter.
  destruct (decide (frag = i /\ (frag < length h)%nat)) as [[-> _]|_]; simpl; lia.
Qed.

(** The loop over fragment references ends with the demand met, or with
    every fragment it visited empty. *)
Lemma alloc_frags_progress (refs : list nat) (alloc remaining : Z) (h : Store) :
  nonneg_store h -> 0 <= remaining ->
  let '(alloc', remaining', h') := alloc_frags refs (alloc, remaining, h) in
  alloc' - alloc = remaining - remaining'
  /\ 0 <= remaining'
  /\ (forall i, capacity (h' !!! i) <= capacity (h !!! i))
  /\ (0 < remaining' -> forall r, r ∈ refs -> capacity (h' !!! r) = 0).
Proof.
  revert alloc remaining h.
  induction refs as [|frag rest IH]; intros alloc remaining h Hh Hr; simpl.
  - repeat split; try lia. intros _ r Hin. now apply elem_of_nil in Hin.
  - destruct (remaining <=? 0) eqn:E.
    + apply Z.leb_le in E. repeat split; try lia.
    + apply Z.leb_gt in E.
      pose proof (lookup_total_nonneg h frag Hh) as Hcap.
      set (a := Z.min remaining (capacity (h !!! frag))).
      assert (Ha : 0 <= a <= capacity (h !!! frag) /\ a <= remaining) by (unfold a; lia).
      set (h1 := alter (set_capacity (capacity (h !!! frag) - a)) frag h).
      assert (Hh1 : nonneg_store h1) by (apply nonneg_alter; [lia|exact Hh]).
      pose proof (alloc_frags_inv rest (alloc + a) (remaining - a) h1 Hh1) as Hinv.
      specialize (IH (alloc + a) (remaining - a) h1 Hh1 ltac:(lia)).
      destruct (alloc_frags rest (alloc + a, remaining - a, h1))
        as [[alloc' remaining'] h'].
      destruct IH as (Hd & Hr' & Hmono & Hzero).
      destruct Hinv as (_ & _ & Hh' & Hle).
      assert (Hm1 : forall i, capacity (h1 !!! i) <= capacity (h !!! i))
        by (intros i; apply alter_capacity_le; lia).
      repeat split; try lia.
      * intros i. specialize (Hmono i). specialize (Hm1 i). lia.
      * intros Hpos r Hin. apply elem_of_cons in Hin as [->|Hin]; [|now apply Hzero].
        pose proof (lookup_total_nonneg h' frag Hh') as H0.
        specialize (Hmono frag).
        assert (Hz : capacity (h1 !!! frag) = 0).
        { unfold h1. destruct (decide (frag < length h)%nat) as [Hlt|Hge].
          - rewrite list_lookup_total_alter_eq by exact Hlt. simpl. unfold a. lia.
          - rewrite alter_beyond by lia. apply lookup_total_beyond. lia. }
        lia.
Qed.

Lemma serve_user_pool (clusters : list (list nat)) (u : User) (h : Store) :
  nonneg_store h ->
  let '(u', h') := serve_user false clusters u h in
  let a := Z.max 0 (Z.min (demand u - allocated u) (total_capacity h)) in
  u' = set_allocated (allocated u + a) u
  /\ total_capacity h' = total_capacity h - a
  /\ nonneg_store h'.
Proof.
  intros Hh. unfold serve_user.
  pose proof (total_capacity_nonneg h Hh) as Htc.
  destruct (decide (demand u - allocated u < 0)) as [Hneg|Hpos].
  - rewrite alloc_frags_done by lia. cbv zeta.
    replace (Z.max 0 (Z.min (demand u - allocated u) (total_capacity h))) with 0 by lia.
    rewrite Z.add_0_r, Z.sub_0_r. auto.
  - pose proof (alloc_frags_inv (fragment_refs h) (allocated u)
                  (demand u - allocated u) h Hh) as Hinv.
    pose proof (alloc_frags_progress (fragment_refs h) (allocated u)
                  (demand u - allocated u) h Hh ltac:(lia)) as Hpr.
    destruct (alloc_frags (fragment_refs h) (allocated u, demand u - allocated u, h))
      as [[alloc' remaining'] h'].
    destruct Hinv as (Hs & Hc & Hh' & _). destruct Hpr as (Hd & Hr' & _ & Hzero).
    pose proof (total_capacity_nonneg h' Hh') as Htc'.
    cbv zeta.
    assert (Ha : alloc' = allocated u
                          + Z.max 0 (Z.min (demand u - allocated u) (total_capacity h))).
    { destruct (decide (0 < remaining')) as [Hrem|Hrem]; [|lia].
      assert (Hz : total_capacity h' = 0).
      { apply total_capacity_zero. intros i Hi. apply Hzero; [exact Hrem|].
        unfold fragment_refs. apply list_elem_of_In, in_seq.
        rewrite <- (shape_length _ _ Hs). lia. }
      lia. }
    repeat split; [now rewrite Ha|lia|exact Hh'].
Qed.

Lemma serve_users_pool (clusters : list (list nat)) (us : list User) (h : Store) :
  nonneg_store h ->
  Forall (fun u => allocated u = 0) us ->
  let '(us', h') := serve_users false clusters us h in
  map allocated us' = pool_fill (map demand us) (total_capacity h)
  /\ Forall2 (fun u u' => u' = set_allocated (allocated u') u) us us'
  /\ total_capacity h' = total_capacity h - total_allocated us'.
Proof.
  intros Hh Hz. revert h Hh.
  induction Hz as [|u rest Hu Hz IH]; intros h Hh; simpl.
  - repeat split; [constructor|unfold total_allocated; simpl; lia].
  - pose proof (serve_user_pool clusters u h Hh) as H1.
    destruct (serve_user false clusters u h) as [u' h1].
    cbv zeta in H1. destruct H1 as (Eu & Hc1 & Hh1).
    specialize (IH h1 Hh1).
    destruct (serve_users false clusters rest h1) as [rest' h2].
    destruct IH as (Em & HF & Hc2).
    rewrite Hu, Z.sub_0_r in Eu, Hc1. rewrite Z.add_0_l in Eu.
    split; [|split].
    + simpl. rewrite Em, Hc1. now rewrite Eu.
    + constructor; [|exact HF]. now rewrite Eu.
    + unfold total_allocated, Zsum in *. simpl. rewrite Hc2, Hc1.
      rewrite Eu. simpl. lia.
Qed.

Lemma Zsum_max_nonneg (ds : list Z) : 0 <= Zsum (map (Z.max 0) ds).
Proof.
  unfold Zsum. induction ds as [|a ds IH]; [simpl; lia|].
  change (0 <= Z.max 0 a + foldr Z.add 0 (map (Z.max 0) ds)).
  revert IH. generalize (foldr Z.add 0 (map (Z.max 0) ds)). intros s Hs. lia.
Qed.

Lemma pool_fill_sum (ds : list Z) (c : Z) :
  0 <= c -> Zsum (pool_fill ds c) = Z.min (Zsum (map (Z.max 0) ds)) c.
Proof.
  unfold Zsum. revert c. induction ds as [|d ds IH]; intros c Hc; [simpl; lia|].
  change (Z.max 0 (Z.min d c) + foldr Z.add 0 (pool_fill ds (c - Z.max 0 (Z.min d c)))
          = Z.min (Z.max 0 d + foldr Z.add 0 (map (Z.max 0) ds)) c).
  rewrite IH by lia.
  pose proof (Zsum_max_nonneg ds) as Hs. unfold Zsum in Hs.
  revert Hs. generalize (foldr Z.add 0 (map (Z.max 0) ds)). intros s Hs. lia.
Qed.

End PoolFacts.

(** X3. The nested loops over users and fragments allocate as if the
    spectrum were one pool: served in sorted order, a user (with nothing
    allocated yet, as line 236 leaves it) gets its demand, or whatever is
    left of the total capacity. So a slot allocates the smaller of the
    total demand and the total capacity, whatever the fragment sizes: on
    any store without the clustering, and on the four fragments of the
    file (155 units) in both modes. *)
Theorem frag_allocation_fills_one_pool (us : list FRAG.User) :
  Forall (fun u => FRAG.allocated u = 0) us ->
  (forall h, FRAG.nonneg_store h ->
     let '(us', h') := FRAG.allocate false us h in
     map FRAG.allocated us' = pool_fill (map FRAG.demand us) (FRAG.total_capacity h)
     /\ Forall2 (fun u u' => u' = FRAG.set_allocated (FRAG.allocated u') u) us us'
     /\ FRAG.total_allocated us'
        = Z.min (Zsum (map (fun u => Z.max 0 (FRAG.demand u)) us)) (FRAG.total_capacity h)
     /\ FRAG.total_capacity h' = FRAG.total_capacity h - FRAG.total_allocated us')
  /\ (forall clustering_enabled,
        let '(us', h') := FRAG.allocate clustering_enabled us FRAG.fragments in
        map FRAG.allocated us' = pool_fill (map FRAG.demand us) 155
        /\ FRAG.total_allocated us'
           = Z.min (Zsum (map (fun u => Z.max 0 (FRAG.demand u)) us)) 155).
Proof.
  intros Hz.
  assert (G : forall h, FRAG.nonneg_store h ->
     let '(us', h') := FRAG.allocate false us h in
     map FRAG.allocated us' = pool_fill (map FRAG.demand us) (FRAG.total_capacity h)
     /\ Forall2 (fun u u' => u' = FRAG.set_allocated (FRAG.allocated u') u) us us'
     /\ FRAG.total_allocated us'
        = Z.min (Zsum (map (fun u => Z.max 0 (FRAG.demand u)) us)) (FRAG.total_capacity h)
     /\ FRAG.total_capacity h' = FRAG.total_capacity h - FRAG.total_allocated us').
  { intros h Hh. unfold FRAG.allocate.
    pose proof (serve_users_pool [] us h Hh Hz) as Hp.
    destruct (FRAG.serve_users false [] us h) as [us' h'].
    destruct Hp as (Em & HF & Hc). repeat split; auto.
    unfold FRAG.total_allocated. rewrite Em, pool_fill_sum, map_map.
    - reflexivity.
    - now apply total_capacity_nonneg. }
  split; [exact G|].
  intros c. replace (FRAG.allocate c us FRAG.fragments)
    with (FRAG.allocate false us FRAG.fragments)
    by (destruct c; [symmetry; apply allocate_modes|reflexivity]).
  specialize (G FRAG.fragments fragments_nonneg).
  destruct (FRAG.allocate false us FRAG.fragments) as [us' h'].
  destruct G as (Em & _ & Ht & _). split; [exact Em|exact Ht].
Qed.

Lemma frag_allocation_fills_one_pool_witness :
  Forall (fun u => FRAG.allocated u = 0)
    [FRAG.mkUser 0 FRAG.eMBB 100 10 5.0 0 0; FRAG.mkUser 1 FRAG.eMBB 80 10 5.0 0 0]
  /\ map FRAG.allocated
       (fst (FRAG.allocate true
               [FRAG.mkUser 0 FRAG.eMBB 100 10 5.0 0 0; FRAG.mkUser 1 FRAG.eMBB 80 10 5.0 0 0]
               FRAG.fragments))
     = [100; 55].
Proof.
  assert (Hz : Forall (fun u => FRAG.allocated u = 0)
                 [FRAG.mkUser 0 FRAG.eMBB 100 10 5.0 0 0;
                  FRAG.mkUser 1 FRAG.eMBB 80 10 5.0 0 0])
    by (repeat constructor).
  split; [exact Hz|].
  pose proof (proj2 (frag_allocation_fills_one_pool _ Hz) true) as Hp.
  destruct (FRAG.allocate true _ FRAG.fragments) as [us' h'].
  destruct Hp as [Em _]. exact Em.
Defined.

(** ** The users of a slot, with draws in range *)

Lemma lcg_range_laws : @RangeLaws lcg.
Proof.
  constructor. intros lo hi g Hlt. simpl.
  pose proof (Z.mod_pos_bound g (hi - lo) ltac:(lia)). lia.
Qed.

Lemma score_urllc (d : Z) :
  3 <= d < 6 -> (3 <= 10.0 * (1.0 / inject_Z d) + 1.0 / inject_Z (0 + 1))%Q.
Proof.
  intros Hd. assert (d = 3 \/ d = 4 \/ d = 5) as [->|[->| ->]] by lia;
    vm_compute; discriminate.
Qed.

Lemma score_below (w : Q) (d lo : Z) :
  (0 <= w)%Q -> 0 < lo <= d ->
  (w * (1.0 / inject_Z d) + 1.0 / inject_Z (0 + 1) <= w * (1 / inject_Z lo) + 1)%Q.
Proof.
  intros Hw Hd.
  apply Qplus_le_compat; [|unfold Qle; simpl; lia].
  rewrite !(Qmult_comm w). apply Qmult_le_compat_r; [|exact Hw].
  destruct lo as [|p|p], d as [|q|q]; try lia.
  unfold Qle; simpl. lia.
Qed.

Lemma score_embb_above (d : Z) :
  10 <= d < 20 -> (5 # 4 < 5.0 * (1.0 / inject_Z d) + 1.0 / inject_Z (0 + 1))%Q.
Proof.
  intros Hd. destruct d as [|q|q]; try lia.
  unfold Qlt; simpl. lia.
Qed.

Section SlotUsers.
Context `{RangeLaws}.
Import FRAG.

Lemma set_score_band (u : User) :
  drawn_in_range u ->
  drawn_in_range (set_score u) /\ score_in_band (set_score u).
Proof.
  intros [Ha Hc]. split; [split; [exact Ha|exact Hc]|].
  unfold score_in_band, set_score; cbn [service_type score].
  rewrite Ha. destruct (service_type u); destruct Hc as (_ & Hd & ->).
  - now apply score_urllc.
  - split; [now apply score_embb_above|].
    apply Qle_trans with (5.0 * (1 / inject_Z 10) + 1)%Q;
      [apply score_below; [discriminate|lia]|vm_compute; discriminate].
  - apply Qle_trans with (1.0 * (1 / inject_Z 30) + 1)%Q;
      [apply score_below; [discriminate|lia]|vm_compute; discriminate].
Qed.

Lemma new_user_ranges (i : nat) (w : World) :
  exists u w', new_user i w = Ok (u, w')
               /\ (id u, service_type u) = (i, frag_class i) /\ drawn_in_range u.
Proof.
  unfold new_user, frag_class, randint, bind, draw, ret.
  destruct (i <? 4)%nat; [|destruct (i <? 8)%nat];
    repeat match goal with
           | |- context [np_randint ?a ?b ?g] =>
               pose proof (randint_range a b g ltac:(lia));
               destruct (np_randint a b g); simpl in *
           end;
    (eexists _, _; split; [reflexivity|split; [reflexivity|]]);
    unfold drawn_in_range; simpl; repeat split; lia.
Qed.

Lemma by_score_desc_band (x y : User) :
  score_in_band x -> score_in_band y -> by_score_desc x y ->
  match service_type x, service_type y with
  | eMBB, URLLC | mMTC, URLLC | mMTC, eMBB => False
  | _, _ => True
  end.
Proof.
  unfold score_in_band, by_score_desc.
  destruct (service_type x), (service_type y); try exact (fun _ _ _ => I);
    intros Hx Hy Hle.
  - destruct Hx as [_ Hx]. apply (Qlt_irrefl 3).
    apply Qle_lt_trans with (score y); [exact Hy|].
    apply Qle_lt_trans with (score x); [exact Hle|].
    apply Qle_lt_trans with (3 # 2)%Q; [exact Hx|reflexivity].
  - apply (Qlt_irrefl 3).
    apply Qle_lt_trans with (score y); [exact Hy|].
    apply Qle_lt_trans with (score x); [exact Hle|].
    apply Qle_lt_trans with (31 # 30)%Q; [exact Hx|reflexivity].
  - destruct Hy as [Hy _]. apply (Qlt_irrefl (5 # 4)).
    apply Qlt_le_trans with (score y); [exact Hy|].
    apply Qle_trans with (score x); [exact Hle|].
    apply Qle_trans with (31 # 30)%Q; [exact Hx|discriminate].
Qed.

(** A list sorted by score, with the scores in the bands of the classes,
    is URLLC users, then eMBB users, then mMTC users. *)
Lemma sorted_by_class (l : list User) :
  StronglySorted by_score_desc l -> Forall score_in_band l ->
  exists a b c,
    map service_type l = replicate a URLLC ++ replicate b eMBB ++ replicate c mMTC.
Proof.
  induction 1 as [|x l Hl IH Hx]; intros Hb.
  - now exists 0%nat, 0%nat, 0%nat.
  - apply Forall_cons in Hb as [Hbx Hb].
    destruct (IH Hb) as (a & b & c & E).
    assert (Hhead : forall y l', l = y :: l' ->
              match service_type x, service_type y with
              | eMBB, URLLC | mMTC, URLLC | mMTC, eMBB => False
              | _, _ => True
              end).
    { intros y l' ->. apply Forall_cons in Hb as [Hby _].
      apply Forall_cons in Hx as [Hxy _]. now apply by_score_desc_band. }
    destruct l as [|y l'].
    + destruct (service_type x) eqn:Ex; simpl; rewrite Ex.
      * now exists 1%nat, 0%nat, 0%nat.
      * now exists 0%nat, 1%nat, 0%nat.
      * now exists 0%nat, 0%nat, 1%nat.
    + specialize (Hhead y l' eq_refl). cbn [map] in *. 
      destruct (service_type x) eqn:Ex.
      * exists (Datatypes.S a), b, c. simpl. now rewrite E.
      * destruct a as [|a]; simpl in E.
        -- exists 0%nat, (Datatypes.S b), c. simpl. now rewrite E.
        -- injection E as Ey _. now rewrite Ey in Hhead.
      * destruct a as [|a]; simpl in E; [destruct b as [|b]; simpl in E|].
        -- exists 0%nat, 0%nat, (Datatypes.S c). simpl. now rewrite E.
        -- injection E as Ey _. now rewrite Ey in Hhead.
        -- injection E as Ey _. now rewrite Ey in Hhead.
Qed.

Lemma count_occ_replicate (s t : Service) (n : nat) :
  count_occ frag_service_eq_dec (replicate n s) t
  = if frag_service_eq_dec s t then n else 0%nat.
Proof.
  induction n as [|n IH]; simpl.
  - now destruct (frag_service_eq_dec s t).
  - destruct (frag_service_eq_dec s t); lia.
Qed.

Lemma classes_of_counts (l : list Service) (a b c : nat) :
  l = replicate a URLLC ++ replicate b eMBB ++ replicate c mMTC ->
  l ≡ₚ map frag_class (seq 0 12) ->
  l = map frag_class (seq 0 12).
Proof.
  intros -> Hp.
  pose proof (proj1 (Permutation_count_occ frag_service_eq_dec _ _) Hp) as Hc.
  pose proof (Hc URLLC) as Ha. pose proof (Hc eMBB) as Hb. pose proof (Hc mMTC) as Hm.
  rewrite !count_occ_app, !count_occ_replicate in Ha, Hb, Hm.
  simpl in Ha, Hb, Hm.
  assert (a = 4%nat /\ b = 4%nat /\ c = 4%nat) as (-> & -> & ->) by lia.
  reflexivity.
Qed.

Lemma slot_users_spec (w : World) :
  exists us w',
    slot_users w = Ok (us, w')
    /\ Forall drawn_in_range us
    /\ Forall score_in_band us
    /\ StronglySorted by_score_desc us
    /\ map (fun u => (id u, service_type u)) us
       ≡ₚ map (fun i => (i, frag_class i)) (seq 0 12)
    /\ map service_type us = map frag_class (seq 0 12).
Proof.
  destruct (for_objects_pointwise new_user
              (fun i u => (id u, service_type u) = (i, frag_class i) /\ drawn_in_range u)
              new_user_ranges (seq 0 num_users) w)
    as (us0 & w' & E & Hlen & Hpt).
  exists (sort_desc (map set_score us0)), w'.
  assert (Hr : Forall drawn_in_range us0).
  { apply Forall_lookup. intros j u Hj.
    assert (Hlt : (j < length (seq 0 num_users))%nat)
      by (rewrite <- Hlen; now apply lookup_lt_Some in Hj).
    apply lookup_lt_is_Some in Hlt as [i Hi].
    destruct (Hpt j i Hi) as (u' & Hu' & _ & Hd). congruence. }
  assert (Hm : map (fun u => (id u, service_type u)) (map set_score us0)
               = map (fun i => (i, frag_class i)) (seq 0 12)).
  { rewrite map_map. apply map_pointwise; [exact Hlen|].
    intros j i Hi. destruct (Hpt j i Hi) as (u & Hu & Hc & _). exists u. now split. }
  assert (Hp : map (fun u => (id u, service_type u)) (sort_desc (map set_score us0))
               ≡ₚ map (fun i => (i, frag_class i)) (seq 0 12)).
  { rewrite <- Hm. apply Permutation_map, sort_desc_perm. }
  assert (Hband : Forall score_in_band (sort_desc (map set_score us0))).
  { apply sort_desc_Forall, Forall_map.
    apply Forall_impl with (P := drawn_in_range); [exact Hr|].
    intros u Hu. now apply set_score_band. }
  split; [|split; [|split; [|split; [|split]]]].
  - unfold slot_users, generate_users. now rewrite (bind_ok _ _ _ _ _ E).
  - apply sort_desc_Forall, Forall_map.
    apply Forall_impl with (P := drawn_in_range); [exact Hr|].
    intros u Hu. now apply set_score_band.
  - exact Hband.
  - apply sort_desc_sorted.
  - exact Hp.
  - destruct (sorted_by_class _ (sort_desc_sorted (map set_score us0)) Hband)
      as (a & b & c & Ec).
    apply (classes_of_counts _ a b c Ec).
    apply (Permutation_map snd) in Hp. now rewrite !map_map in Hp.
Qed.

End SlotUsers.

Section UrllcServed.
Import FRAG.

Lemma filter_all {A} (P : A -> Prop) `{forall x, Decision (P x)} (l : list A) :
  Forall P l -> filter P l = l.
Proof.
  induction 1 as [|x l Hx Hl IH]; [reflexivity|].
  rewrite filter_cons, decide_True by exact Hx. now rewrite IH.
Qed.

Lemma compliance_full (us : list User) :
  (forall u, u ∈ us -> service_type u = URLLC -> demand u <= allocated u) ->
  (exists u, u ∈ us /\ service_type u = URLLC) ->
  (urllc_compliance_of us == 100)%Q.
Proof.
  intros Hall (u0 & Hin & Hs). unfold urllc_compliance_of, compliant.
  rewrite filter_all.
  - assert (Hu0 : u0 ∈ urllc_users us).
    { unfold urllc_users. apply list_elem_of_filter. split; [now rewrite Hs|exact Hin]. }
    assert (Hpos : (0 < length (urllc_users us))%nat).
    { destruct (urllc_users us); [now apply elem_of_nil in Hu0|simpl; lia]. }
    rewrite Z.max_l by lia.
    set (n := Z.of_nat (length (urllc_users us))).
    assert (Hn : ~ (inject_Z n == 0)%Q).
    { unfold Qeq; simpl. lia. }
    field. exact Hn.
  - apply Forall_forall. intros u Hu. unfold urllc_users in Hu.
    apply list_elem_of_filter in Hu as [Hsu Hu]. apply Hall; [exact Hu|].
    now destruct (service_type u).
Qed.

Lemma set_allocated_fields (u u' : User) (a : Z) :
  u' = set_allocated a u ->
  service_type u' = service_type u /\ demand u' = demand u /\ allocated u' = a.
Proof. now intros ->. Qed.

(** With the users of a slot in class order and their draws in range,
    the four URLLC users ask for at most 56 of the 155 units and come
    first: every one of them is served in full. *)
Lemma allocate_urllc_served (c : bool) (us : list User) :
  map service_type us = map frag_class (seq 0 12) ->
  Forall drawn_in_range us ->
  (urllc_compliance_of (fst (allocate c us fragments)) == 100)%Q.
Proof.
  intros Hcls Hr.
  replace (allocate c us fragments) with (allocate false us fragments)
    by (destruct c; [symmetry; apply allocate_modes|reflexivity]).
  assert (Hz : Forall (fun u => allocated u = 0) us).
  { apply Forall_impl with (P := drawn_in_range); [exact Hr|]. now intros u [Ha _]. }
  unfold allocate.
  pose proof (serve_users_pool [] us fragments fragments_nonneg Hz) as Hp.
  destruct (serve_users false [] us fragments) as [us' h']. cbn [fst].
  destruct Hp as (Em & HF & _).
  change (total_capacity fragments) with 155 in Em.
  destruct us as [|u1 [|u2 [|u3 [|u4 rest]]]]; try discriminate Hcls.
  cbn [map] in Hcls. injection Hcls as S1 S2 S3 S4 Srest.
  apply Forall_cons in Hr as [[_ R1] Hr]. apply Forall_cons in Hr as [[_ R2] Hr].
  apply Forall_cons in Hr as [[_ R3] Hr]. apply Forall_cons in Hr as [[_ R4] _].
  rewrite S1 in R1. rewrite S2 in R2. rewrite S3 in R3. rewrite S4 in R4.
  cbv [frag_class Nat.ltb Nat.leb] in R1, R2, R3, R4.
  destruct R1 as (R1 & _), R2 as (R2 & _), R3 as (R3 & _), R4 as (R4 & _).
  apply Forall2_cons_inv_l in HF as (u1' & k1 & E1 & HF & ->).
  apply Forall2_cons_inv_l in HF as (u2' & k2 & E2 & HF & ->).
  apply Forall2_cons_inv_l in HF as (u3' & k3 & E3 & HF & ->).
  apply Forall2_cons_inv_l in HF as (u4' & rest' & E4 & HF & ->).
  apply set_allocated_fields in E1 as (T1 & D1 & _).
  apply set_allocated_fields in E2 as (T2 & D2 & _).
  apply set_allocated_fields in E3 as (T3 & D3 & _).
  apply set_allocated_fields in E4 as (T4 & D4 & _).
  change (allocated u1' :: allocated u2' :: allocated u3' :: allocated u4'
            :: map allocated rest'
          = (let a1 := Z.max 0 (Z.min (demand u1) 155) in
             a1 :: (let a2 := Z.max 0 (Z.min (demand u2) (155 - a1)) in
                    a2 :: (let a3 := Z.max 0 (Z.min (demand u3) (155 - a1 - a2)) in
                           a3 :: (let a4 := Z.max 0 (Z.min (demand u4) (155 - a1 - a2 - a3)) in
                                  a4 :: pool_fill (map demand rest)
                                          (155 - a1 - a2 - a3 - a4))))))
    in Em.
  cbv zeta in Em. injection Em as A1 A2 A3 A4 _.
  apply compliance_full.
  - intros u Hu Hs.
    apply elem_of_cons in Hu as [->|Hu]; [lia|].
    apply elem_of_cons in Hu as [->|Hu]; [lia|].
    apply elem_of_cons in Hu as [->|Hu]; [lia|].
    apply elem_of_cons in Hu as [->|Hu]; [lia|].
    exfalso. apply list_elem_of_lookup in Hu as [j Hj].
    destruct (Forall2_lookup_r _ _ _ _ _ HF Hj) as (v & Hv & Ev).
    apply set_allocated_fields in Ev as (Tv & _).
    assert (Hsv : map service_type rest !! j = Some URLLC)
      by (rewrite list_lookup_fmap, Hv; simpl; congruence).
    rewrite Srest in Hsv.
    do 8 (destruct j as [|j]; [discriminate Hsv|]). discriminate Hsv.
  - exists u1'. split; [left|]. rewrite T1, S1. reflexivity.
Qed.

End UrllcServed.

(** ** Means between bounds *)

Lemma Qsum_between (lo hi : Q) (l : list Q) :
  Forall (fun x => (lo <= x)%Q /\ (x <= hi)%Q) l ->
  (lo * inject_Z (Z.of_nat (length l)) <= Qsum l)%Q
  /\ (Qsum l <= hi * inject_Z (Z.of_nat (length l)))%Q.
Proof.
  unfold Qsum. induction 1 as [|x l [H0 H1] Hl [IH0 IH1]].
  - simpl. split; apply Qle_lteq; right; ring.
  - cbn [foldr length]. rewrite Nat2Z.inj_succ. unfold Z.succ. rewrite inject_Z_plus.
    change (inject_Z 1) with 1%Q. split.
    + apply Qle_trans with (lo + lo * inject_Z (Z.of_nat (length l)))%Q;
        [apply Qle_lteq; right; ring|now apply Qplus_le_compat].
    + apply Qle_trans with (hi + hi * inject_Z (Z.of_nat (length l)))%Q;
        [now apply Qplus_le_compat|apply Qle_lteq; right; ring].
Qed.

(** The mean of a non-empty list of numbers is a number, between any
    bounds of the list. *)
Lemma np_mean_between (lo hi : Q) (l : list Q) :
  l <> [] -> Forall (fun x => (lo <= x)%Q /\ (x <= hi)%Q) l ->
  exists q, np_mean (map Num l) = Num q /\ (lo <= q)%Q /\ (q <= hi)%Q.
Proof.
  intros Hne Hl. unfold np_mean.
  destruct l as [|x l']; [congruence|]. set (l := x :: l') in *.
  change (map Num l) with (Num x :: map Num l') at 1. cbv iota.
  rewrite nf_sum_Num, length_map. eexists. split; [reflexivity|].
  destruct (Qsum_between lo hi l Hl) as [H0 H1].
  assert (Hpos : (0 < inject_Z (Z.of_nat (length l)))%Q).
  { unfold Qlt; simpl. lia. }
  split.
  - apply Qle_shift_div_l; [exact Hpos|exact H0].
  - apply Qle_shift_div_r; [exact Hpos|exact H1].
Qed.

(** ** The fragmentation simulator with draws in range *)

Section FragRanged.
Context `{RangeLaws}.
Import FRAG.

Lemma demand_sum_bounds (us : list User) :
  map service_type us = map frag_class (seq 0 12) ->
  Forall drawn_in_range us ->
  92 <= Zsum (map (fun u => Z.max 0 (demand u)) us) <= 208.
Proof.
  intros Hcls Hr.
  do 12 (destruct us as [|? us]; [discriminate Hcls|]).
  destruct us; [|discriminate Hcls].
  cbn [map] in Hcls.
  injection Hcls as S1 S2 S3 S4 S5 S6 S7 S8 S9 S10 S11 S12.
  repeat match goal with
         | Hf : Forall drawn_in_range (_ :: _) |- _ =>
             apply Forall_cons in Hf as [[_ ?] Hf]
         end.
  repeat match goal with
         | E : service_type ?u = _, R : match service_type ?u with _ => _ end |- _ =>
             rewrite E in R; cbv [frag_class Nat.ltb Nat.leb] in R; destruct R as (R & _)
         end.
  unfold Zsum. cbn [map foldr]. lia.
Qed.

Lemma allocate_total (c : bool) (us : list User) :
  Forall (fun u => allocated u = 0) us ->
  total_allocated (fst (allocate c us fragments))
  = Z.min (Zsum (map (fun u => Z.max 0 (demand u)) us)) 155.
Proof.
  intros Hz.
  replace (allocate c us fragments) with (allocate false us fragments)
    by (destruct c; [symmetry; apply allocate_modes|reflexivity]).
  unfold allocate.
  pose proof (serve_users_pool [] us fragments fragments_nonneg Hz) as Hp.
  destruct (serve_users false [] us fragments) as [us' h']. cbn [fst].
  destruct Hp as (Em & _ & _).
  unfold total_allocated. rewrite Em, pool_fill_sum, map_map; [reflexivity|].
  apply total_capacity_nonneg, fragments_nonneg.
Qed.

Lemma frag_slot_ranged (c : bool) (k : nat) (st : State) (w : World) :
  frag_ranged_inv k st ->
  exists st' w', slot c st w = Ok (st', w') /\ frag_ranged_inv (Datatypes.S k) st'.
Proof.
  intros (HI & Hc & Ht & Hu).
  destruct (frag_slot_total c k st w HI) as (st' & w' & E & HI').
  destruct (slot_users_spec w) as (us & w2 & Eu & Hr & _ & _ & _ & Hcls).
  assert (Hz : Forall (fun u => allocated u = 0) us).
  { apply Forall_impl with (P := drawn_in_range); [exact Hr|]. now intros u [Ha _]. }
  pose proof (allocate_urllc_served c us Hcls Hr) as Hcomp.
  pose proof (allocate_total c us Hz) as Htot.
  pose proof (demand_sum_bounds us Hcls Hr) as Hsum.
  pose proof E as E0.
  unfold slot in E. rewrite (bind_ok _ _ _ _ _ Eu) in E.
  destruct HI as (Hs & _). rewrite Hs in E.
  destruct (allocate c us fragments) as [us' h]. cbn [fst] in Hcomp, Htot.
  injection E as <- <-.
  eexists _, _. split; [exact E0|].
  split; [exact HI'|]. cbn [urllc_compliance_history st_throughput_history utilization_history].
  split; [|split].
  - apply Forall_app. split; [exact Hc|]. now repeat constructor.
  - apply Forall_app. split; [exact Ht|]. repeat constructor; lia.
  - rewrite Hu, map_app. reflexivity.
Qed.

Lemma frag_run_ranged (c : bool) (n : nat) (w : World) :
  exists st w', run c n w = Ok (st, w') /\ frag_ranged_inv n st.
Proof.
  assert (H0i : frag_ranged_inv 0 init_state).
  { split; [apply frag_init_inv|]. repeat split; constructor. }
  destruct (for_range_total frag_ranged_inv (slot c) (frag_slot_ranged c)
              n 0%nat init_state w H0i) as (st & w' & E & HI).
  exists st, w'. split; [exact E|]. now rewrite Nat.add_0_r in HI.
Qed.

End FragRanged.

(** X4. With the draws in range, the users of a slot (lines 211-244) are
    the twelve users, nothing allocated and demand, deadline and weight
    as their class draws them, in an order that the scores alone fix by
    class: the four URLLC users first, then the four eMBB users, then the
    four mMTC users. *)
Theorem frag_slot_users_in_class_order `{RangeLaws} (w : World) :
  exists us w',
    FRAG.slot_users w = Ok (us, w')
    /\ map FRAG.service_type us
       = [FRAG.URLLC; FRAG.URLLC; FRAG.URLLC; FRAG.URLLC;
          FRAG.eMBB; FRAG.eMBB; FRAG.eMBB; FRAG.eMBB;
          FRAG.mMTC; FRAG.mMTC; FRAG.mMTC; FRAG.mMTC]
    /\ map (fun u => (FRAG.id u, FRAG.service_type u)) us
       ≡ₚ map (fun i => (i, frag_class i)) (seq 0 12)
    /\ Forall drawn_in_range us
    /\ StronglySorted by_score_desc us.
Proof.
  destruct (slot_users_spec w) as (us & w' & E & Hr & _ & Hs & Hp & Hc).
  exists us, w'. repeat split; auto.
Qed.

Lemma frag_slot_users_in_class_order_witness :
  @RangeLaws lcg
  /\ exists us w',
       FRAG.slot_users (lcg_world 7) = Ok (us, w')
       /\ StronglySorted by_score_desc us.
Proof.
  split; [exact lcg_range_laws|].
  destruct (@frag_slot_users_in_class_order lcg lcg_range_laws (lcg_world 7))
    as (us & w' & E & _ & _ & _ & Hs).
  exists us, w'. split; [exact E|exact Hs].
Defined.

(** X5. With the draws in range, every URLLC user is served in full in
    every slot, in both modes: the four of them come first and ask for at
    most 56 of the 155 units. So every sample of the URLLC compliance is
    100 and, with at least one slot, so is the returned
    [urllc_compliance]. *)
Theorem frag_urllc_always_compliant `{RangeLaws}
    (clustering_enabled : bool) (num_slots : Z) (w : World) :
  exists st w',
    FRAG.run clustering_enabled (Z.to_nat num_slots) w = Ok (st, w')
    /\ Forall (fun q => (q == 100)%Q) (FRAG.urllc_compliance_history st)
    /\ FRAG.simulate_fragmentation_aware clustering_enabled num_slots w
       = Ok (FRAG.result st, w')
    /\ (0 < num_slots ->
        exists q, FRAG.urllc_compliance (FRAG.result st) = Num q /\ (q == 100)%Q).
Proof.
  destruct (frag_run_ranged clustering_enabled (Z.to_nat num_slots) w)
    as (st & w' & E & HI & Hc & _).
  exists st, w'. split; [exact E|]. split; [exact Hc|]. split.
  - unfold FRAG.simulate_fragmentation_aware. now rewrite (bind_ok _ _ _ _ _ E).
  - intros Hn. cbn [FRAG.result FRAG.urllc_compliance].
    destruct (np_mean_between 100 100 (FRAG.urllc_compliance_history st))
      as (q & Eq & Hlo & Hhi).
    + destruct HI as (_ & _ & _ & Hl & _). intros E0. rewrite E0 in Hl. simpl in Hl. lia.
    + apply Forall_impl with (P := fun q => (q == 100)%Q); [exact Hc|].
      intros q Hq. rewrite Hq. split; apply Qle_refl.
    + exists q. split; [exact Eq|]. now apply Qle_antisym.
Qed.

Lemma frag_urllc_always_compliant_witness :
  @RangeLaws lcg
  /\ exists st w',
       FRAG.run true 3 (lcg_world 7) = Ok (st, w')
       /\ Forall (fun q => (q == 100)%Q) (FRAG.urllc_compliance_history st).
Proof.
  split; [exact lcg_range_laws|].
  destruct (@frag_urllc_always_compliant lcg lcg_range_laws true 3 (lcg_world 7))
    as (st & w' & E & Hc & _).
  exists st, w'. split; [exact E|exact Hc].
Defined.

(** X6. With the draws in range, every slot allocates the smaller of the
    total demand and 155, which is between 92 and 155 units; the returned
    utilization history is the returned throughput history over 155, in
    percent; and with at least one slot the returned averages are numbers
    within those bounds. *)
Theorem frag_throughput_between_92_and_155 `{RangeLaws}
    (clustering_enabled : bool) (num_slots : Z) (w : World) :
  exists r w',
    FRAG.simulate_fragmentation_aware clustering_enabled num_slots w = Ok (r, w')
    /\ Forall (fun t => 92 <= t <= 155) (FRAG.throughput_history r)
    /\ FRAG.util_history r
       = map (fun t => (inject_Z t / inject_Z 155 * 100.0)%Q) (FRAG.throughput_history r)
    /\ (0 < num_slots ->
        exists q, FRAG.avg_throughput r = Num q /\ (92 <= q)%Q /\ (q <= 155)%Q).
Proof.
  destruct (frag_run_ranged clustering_enabled (Z.to_nat num_slots) w)
    as (st & w' & E & HI & _ & Ht & Hu).
  exists (FRAG.result st), w'. split; [|split; [|split]].
  - unfold FRAG.simulate_fragmentation_aware. now rewrite (bind_ok _ _ _ _ _ E).
  - cbn [FRAG.result FRAG.throughput_history]. unfold last50. now apply Forall_drop.
  - cbn [FRAG.result FRAG.throughput_history FRAG.util_history]. unfold last50.
    rewrite Hu, length_map. symmetry. apply fmap_drop.
  - intros Hn. cbn [FRAG.result FRAG.avg_throughput].
    rewrite <- (map_map inject_Z Num).
    apply np_mean_between.
    + destruct HI as (_ & _ & Hl & _). intros E0.
      apply (f_equal length) in E0. rewrite length_map, Hl in E0. simpl in E0. lia.
    + apply Forall_map. apply Forall_impl with (P := fun t => 92 <= t <= 155); [exact Ht|].
      intros t [Hlo Hhi]. split; unfold Qle; simpl; lia.
Qed.

Lemma frag_throughput_between_92_and_155_witness :
  @RangeLaws lcg
  /\ exists r w',
       FRAG.simulate_fragmentation_aware false 3 (lcg_world 7) = Ok (r, w')
       /\ Forall (fun t => 92 <= t <= 155) (FRAG.throughput_history r).
Proof.
  split; [exact lcg_range_laws|].
  destruct (@frag_throughput_between_92_and_155 lcg lcg_range_laws false 3 (lcg_world 7))
    as (r & w' & E & Ht & _).
  exists r, w'. split; [exact E|exact Ht].
Defined.

(** ** [max] with a key: the first maximum *)

Lemma max_from_first_maximum {A} (key : A -> Q) (l0 l : list A) (best : nat * A) :
  first_maximum key l0 (fst best) (snd best) ->
  let r := max_from key best (length l0) l in
  first_maximum key (l0 ++ l) (fst r) (snd r).
Proof.
  revert l0 best. induction l as [|x l IH]; intros l0 best Hb; simpl.
  - now rewrite app_nil_r.
  - specialize (IH (l0 ++ [x])
                  (if Qltb (key (snd best)) (key x) then (length l0, x) else best)).
    rewrite length_app, <- app_assoc in IH. simpl in IH.
    replace (length l0 + 1)%nat with (Datatypes.S (length l0)) in IH by lia.
    apply IH. clear IH. destruct Hb as [Hl Hmax].
    destruct (Qltb (key (snd best)) (key x)) eqn:E; simpl.
    + apply Qltb_true in E. split; [now apply list_lookup_middle|].
      intros j y Hj. destruct (decide (j < length l0)%nat) as [Hlt|Hge].
      * rewrite lookup_app_l in Hj by exact Hlt.
        destruct (Hmax j y Hj) as [Hle _].
        split; [apply Qlt_le_weak|intros _]; now apply Qle_lt_trans with (key (snd best)).
      * apply lookup_lt_Some in Hj as Hlen. rewrite length_app in Hlen. simpl in Hlen.
        assert (j = length l0) as -> by lia.
        rewrite list_lookup_middle in Hj by reflexivity. injection Hj as <-.
        split; [apply Qle_refl|lia].
    + apply Qltb_false in E.
      assert (Hlt0 : (fst best < length l0)%nat) by now apply lookup_lt_Some in Hl.
      split; [rewrite lookup_app_l by exact Hlt0; exact Hl|].
      intros j y Hj. destruct (decide (j < length l0)%nat) as [Hlt|Hge].
      * rewrite lookup_app_l in Hj by exact Hlt. now apply Hmax.
      * apply lookup_lt_Some in Hj as Hlen. rewrite length_app in Hlen. simpl in Hlen.
        assert (j = length l0) as -> by lia.
        rewrite list_lookup_middle in Hj by reflexivity. injection Hj as <-.
        split; [exact E|lia].
Qed.

Lemma max_by_is_first_maximum {A} (key : A -> Q) (l : list A) (i : nat) (x : A) :
  max_by key l = Some (i, x) -> first_maximum key l i x.
Proof.
  destruct l as [|y l]; simpl; [discriminate|].
  intros E. injection E as E.
  pose proof (max_from_first_maximum key [y] l (0%nat, y)) as Hm.
  simpl in Hm. rewrite E in Hm. apply Hm.
  split; [reflexivity|]. intros [|j] z Hj; simpl in Hj; [|discriminate].
  injection Hj as <-. split; [apply Qle_refl|lia].
Qed.

(** ** The CSI scheduler: selection and the floor of the channel quality *)

Lemma pymax_ge_l (a b : Q) : (a <= pymax a b)%Q.
Proof.
  unfold pymax. destruct (Qltb a b) eqn:E; [|apply Qle_refl].
  apply Qltb_true in E. now apply Qlt_le_weak.
Qed.

Lemma convex_floor (alpha r s : Q) :
  (0 <= alpha)%Q -> (alpha <= 1)%Q -> (1 <= r)%Q -> (1 <= s)%Q ->
  (1 <= alpha * r + (1 - alpha) * s)%Q.
Proof.
  intros Ha0 Ha1 Hr Hs. apply Qle_minus_iff.
  apply Qle_minus_iff in Hr, Hs, Ha1.
  assert (E : (alpha * r + (1 - alpha) * s + - (1)
               == alpha * (r + - (1)) + (1 + - alpha) * (s + - (1)))%Q) by ring.
  rewrite E.
  replace 0%Q with (0 + 0)%Q by reflexivity.
  apply Qplus_le_compat; now apply Qmult_le_0_compat.
Qed.

Section CsiSlot.
Context `{NumpyRandom}.
Import CSI.

Lemma update_cqi_step (alpha : Q) (u : User) (w : World) :
  exists u1 w1,
    update_cqi alpha u w = Ok (u1, w1)
    /\ id u1 = id u /\ mobility u1 = mobility u
    /\ (1 <= true_cqi u1)%Q /\ (1 <= reported_cqi u1)%Q
    /\ smoothed_cqi u1 = (alpha * reported_cqi u1 + (1 - alpha) * smoothed_cqi u)%Q
    /\ avg_throughput u1 = avg_throughput u
    /\ successful_tx u1 = successful_tx u
    /\ retransmissions u1 = retransmissions u.
Proof.
  unfold update_cqi, normal, bind, draw, ret.
  destruct (np_normal 0 _ (np_gen w)) as [step g1].
  destruct (is_high (mobility u)); simpl;
    [destruct (np_normal 0 1.5 g1) as [noise g2]
    |destruct (np_normal 0 0.5 g1) as [noise g2]];
    (eexists _, _; split; [reflexivity|]; simpl;
     repeat split; apply pymax_ge_l).
Qed.

Lemma csi_slot_full (alpha : Q) (st : State) (w : World) :
  users st <> [] ->
  exists st' w' i u',
    slot alpha st w = Ok (st', w')
    /\ length (users st') = length (users st)
    /\ (forall j v0, users st !! j = Some v0 ->
          exists v, users st' !! j = Some v /\ csi_user_step alpha i j v0 v)
    /\ first_maximum metric (users st') i u'
    /\ st_spectral_efficiency st'
       = st_spectral_efficiency st
         ++ [np_mean (map (fun u => Num (smoothed_cqi u)) (users st'))].
Proof.
  intros Hne.
  destruct (for_objects_pointwise (update_cqi alpha)
              (fun u u1 =>
                 id u1 = id u /\ mobility u1 = mobility u
                 /\ (1 <= true_cqi u1)%Q /\ (1 <= reported_cqi u1)%Q
                 /\ smoothed_cqi u1
                    = (alpha * reported_cqi u1 + (1 - alpha) * smoothed_cqi u)%Q
                 /\ avg_throughput u1 = avg_throughput u
                 /\ successful_tx u1 = successful_tx u
                 /\ retransmissions u1 = retransmissions u)
              (update_cqi_step alpha) (users st) w)
    as (us1 & w1 & E1 & L1 & P1).
  assert (Hne2 : map set_metric us1 <> []).
  { destruct us1; [|discriminate]. destruct (users st); [congruence|discriminate]. }
  destruct (max_by_nonempty metric _ Hne2) as (i & sel & Em).
  pose proof (max_by_is_first_maximum _ _ _ _ Em) as [Hl Hmax].
  unfold slot. rewrite (bind_ok _ _ _ _ _ E1), Em.
  unfold random, bind, draw, ret.
  destruct (np_random (np_gen w1)) as [x g].
  set (b := Qltb x _). clearbody b.
  set (sel' := if b then on_success sel else on_failure sel).
  assert (Hms : metric sel' = metric sel) by (unfold sel'; now destruct b).
  assert (Hi : (i < length (map set_metric us1))%nat) by now apply lookup_lt_Some in Hl.
  eexists _, _, i, sel'. split; [reflexivity|].
  cbn [users st_spectral_efficiency].
  split; [now rewrite length_insert, length_map|]. split; [|split; [|reflexivity]].
  - intros j v0 Hj.
    destruct (P1 j v0 Hj) as (u1 & Hu1 & Hid & Hmo & Ht & Hrp & Hsm & Hav & Hsu & Hre).
    assert (Hu2 : map set_metric us1 !! j = Some (set_metric u1))
      by now rewrite list_lookup_fmap, Hu1.
    destruct (decide (j = i)) as [->|Hji].
    + assert (sel = set_metric u1) as Es by congruence.
      exists sel'. split; [now apply list_lookup_insert_eq|].
      unfold sel'. rewrite Es.
      destruct b; unfold csi_user_step; simpl;
        rewrite Hid, Hmo, Hav, Hsu, Hre;
        repeat split; auto; try congruence.
    + exists (set_metric u1). split; [now rewrite list_lookup_insert_ne|].
      unfold csi_user_step; simpl. rewrite Hid, Hmo, Hav, Hsu, Hre.
      repeat split; auto; congruence.
  - split; [now apply list_lookup_insert_eq|].
    intros j y Hj. rewrite Hms. destruct (decide (j = i)) as [->|Hji].
    + rewrite list_lookup_insert_eq in Hj by exact Hi. injection Hj as <-.
      rewrite Hms. split; [apply Qle_refl|lia].
    + rewrite list_lookup_insert_ne in Hj by congruence. now apply Hmax.
Qed.

End CsiSlot.

Lemma Qsum_lower (lo : Q) (l : list Q) :
  Forall (fun x => (lo <= x)%Q) l ->
  (lo * inject_Z (Z.of_nat (length l)) <= Qsum l)%Q.
Proof.
  unfold Qsum. induction 1 as [|x l Hx Hl IH].
  - simpl. apply Qle_lteq; right; ring.
  - cbn [foldr length]. rewrite Nat2Z.inj_succ. unfold Z.succ. rewrite inject_Z_plus.
    change (inject_Z 1) with 1%Q.
    apply Qle_trans with (lo + lo * inject_Z (Z.of_nat (length l)))%Q;
      [apply Qle_lteq; right; ring|now apply Qplus_le_compat].
Qed.

Lemma np_mean_lower (lo : Q) (l : list Q) :
  l <> [] -> Forall (fun x => (lo <= x)%Q) l ->
  exists q, np_mean (map Num l) = Num q /\ (lo <= q)%Q.
Proof.
  intros Hne Hl. unfold np_mean.
  destruct l as [|x l']; [congruence|]. set (l := x :: l') in *.
  change (map Num l) with (Num x :: map Num l') at 1. cbv iota.
  rewrite nf_sum_Num, length_map. eexists. split; [reflexivity|].
  apply Qle_shift_div_l; [unfold Qlt; simpl; lia|now apply Qsum_lower].
Qed.

Lemma numbers_of (P : Q -> Prop) (l : list npfloat) :
  Forall (fun x => exists q, x = Num q /\ P q) l ->
  exists qs, l = map Num qs /\ Forall P qs.
Proof.
  induction 1 as [|x l (q & -> & Hq) Hl (qs & -> & Hqs)].
  - now exists [].
  - exists (q :: qs). split; [reflexivity|now constructor].
Qed.

Section CsiFloor.
Context `{NumpyRandom}.
Import CSI.

Lemma csi_floor_step (alpha : Q) (n k : nat) (st : State) (w : World) :
  (0 <= alpha)%Q -> (alpha <= 1)%Q -> (0 < n)%nat ->
  csi_floor_inv n k st ->
  exists st' w', slot alpha st w = Ok (st', w') /\ csi_floor_inv n (Datatypes.S k) st'.
Proof.
  intros Ha0 Ha1 Hn (HI & Hfl & Hse).
  destruct (csi_slot_total alpha n k st w Hn HI) as (st' & w' & E & HI').
  assert (Hne : users st <> []).
  { destruct HI as (Hlen & _). destruct (users st); [simpl in Hlen; lia|congruence]. }
  destruct (csi_slot_full alpha st w Hne) as (st2 & w2 & i & u' & E2 & Hlen & Hpt & _ & Hs).
  assert (st2 = st') as -> by congruence.
  exists st', w'. split; [exact E|]. split; [exact HI'|].
  assert (Hfl' : Forall csi_floor (users st')).
  { apply Forall_lookup. intros j v Hj.
    assert (Hlt : (j < length (users st))%nat)
      by (rewrite <- Hlen; now apply lookup_lt_Some in Hj).
    apply lookup_lt_is_Some in Hlt as [v0 Hv0].
    destruct (Hpt j v0 Hv0) as (v' & Hv' & _ & _ & Ht & Hr & Hsm & _).
    assert (v' = v) as -> by congruence.
    destruct (Forall_lookup_1 _ _ _ _ Hfl Hv0) as (_ & _ & Hs0).
    repeat split; auto. rewrite Hsm. now apply convex_floor. }
  split; [exact Hfl'|].
  rewrite Hs. apply Forall_app. split; [exact Hse|].
  constructor; [|constructor].
  rewrite <- (map_map smoothed_cqi Num).
  apply np_mean_lower.
  - intros E0. apply (f_equal length) in E0. rewrite length_map, Hlen in E0.
    destruct (users st); [congruence|discriminate].
  - apply Forall_map. apply Forall_impl with (P := csi_floor); [exact Hfl'|].
    now intros u (_ & _ & Hu).
Qed.

Lemma csi_floor_init (num_users : Z) :
  csi_floor_inv (Z.to_nat num_users) 0 (init_state num_users).
Proof.
  split; [apply csi_init_inv|]. split; [|constructor].
  unfold init_state; cbn [users]. apply Forall_map, Forall_forall.
  intros i _. unfold csi_floor; simpl. repeat split; discriminate.
Qed.

End CsiFloor.

(** X7. With no user (a user count of zero or less) and at least one
    slot, [simulate_csi_smoothing] raises [ValueError]: line 164 takes the
    [max] of an empty list, where [simulate_das] guards the empty case. *)
Theorem csi_without_users_raises_value_error `{NumpyRandom}
    (alpha : Q) (num_slots num_users : Z) (w : World) :
  num_users <= 0 -> 0 < num_slots ->
  CSI.simulate_csi_smoothing alpha num_slots num_users w = Raise ValueError.
Proof.
  intros Hu Hn. unfold CSI.simulate_csi_smoothing, CSI.run, CSI.init_state.
  replace (Z.to_nat num_users) with 0%nat by lia.
  destruct (Z.to_nat num_slots) as [|k] eqn:E; [lia|]. reflexivity.
Qed.

Lemma csi_without_users_raises_value_error_witness :
  0 <= 0 /\ 0 < 5
  /\ CSI.simulate_csi_smoothing 0.2 5 0 (lcg_world 7) = Raise ValueError.
Proof.
  split; [lia|]. split; [lia|].
  apply (csi_without_users_raises_value_error 0.2 5 0 (lcg_world 7)); lia.
Defined.

(** X8. For [alpha] in [0, 1] and at least one user: after any number of
    slots every user's true, reported and smoothed CQI is at least 1 (the
    floors of lines 150 and 154, and the EWMA of values that are at least
    1), so every spectral-efficiency sample is a number that is at least
    1, and so is the returned [spectral_efficiency] once there is a
    slot. *)
Theorem csi_channel_quality_floor `{NumpyRandom}
    (alpha : Q) (num_slots num_users : Z) (w : World) :
  (0 <= alpha)%Q -> (alpha <= 1)%Q -> 0 < num_users ->
  exists st w',
    CSI.run alpha (Z.to_nat num_slots) num_users w = Ok (st, w')
    /\ CSI.simulate_csi_smoothing alpha num_slots num_users w = Ok (CSI.result st, w')
    /\ Forall csi_floor (CSI.users st)
    /\ Forall (fun x => exists q, x = Num q /\ (1 <= q)%Q) (CSI.se_history (CSI.result st))
    /\ (0 < num_slots ->
        exists q, CSI.spectral_efficiency (CSI.result st) = Num q /\ (1 <= q)%Q).
Proof.
  intros Ha0 Ha1 Hu.
  destruct (for_range_total (csi_floor_inv (Z.to_nat num_users)) (CSI.slot alpha)
              (fun k s w => csi_floor_step alpha (Z.to_nat num_users) k s w Ha0 Ha1
                              ltac:(lia))
              (Z.to_nat num_slots) 0%nat (CSI.init_state num_users) w
              (csi_floor_init num_users))
    as (st & w' & E & HI & Hfl & Hse).
  rewrite Nat.add_0_r in HI.
  exists st, w'. split; [exact E|]. split; [|split; [exact Hfl|split]].
  - unfold CSI.simulate_csi_smoothing, CSI.run. now rewrite (bind_ok _ _ _ _ _ E).
  - cbn [CSI.result CSI.se_history]. unfold last50. now apply Forall_drop.
  - intros Hn. cbn [CSI.result CSI.spectral_efficiency].
    destruct (numbers_of _ _ Hse) as (qs & Eq & Hqs). rewrite Eq.
    apply np_mean_lower; [|exact Hqs].
    intros E0. rewrite E0 in Eq. destruct HI as (_ & _ & _ & Hl & _).
    rewrite Eq in Hl. simpl in Hl. lia.
Qed.

Lemma csi_channel_quality_floor_witness :
  (0 <= 0.2)%Q /\ (0.2 <= 1)%Q /\ 0 < 3
  /\ exists st w',
       CSI.run 0.2 (Z.to_nat 2) 3 (lcg_world 7) = Ok (st, w')
       /\ Forall csi_floor (CSI.users st).
Proof.
  assert (H0 : (0 <= 0.2)%Q) by discriminate.
  assert (H1 : (0.2 <= 1)%Q) by discriminate.
  split; [exact H0|]. split; [exact H1|]. split; [lia|].
  destruct (csi_channel_quality_floor 0.2 2 3 (lcg_world 7) H0 H1 ltac:(lia))
    as (st & w' & E & _ & Hfl & _).
  exists st, w'. split; [exact E|exact Hfl].
Defined.

(** X9. With at least one user, in every slot of [simulate_csi_smoothing]
    (the one after any [t] completed slots): every user keeps its id and
    mobility, its smoothed CQI is the EWMA of its reported CQI, and its
    metric is that smoothed CQI over [max(avg_throughput, 0.1)] as it was
    at the start of the slot; the selected user is the first user of the
    greatest metric; it alone has a counter changed, and its average
    throughput moves (towards its smoothed CQI, weight 0.1) exactly when
    the transmission succeeds. *)
Theorem csi_selects_the_first_maximum `{NumpyRandom}
    (alpha : Q) (num_users : Z) (t : nat) (w : World) :
  0 < num_users ->
  exists st w1 st' w2 i u',
    CSI.run alpha t num_users w = Ok (st, w1)
    /\ CSI.slot alpha st w1 = Ok (st', w2)
    /\ length (CSI.users st') = length (CSI.users st)
    /\ (forall j v0, CSI.users st !! j = Some v0 ->
          exists v, CSI.users st' !! j = Some v /\ csi_user_step alpha i j v0 v)
    /\ first_maximum CSI.metric (CSI.users st') i u'.
Proof.
  intros Hu.
  destruct (csi_run_total alpha t num_users w Hu) as (st & w1 & E & (Hlen & _)).
  assert (Hne : CSI.users st <> [])
    by (destruct (CSI.users st); [simpl in Hlen; lia|congruence]).
  destruct (csi_slot_full alpha st w1 Hne) as (st' & w2 & i & u' & Es & Hl & Hpt & Hm & _).
  exists st, w1, st', w2, i, u'.
  split; [exact E|]. split; [exact Es|]. split; [exact Hl|]. split; [exact Hpt|exact Hm].
Qed.

Lemma csi_selects_the_first_maximum_witness :
  0 < 3
  /\ exists st w1 st' w2,
       CSI.run 0.2 2 3 (lcg_world 7) = Ok (st, w1)
       /\ CSI.slot 0.2 st w1 = Ok (st', w2).
Proof.
  split; [lia|].
  destruct (csi_selects_the_first_maximum 0.2 3 2 (lcg_world 7) ltac:(lia))
    as (st & w1 & st' & w2 & _ & _ & E & Es & _).
  exists st, w1, st', w2. split; [exact E|exact Es].
Defined.

(** ** The queues of the delay-aware scheduler *)

Lemma filter_none {A} (P : A -> Prop) `{forall x, Decision (P x)} (l : list A) :
  Forall (fun x => ~ P x) l -> filter P l = [].
Proof.
  induction 1 as [|x l Hx Hl IH]; [reflexivity|].
  now rewrite filter_cons, decide_False by exact Hx.
Qed.

Lemma StronglySorted_filter {A} (R : A -> A -> Prop) (P : A -> Prop)
    `{forall x, Decision (P x)} (l : list A) :
  StronglySorted R l -> StronglySorted R (filter P l).
Proof.
  induction 1 as [|x l Hl IH Hx]; [constructor|].
  rewrite filter_cons. destruct (decide (P x)); [|exact IH].
  constructor; [exact IH|].
  apply Forall_forall. intros y Hy. apply list_elem_of_filter in Hy as [_ Hy].
  now apply (proj1 (Forall_forall _ _) Hx).
Qed.

Section Queues.
Import DAS.

Lemma aged_queue (q0 new : list Packet) (budget : Z) :
  1 <= budget ->
  StronglySorted das_before q0 ->
  Forall (fun p => 0 < remaining_time p < budget) q0 ->
  (new = [] \/ exists sz, new = [mkPacket budget sz]) ->
  StronglySorted das_before (map age (q0 ++ new))
  /\ Forall (fun p => 0 <= remaining_time p < budget) (map age (q0 ++ new)).
Proof.
  intros Hb Hs Hr Hnew. split.
  - apply (StronglySorted_fmap age das_before das_before).
    + unfold das_before, age. simpl. intros; lia.
    + apply StronglySorted_app_2; [|exact Hs|].
      * intros p q Hp Hq. destruct Hnew as [->|[sz ->]];
          [now apply elem_of_nil in Hq|].
        apply list_elem_of_singleton in Hq as ->. unfold das_before. simpl.
        apply (proj1 (Forall_forall _ _) Hr) in Hp. cbv beta in Hp. lia.
      * destruct Hnew as [->|[sz ->]]; repeat constructor.
  - apply Forall_map, Forall_app. split.
    + apply Forall_impl with (P := fun p => 0 < remaining_time p < budget); [exact Hr|].
      intros p Hp. simpl. lia.
    + destruct Hnew as [->|[sz ->]]; repeat constructor; simpl; lia.
Qed.

(** Behind a head with no negative time left, nothing has expired. *)
Lemma behind_the_head (packet : Packet) (rest : list Packet) :
  StronglySorted das_before (packet :: rest) ->
  0 <= remaining_time packet ->
  alive rest = rest /\ expired rest = [].
Proof.
  intros Hs Hp. apply StronglySorted_cons in Hs as [Hh _].
  unfold alive, expired. split.
  - apply filter_all. apply Forall_impl with (P := das_before packet); [exact Hh|].
    unfold das_before. intros q Hq. lia.
  - apply filter_none. apply Forall_impl with (P := das_before packet); [exact Hh|].
    unfold das_before. intros q Hq. lia.
Qed.

Lemma expired_at_most_one (l : list Packet) :
  StronglySorted das_before l ->
  Forall (fun p => 0 <= remaining_time p) l ->
  (length (expired l) <= 1)%nat.
Proof.
  intros Hs Hr. destruct l as [|p rest]; [simpl; lia|].
  apply Forall_cons in Hr as [Hp _].
  destruct (behind_the_head p rest Hs Hp) as [_ He].
  unfold expired in *. rewrite filter_cons, He.
  destruct (decide (remaining_time p <= 0)); simpl; lia.
Qed.

Lemma queue_length_below_budget (l : list Packet) (lo hi : Z) :
  StronglySorted das_before l ->
  Forall (fun p => lo < remaining_time p < hi) l ->
  lo < hi ->
  Z.of_nat (length l) <= hi - lo - 1.
Proof.
  intros Hs. revert lo. induction Hs as [|p l Hl IH Hp]; intros lo Hr Hlt.
  - simpl. lia.
  - apply Forall_cons in Hr as [Hrp Hr].
    assert (Hr' : Forall (fun q => remaining_time p < remaining_time q < hi) l).
    { apply Forall_forall. intros q Hq.
      pose proof (proj1 (Forall_forall _ _) Hp q Hq) as H1.
      pose proof (proj1 (Forall_forall _ _) Hr q Hq) as H2.
      unfold das_before in H1. cbv beta in H2. lia. }
    specialize (IH (remaining_time p) Hr' ltac:(lia)).
    cbn [length]. lia.
Qed.

(** What a slot keeps of the queue and the delays of one user. *)
Lemma user_step_queue (st st' : State) (tb : Q) (sel : option nat) (j : nat)
    (u u' : User) :
  user_step st st' tb sel j u u' ->
  1 <= pdb u -> das_queue_ok u -> das_delays_ok st u ->
  das_queue_ok u' /\ das_delays_ok st' u'
  /\ exists t t' d d',
       timeouts st !! id u = Some t /\ timeouts st' !! id u = Some t'
       /\ delays st !! id u = Some d /\ delays st' !! id u = Some d'
       /\ ((d' = d /\ t <= t' <= t + 1)
           \/ (t' = t /\ exists x, d' = d ++ [x] /\ 1 <= x <= pdb u))
       /\ Z.of_nat (length (packets u)) - 1 <= Z.of_nat (length (packets u'))
          <= Z.of_nat (length (packets u)) + 1.
Proof.
  intros ((Hid & _ & Hpdb) & new & n & Hnew & _ & _ & Hcase) Hb [Hs Hr] (d & Hd & Hdr).
  destruct (aged_queue (packets u) new (pdb u) Hb Hs Hr Hnew) as [Hqs Hqr].
  assert (Hq : length (map age (packets u ++ new))
               = (length (packets u) + length new)%nat)
    by now rewrite length_map, length_app.
  assert (Hn1 : (length new <= 1)%nat)
    by (destruct Hnew as [->|[sz ->]]; simpl; lia).
  unfold das_queue_ok, das_delays_ok. rewrite Hid, Hpdb.
  cbv zeta in Hcase.
  destruct Hcase as [(_ & packet & rest & d0 & t & Hqe & Hp' & Hd0 & Hd' & _ & Ht & Ht')
                    |(_ & Hp' & Hd' & t & Ht & Ht')].
  - assert (d0 = d) as -> by congruence.
    rewrite Hqe in Hqs, Hqr, Hq.
    apply Forall_cons in Hqr as [Hpk Hrest].
    destruct (behind_the_head packet rest Hqs ltac:(lia)) as [Ea Ee].
    rewrite Ee in Ht'. simpl in Ht'. rewrite Z.add_0_r in Ht'.
    rewrite Hp', Ea.
    apply StronglySorted_cons in Hqs as [Hh Hsr].
    split; [|split].
    + split; [exact Hsr|].
      apply Forall_forall. intros q Hq'.
      pose proof (proj1 (Forall_forall _ _) Hh q Hq') as H1.
      pose proof (proj1 (Forall_forall _ _) Hrest q Hq') as H2.
      unfold das_before in H1. cbv beta in H2. lia.
    + exists (d ++ [pdb u - remaining_time packet]). split; [exact Hd'|].
      apply Forall_app. split; [exact Hdr|]. repeat constructor; lia.
    + exists t, t, d, (d ++ [pdb u - remaining_time packet]).
      repeat split; auto; [|simpl in Hq; lia|simpl in Hq; lia].
      right. split; [reflexivity|]. eexists. split; [reflexivity|]. lia.
  - pose proof (alive_expired_length (map age (packets u ++ new))) as Hae.
    assert (Hex : (length (expired (map age (packets u ++ new))) <= 1)%nat).
    { apply expired_at_most_one; [exact Hqs|].
      apply Forall_impl with (P := fun p => 0 <= remaining_time p < pdb u); [exact Hqr|].
      intros p Hp. lia. }
    rewrite Hp'. split; [|split].
    + split; [now apply StronglySorted_filter|].
      apply Forall_forall. intros q Hq'. unfold alive in Hq'.
      apply list_elem_of_filter in Hq' as [Hpos Hq'].
      pose proof (proj1 (Forall_forall _ _) Hqr q Hq') as H2. cbv beta in H2. lia.
    + exists d. split; [congruence|exact Hdr].
    + exists t, (t + Z.of_nat (length (expired (map age (packets u ++ new))))), d, d.
      repeat split; auto; try congruence; try lia.
      left. split; [reflexivity|lia].
Qed.

End Queues.

(** ** The delay-aware scheduler: classes, queues and delays along a run *)

Section DasFifo.
Context `{NumpyRandom}.
Import DAS.

Lemma class_of_user (n : nat) (us : list User) :
  map (fun u => (id u, (service_type u, pdb u))) us
  = map (fun i => (i, das_class i)) (seq 0 n) ->
  forall u, u ∈ us -> (service_type u, pdb u) = das_class (id u) /\ 1 <= pdb u.
Proof.
  intros Hm u Hu. apply list_elem_of_lookup in Hu as [j Hj].
  assert (E : map (fun u => (id u, (service_type u, pdb u))) us !! j
              = Some (id u, (service_type u, pdb u)))
    by now rewrite list_lookup_fmap, Hj.
  rewrite Hm, list_lookup_fmap in E.
  destruct (seq 0 n !! j) as [i|] eqn:Ei; [|discriminate].
  simpl in E. injection E as Ei' Ec.
  assert (Hc : (service_type u, pdb u) = das_class (id u))
    by (rewrite <- Ei'; now symmetry).
  split; [exact Hc|].
  unfold das_class in Hc.
  destruct (id u <? 5)%nat; [|destruct (id u <? 10)%nat]; injection Hc as _ ->; lia.
Qed.

Lemma das_fifo_step (beta : Q) (n k : nat) (st : State) (w : World) :
  das_fifo_inv n k st ->
  exists st' w',
    slot beta st w = Ok (st', w')
    /\ das_fifo_inv n (Datatypes.S k) st'
    /\ slot_step st st'.
Proof.
  intros (HI & Hcls & Hq).
  destruct (das_slot_total beta k st w HI) as (st' & w' & E & HI').
  destruct (das_slot_spec beta st w (inv_wf k st HI)) as (st2 & w2 & E2 & Hstep & _).
  assert (st2 = st') as -> by congruence.
  exists st', w'. split; [exact E|]. split; [|exact Hstep].
  destruct Hstep as (tb & sel & _ & Hlen & _ & Hpt).
  split; [exact HI'|]. split.
  - rewrite <- Hcls. apply map_pointwise; [exact Hlen|].
    intros j u Hj. destruct (Hpt j u Hj) as (u' & Hu' & (Hid & Hsv & Hpdb) & _).
    exists u'. split; [exact Hu'|]. now rewrite Hid, Hsv, Hpdb.
  - intros u' Hu'. apply list_elem_of_lookup in Hu' as [j Hj].
    assert (Hlt : (j < length (users st))%nat)
      by (rewrite <- Hlen; now apply lookup_lt_Some in Hj).
    apply lookup_lt_is_Some in Hlt as [u Hu].
    destruct (Hpt j u Hu) as (u2 & Hu2 & Hus).
    assert (u2 = u') as -> by congruence.
    assert (Hin : u ∈ users st) by now apply list_elem_of_lookup_2 in Hu.
    destruct (class_of_user n _ Hcls u Hin) as [_ Hb].
    destruct (Hq u Hin) as [Hqu Hdu].
    destruct (user_step_queue _ _ _ _ _ _ _ Hus Hb Hqu Hdu) as (Hq' & Hd' & _).
    now split.
Qed.

Lemma new_user_class (i : nat) (w : World) :
  exists u w', new_user i w = Ok (u, w')
               /\ (id u, (service_type u, pdb u)) = (i, das_class i) /\ packets u = [].
Proof.
  unfold new_user, das_class, uniform, bind, draw, ret.
  destruct (i <? 5)%nat; [|destruct (i <? 10)%nat];
    (simpl; destruct (np_uniform 5 20 (np_gen w)) as [rate g];
     eexists _, _; split; [reflexivity|split; reflexivity]).
Qed.

(** The state that the slot loop starts from. *)
Lemma setup_fifo (num_users : Z) (seed : option Z) (w : World) :
  seed_accepted seed ->
  exists st w',
    setup num_users seed w = Ok (st, w')
    /\ das_fifo_inv (Z.to_nat num_users) 0 st
    /\ forall u, u ∈ users st ->
         timeouts st !! id u = Some 0 /\ delays st !! id u = Some [].
Proof.
  intros Hs.
  destruct (setup_total num_users seed w Hs) as (st & w' & E & HI).
  exists st, w'. split; [exact E|].
  unfold setup in E. apply bind_inv in E as ([] & w0 & _ & E).
  apply bind_inv in E as (us & w1 & Eu & E). injection E as <- <-.
  destruct (for_objects_pointwise new_user
              (fun i u => (id u, (service_type u, pdb u)) = (i, das_class i)
                          /\ packets u = [])
              new_user_class (seq 0 (Z.to_nat num_users)) w0)
    as (us2 & w2 & Eu2 & Hlen & Hpt).
  assert (us2 = us) as -> by congruence.
  assert (Hlk : forall u, u ∈ us ->
            packets u = []
            /\ dict_of_users 0 us !! id u = Some 0
            /\ dict_of_users (@nil Z) us !! id u = Some []).
  { intros u Hu.
    assert (Hk : id u ∈ map id us) by (apply list_elem_of_fmap; now exists u).
    rewrite !dict_of_users_lookup by exact Hk. split; [|now split].
    apply list_elem_of_lookup in Hu as [j Hj].
    assert (Hlt : (j < length (seq 0 (Z.to_nat num_users)))%nat)
      by (rewrite <- Hlen; now apply lookup_lt_Some in Hj).
    apply lookup_lt_is_Some in Hlt as [x Hx].
    destruct (Hpt j x Hx) as (u0 & Hu0 & _ & Hp0). congruence. }
  split; [split; [exact HI|split]|].
  - cbn [init_state users]. apply map_pointwise; [exact Hlen|].
    intros j i Hi. destruct (Hpt j i Hi) as (u & Hu & Hc & _). eauto.
  - intros u Hu. cbn [init_state users] in Hu.
    destruct (Hlk u Hu) as (Hp & _ & Hd).
    split; [unfold das_queue_ok; rewrite Hp; split; constructor|].
    exists []. split; [exact Hd|constructor].
  - intros u Hu. cbn [init_state users] in Hu.
    destruct (Hlk u Hu) as (_ & Ht & Hd). now split.
Qed.

Lemma das_run_fifo (beta : Q) (n : nat) (num_users : Z) (seed : option Z) (w : World) :
  seed_accepted seed ->
  exists st w', run beta n num_users seed w = Ok (st, w')
                /\ das_fifo_inv (Z.to_nat num_users) n st.
Proof.
  intros Hs. destruct (setup_fifo num_users seed w Hs) as (st0 & w0 & E0 & HI0 & _).
  assert (Hstep : forall k s w1, das_fifo_inv (Z.to_nat num_users) k s ->
            exists s' w', slot beta s w1 = Ok (s', w')
                          /\ das_fifo_inv (Z.to_nat num_users) (Datatypes.S k) s').
  { intros k s w1 Hk.
    destruct (das_fifo_step beta (Z.to_nat num_users) k s w1 Hk) as (s' & w' & E & HI & _).
    exists s', w'. now split. }
  destruct (for_range_total (das_fifo_inv (Z.to_nat num_users)) (slot beta) Hstep
              n 0%nat st0 w0 HI0)
    as (st & w' & E & HI).
  exists st, w'. unfold run. rewrite (bind_ok _ _ _ _ _ E0).
  split; [exact E|]. now rewrite Nat.add_0_r in HI.
Qed.

(** The aggregation, with what it reads from the dicts. *)
Lemma finish_full (k : nat) (st : State) (w : World) :
  slot_inv k st ->
  exists ts ns ds,
    Forall2 (fun u t => timeouts st !! id u = Some t) (urllc_users (users st)) ts
    /\ Forall2 (fun u n => total_packets st !! id u = Some n) (urllc_users (users st)) ns
    /\ Forall2 (fun u d => delays st !! id u = Some d) (urllc_users (users st)) ds
    /\ finish st w
       = Ok ({| urllc_timeout_rate :=
                  (inject_Z (Zsum ts) / inject_Z (Z.max (Zsum ns) 1) * 100)%Q;
                avg_urllc_delay :=
                  if existsb (fun d => negb (bool_decide (d = []))) ds
                  then np_mean (map (fun d => Num (inject_Z d)) (concat ds))
                  else Num 0.0;
                r_avg_throughput :=
                  match st_throughput_history st with
                  | [] => Num 0.0
                  | _ :: _ => np_mean (map Num (st_throughput_history st))
                  end;
                throughput_history := last50 (st_throughput_history st) |}, w).
Proof.
  intros (_ & Hacc & _).
  assert (Hin : forall u, u ∈ urllc_users (users st) -> accounted st u).
  { intros u Hu. apply Hacc. unfold urllc_users in Hu.
    now apply list_elem_of_filter in Hu as [_ Hu]. }
  destruct (lookups_total (timeouts st) (urllc_users (users st)) w) as (ts & Et & Ht).
  { intros u Hu. destruct (Hin u Hu) as (n & t & ds & _ & -> & _). eauto. }
  destruct (lookups_total (total_packets st) (urllc_users (users st)) w) as (ns & En & Hn).
  { intros u Hu. destruct (Hin u Hu) as (n & t & ds & -> & _). eauto. }
  destruct (lookups_total (delays st) (urllc_users (users st)) w) as (ds & Ed & Hd).
  { intros u Hu. destruct (Hin u Hu) as (n & t & d & _ & _ & -> & _). eauto. }
  exists ts, ns, ds. repeat split; auto. unfold finish.
  rewrite (bind_ok _ _ _ _ _ Et), (bind_ok _ _ _ _ _ En), (bind_ok _ _ _ _ _ Ed).
  reflexivity.
Qed.

End DasFifo.

(** X10. [simulate_das] returns a result unless numpy rejects the seed,
    and then it raises [ValueError]: the lookups [timeouts[user.id]],
    [total_packets[user.id]] and [delays[...]] never raise [KeyError] and
    the [next(...)] of line 85 never raises [StopIteration], for any
    [beta], slot count and user count. *)
Theorem das_raises_only_on_a_rejected_seed `{NumpyRandom}
    (beta : Q) (num_slots num_users : Z) (seed : option Z) (w : World) :
  (DAS.seed_accepted seed ->
   exists r w', DAS.simulate_das beta num_slots num_users seed w = Ok (r, w'))
  /\ (~ DAS.seed_accepted seed ->
      DAS.simulate_das beta num_slots num_users seed w = Raise ValueError).
Proof.
  split.
  - intros Hs.
    destruct (das_simulate_total beta num_slots num_users seed w Hs) as (r & w' & E & _).
    eauto.
  - intros Hs. destruct seed as [s|]; [|now destruct Hs].
    unfold DAS.simulate_das, DAS.run, DAS.setup, bind, seed_all.
    destruct (np_seed s) as [g|] eqn:E; [|reflexivity].
    exfalso. apply Hs. simpl. rewrite E. eauto.
Qed.

(** X11. After any number of slots of [simulate_das]: the users are the
    ids in order with the class and delay budget that their index gave
    them at creation (0-4 URLLC with 5, 5-9 eMBB with 20, the others mMTC
    with 50); every queue is in arrival order with the oldest packet
    first and no two packets of the same age; every queued packet has
    between 1 and PDB-1 slots left, so a queue never holds more than
    PDB-1 packets. *)
Theorem das_queues_are_fifo `{NumpyRandom}
    (beta : Q) (n : nat) (num_users : Z) (seed : option Z) (w : World) :
  DAS.seed_accepted seed ->
  exists st w',
    DAS.run beta n num_users seed w = Ok (st, w')
    /\ map (fun u => (DAS.id u, (DAS.service_type u, DAS.pdb u))) (DAS.users st)
       = map (fun i => (i, das_class i)) (seq 0 (Z.to_nat num_users))
    /\ forall u, u ∈ DAS.users st ->
         StronglySorted das_before (DAS.packets u)
         /\ Forall (fun p => 1 <= DAS.remaining_time p <= DAS.pdb u - 1) (DAS.packets u)
         /\ Z.of_nat (length (DAS.packets u)) <= DAS.pdb u - 1.
Proof.
  intros Hs.
  destruct (das_run_fifo beta n num_users seed w Hs) as (st & w' & E & _ & Hcls & Hq).
  exists st, w'. split; [exact E|]. split; [exact Hcls|].
  intros u Hu. destruct (Hq u Hu) as [[Hsort Hr] _].
  destruct (class_of_user _ _ Hcls u Hu) as [_ Hb].
  split; [exact Hsort|]. split.
  - apply Forall_impl with (P := fun p => 0 < DAS.remaining_time p < DAS.pdb u);
      [exact Hr|]. intros p Hp. lia.
  - pose proof (queue_length_below_budget _ 0 (DAS.pdb u) Hsort Hr ltac:(lia)). lia.
Qed.

Lemma das_queues_are_fifo_witness :
  DAS.seed_accepted (Some 42)
  /\ exists st w',
       DAS.run 0.7 3 6 (Some 42) (lcg_world 7) = Ok (st, w')
       /\ forall u, u ∈ DAS.users st ->
            Z.of_nat (length (DAS.packets u)) <= DAS.pdb u - 1.
Proof.
  assert (Hs : DAS.seed_accepted (Some 42)) by (simpl; eauto).
  split; [exact Hs|].
  destruct (das_queues_are_fifo 0.7 3 6 (Some 42) (lcg_world 7) Hs)
    as (st & w' & E & _ & Hq).
  exists st, w'. split; [exact E|]. intros u Hu. apply (Hq u Hu).
Defined.

Section DasDelay.
Context `{NumpyRandom}.
Import DAS.

Lemma urllc_budget (n : nat) (us : list User) (u : User) :
  map (fun u => (id u, (service_type u, pdb u))) us
  = map (fun i => (i, das_class i)) (seq 0 n) ->
  u ∈ urllc_users us -> u ∈ us /\ pdb u = 5.
Proof.
  intros Hcls Hu. unfold urllc_users in Hu.
  apply list_elem_of_filter in Hu as [Hsv Hu]. split; [exact Hu|].
  destruct (class_of_user n us Hcls u Hu) as [Hc _].
  unfold das_class in Hc.
  destruct (id u <? 5)%nat; [|destruct (id u <? 10)%nat]; injection Hc as Hs Hp;
    rewrite Hs in Hsv; try discriminate Hsv. exact Hp.
Qed.

Lemma existsb_nonempty (ds : list (list Z)) :
  existsb (fun d => negb (bool_decide (d = []))) ds = true -> concat ds <> [].
Proof.
  induction ds as [|d ds IH]; simpl; [discriminate|].
  destruct d as [|x d]; simpl; [exact IH|discriminate].
Qed.

End DasDelay.

(** X12. Every delay that [simulate_das] records is between 1 and the
    delay budget of the user; so the returned [avg_urllc_delay] is a
    number between 0 and 5 (0.0 when no URLLC packet was transmitted),
    and the returned [avg_throughput] is a number too: neither is ever
    [nan]. *)
Theorem das_urllc_delay_within_budget `{NumpyRandom}
    (beta : Q) (num_slots num_users : Z) (seed : option Z) (w : World) :
  DAS.seed_accepted seed ->
  exists st w' r,
    DAS.run beta (Z.to_nat num_slots) num_users seed w = Ok (st, w')
    /\ (forall u, u ∈ DAS.users st -> das_delays_ok st u)
    /\ DAS.simulate_das beta num_slots num_users seed w = Ok (r, w')
    /\ (exists q, DAS.avg_urllc_delay r = Num q /\ (0 <= q)%Q /\ (q <= 5)%Q)
    /\ (exists q, DAS.r_avg_throughput r = Num q).
Proof.
  intros Hs.
  destruct (das_run_fifo beta (Z.to_nat num_slots) num_users seed w Hs)
    as (st & w' & E & HI & Hcls & Hq).
  destruct (finish_full _ st w' HI) as (ts & ns & ds & _ & _ & Hd & Ef).
  eexists st, w', _. split; [exact E|].
  split; [intros u Hu; apply (Hq u Hu)|].
  split; [unfold DAS.simulate_das; rewrite (bind_ok _ _ _ _ _ E); exact Ef|].
  cbn [DAS.avg_urllc_delay DAS.r_avg_throughput]. split.
  - assert (Hall : Forall (fun d => 1 <= d <= 5) (concat ds)).
    { apply Forall_concat. clear Ef.
      assert (Hin : forall u, u ∈ DAS.urllc_users (DAS.users st) ->
                              u ∈ DAS.users st /\ DAS.pdb u = 5).
      { intros u Hu. exact (urllc_budget _ _ u Hcls Hu). }
      revert Hin.
      induction Hd as [|u d us ds' Hud Hd IH]; intros Hin; [constructor|].
      constructor.
      - destruct (Hin u ltac:(left)) as [Hu Hp].
        destruct (Hq u Hu) as [_ (d0 & Ed0 & Hd0)].
        rewrite Hp in Hd0. congruence.
      - apply IH. intros v Hv. apply Hin. now right. }
    destruct (existsb _ ds) eqn:Ex.
    + apply existsb_nonempty in Ex.
      rewrite <- (map_map inject_Z Num).
      apply np_mean_between.
      * destruct (concat ds); [congruence|discriminate].
      * apply Forall_map. eapply Forall_impl; [exact Hall|].
        intros d Hdd. cbv beta in Hdd |- *. unfold Qle; simpl. lia.
    + exists 0.0%Q. split; [reflexivity|]. unfold Qle; simpl. lia.
  - destruct (DAS.st_throughput_history st) as [|x l]; [eauto|].
    unfold np_mean. change (map Num (x :: l)) with (Num x :: map Num l). cbv iota.
    change (Num x :: map Num l) with (map Num (x :: l)).
    rewrite nf_sum_Num. eauto.
Qed.

Lemma das_urllc_delay_within_budget_witness :
  DAS.seed_accepted (Some 42)
  /\ exists r w',
       DAS.simulate_das 0.7 4 6 (Some 42) (lcg_world 7) = Ok (r, w')
       /\ exists q, DAS.avg_urllc_delay r = Num q /\ (0 <= q)%Q /\ (q <= 5)%Q.
Proof.
  assert (Hs : DAS.seed_accepted (Some 42)) by (simpl; eauto).
  split; [exact Hs|].
  destruct (das_urllc_delay_within_budget 0.7 4 6 (Some 42) (lcg_world 7) Hs)
    as (st & w' & r & _ & _ & E & Hq & _).
  exists r, w'. split; [exact E|exact Hq].
Defined.

Section DasSlotByUser.
Context `{NumpyRandom}.
Import DAS.

Lemma run_snoc (beta : Q) (k : nat) (num_users : Z) (seed : option Z) (w : World) :
  run beta (Datatypes.S k) num_users seed w
  = bind (run beta k num_users seed) (slot beta) w.
Proof.
  unfold run. unfold bind at 1 2 3.
  destruct (setup num_users seed w) as [[st0 w0]|e]; [|reflexivity].
  apply for_range_snoc.
Qed.

End DasSlotByUser.

(** X13. In every slot of [simulate_das] at most one packet leaves the
    queue of a user, whatever the draws: either the user is served, one
    delay between 1 and its budget is recorded and none of its packets
    times out; or no delay is recorded and at most one packet times out.
    The queue of a user grows or shrinks by at most one packet per slot. *)
Theorem das_one_packet_leaves_a_queue_per_slot `{NumpyRandom}
    (beta : Q) (k : nat) (num_users : Z) (seed : option Z) (w : World) :
  DAS.seed_accepted seed ->
  exists st w1 st' w2,
    DAS.run beta k num_users seed w = Ok (st, w1)
    /\ DAS.run beta (S k) num_users seed w = Ok (st', w2)
    /\ length (DAS.users st') = length (DAS.users st)
    /\ forall j u, DAS.users st !! j = Some u ->
         exists u' t t' d d',
           DAS.users st' !! j = Some u' /\ DAS.id u' = DAS.id u
           /\ DAS.timeouts st !! DAS.id u = Some t
           /\ DAS.timeouts st' !! DAS.id u = Some t'
           /\ DAS.delays st !! DAS.id u = Some d
           /\ DAS.delays st' !! DAS.id u = Some d'
           /\ ((d' = d /\ t <= t' <= t + 1)
               \/ (t' = t /\ exists x, d' = d ++ [x] /\ 1 <= x <= DAS.pdb u))
           /\ Z.of_nat (length (DAS.packets u)) - 1
              <= Z.of_nat (length (DAS.packets u'))
              <= Z.of_nat (length (DAS.packets u)) + 1.
Proof.
  intros Hs.
  destruct (das_run_fifo beta k num_users seed w Hs) as (st & w1 & E & HI).
  destruct (das_fifo_step beta _ k st w1 HI) as (st' & w2 & E' & _ & Hstep).
  exists st, w1, st', w2. split; [exact E|].
  split; [rewrite run_snoc, (bind_ok _ _ _ _ _ E); exact E'|].
  destruct HI as (_ & Hcls & Hq).
  destruct Hstep as (tb & sel & _ & Hlen & _ & Hpt).
  split; [exact Hlen|]. intros j u Hu.
  destruct (Hpt j u Hu) as (u' & Hu' & Hus).
  assert (Hin : u ∈ DAS.users st) by now apply list_elem_of_lookup_2 in Hu.
  destruct (class_of_user _ _ Hcls u Hin) as [_ Hb].
  destruct (Hq u Hin) as [Hqu Hdu].
  destruct (user_step_queue _ _ _ _ _ _ _ Hus Hb Hqu Hdu)
    as (_ & _ & t & t' & d & d' & Ht & Ht' & Hd & Hd' & Hcase & Hl).
  destruct Hus as ((Hid & _) & _).
  exists u', t, t', d, d'.
  split; [exact Hu'|]. split; [exact Hid|].
  split; [exact Ht|]. split; [exact Ht'|]. split; [exact Hd|].
  split; [exact Hd'|]. split; [exact Hcase|exact Hl].
Qed.

Lemma das_one_packet_leaves_a_queue_per_slot_witness :
  DAS.seed_accepted (Some 42)
  /\ exists st w1 st' w2,
       DAS.run 0.7 2 6 (Some 42) (lcg_world 7) = Ok (st, w1)
       /\ DAS.run 0.7 3 6 (Some 42) (lcg_world 7) = Ok (st', w2)
       /\ length (DAS.users st') = length (DAS.users st).
Proof.
  assert (Hs : DAS.seed_accepted (Some 42)) by (simpl; eauto).
  split; [exact Hs|].
  destruct (das_one_packet_leaves_a_queue_per_slot 0.7 2 6 (Some 42) (lcg_world 7) Hs)
    as (st & w1 & st' & w2 & E & E' & Hl & _).
  exists st, w1, st', w2. split; [exact E|]. split; [exact E'|exact Hl].
Defined.

(** ** The delay-aware scheduler: who is served *)

Section DasSelection.
Context `{NumpyRandom}.
Import DAS.

Lemma odict_set_fresh (k : nat) (v : Q) (d : list (nat * Q)) :
  k ∉ map fst d -> odict_set k v d = d ++ [(k, v)].
Proof.
  induction d as [|[k' v'] d IH]; simpl; intros Hk; [reflexivity|].
  destruct (k =? k')%nat eqn:E.
  - apply Nat.eqb_eq in E. subst k'. exfalso. apply Hk. left.
  - f_equal. apply IH. intros Hin. apply Hk. now right.
Qed.

(** With distinct ids the dict of priorities has one entry per user, in
    the order of the users. *)
Lemma compute_priorities_map (beta : Q) (us : list User) :
  NoDup (map id us) ->
  compute_priorities beta us = map (fun u => (id u, priority beta u)) us.
Proof.
  unfold compute_priorities.
  assert (G : forall d, NoDup (map fst d ++ map id us) ->
            fold_left (fun priorities u => odict_set (id u) (priority beta u) priorities)
              us d
            = d ++ map (fun u => (id u, priority beta u)) us).
  { induction us as [|a r IH]; intros d Hnd; simpl.
    - now rewrite app_nil_r.
    - assert (Hf : id a ∉ map fst d).
      { apply NoDup_app in Hnd as (_ & Hd & _). intros Hin.
        apply (Hd _ Hin). simpl. left. }
      rewrite (odict_set_fresh _ _ _ Hf).
      rewrite IH; [now rewrite <- app_assoc|].
      rewrite map_app, <- app_assoc. exact Hnd. }
  intros Hnd. exact (G [] Hnd).
Qed.

Lemma first_maximum_map {A B} (g : A -> B) (key : B -> Q) (l : list A)
    (i : nat) (y : B) :
  first_maximum key (map g l) i y ->
  exists x, y = g x /\ first_maximum (fun a => key (g a)) l i x.
Proof.
  intros [Hl Hm].
  change (map g l) with (g <$> l) in Hl. rewrite list_lookup_fmap in Hl.
  destruct (l !! i) as [x|] eqn:E; [|discriminate]. injection Hl as <-.
  exists x. split; [reflexivity|]. split; [exact E|].
  intros j a Ha. apply (Hm j (g a)).
  change (map g l) with (g <$> l). now rewrite list_lookup_fmap, Ha.
Qed.

End DasSelection.

(** X14. The selection of lines 81-93, for users with distinct ids: the
    user served is the first one, in the order of [users], whose priority
    is maximal. If the queue of that user is empty, nothing is
    transmitted in the slot and nothing changes, whatever the other
    queues hold; otherwise its oldest packet is transmitted, its delay
    appended to the user's entry of [delays], and the average throughput
    of the user updated ([KeyError] if [delays] has no such entry). *)
Theorem das_serves_first_user_of_maximal_priority `{NumpyRandom}
    (beta : Q) (us : list DAS.User) (ds : gmap nat (list Z)) (w : World) :
  NoDup (map DAS.id us) -> us <> [] ->
  exists i u,
    first_maximum (DAS.priority beta) us i u
    /\ DAS.select_and_serve (DAS.compute_priorities beta us) us ds w
       = match DAS.packets u with
         | [] => Ok ((us, ds, 0.0%Q), w)
         | packet :: rest =>
             match ds !! DAS.id u with
             | Some d =>
                 Ok ((<[i := DAS.after_transmission packet rest u]> us,
                      <[DAS.id u := d ++ [DAS.pdb u - DAS.remaining_time packet]]> ds,
                      (0.0 + DAS.size packet)%Q), w)
             | None => Raise KeyError
             end
         end.
Proof.
  intros Hnd Hne.
  rewrite (compute_priorities_map beta us Hnd).
  unfold DAS.select_and_serve.
  destruct (max_by_nonempty snd (map (fun u => (DAS.id u, DAS.priority beta u)) us))
    as (j & [k v] & Em).
  { destruct us; [congruence|discriminate]. }
  rewrite Em.
  apply max_by_is_first_maximum in Em.
  apply first_maximum_map in Em as (u & Eu & Hfm). cbn [snd] in Hfm.
  injection Eu as -> ->.
  assert (Hk : DAS.id u ∈ map DAS.id us).
  { apply list_elem_of_fmap. exists u. split; [reflexivity|].
    destruct Hfm as [Hl _]. now apply list_elem_of_lookup_2 in Hl. }
  destruct (find_user_spec (DAS.id u) us 0 Hk) as (i & u' & Ef & Hl & Hi).
  rewrite Ef. simpl (0 + i)%nat.
  assert (Hij : i = j).
  { destruct Hfm as [Hj _].
    apply (NoDup_lookup (map DAS.id us) i j (DAS.id u)); [exact Hnd| |].
    - change (map DAS.id us) with (DAS.id <$> us).
      now rewrite list_lookup_fmap, Hl, <- Hi.
    - change (map DAS.id us) with (DAS.id <$> us).
      now rewrite list_lookup_fmap, Hj. }
  subst i.
  assert (u' = u) as -> by (destruct Hfm as [Hj _]; congruence).
  exists j, u. split; [exact Hfm|].
  destruct (DAS.packets u) as [|packet rest]; [reflexivity|].
  unfold dict_get, bind, ret, raise.
  destruct (ds !! DAS.id u); reflexivity.
Qed.

Lemma das_serves_first_user_of_maximal_priority_witness :
  (NoDup (map DAS.id [DAS.mkUser 0 DAS.URLLC 20 1 [] 5;
                      DAS.mkUser 1 DAS.URLLC 5 1 [DAS.mkPacket 1 100] 5])
   /\ [DAS.mkUser 0 DAS.URLLC 20 1 [] 5;
       DAS.mkUser 1 DAS.URLLC 5 1 [DAS.mkPacket 1 100] 5] <> [])
  /\ DAS.select_and_serve
       (DAS.compute_priorities 0.7
          [DAS.mkUser 0 DAS.URLLC 20 1 [] 5;
           DAS.mkUser 1 DAS.URLLC 5 1 [DAS.mkPacket 1 100] 5])
       [DAS.mkUser 0 DAS.URLLC 20 1 [] 5;
        DAS.mkUser 1 DAS.URLLC 5 1 [DAS.mkPacket 1 100] 5]
       ∅ (lcg_world 7)
     = Ok (([DAS.mkUser 0 DAS.URLLC 20 1 [] 5;
             DAS.mkUser 1 DAS.URLLC 5 1 [DAS.mkPacket 1 100] 5], ∅, 0.0%Q),
           lcg_world 7).
Proof.
  set (u0 := DAS.mkUser 0 DAS.URLLC 20 1 [] 5).
  set (u1 := DAS.mkUser 1 DAS.URLLC 5 1 [DAS.mkPacket 1 100] 5).
  assert (Hnd : NoDup (map DAS.id [u0; u1])).
  { simpl. repeat constructor; rewrite ?elem_of_cons, ?elem_of_nil;
      intros Hin; decompose [or] Hin; try discriminate; assumption. }
  assert (Hne : [u0; u1] <> []) by discriminate.
  split; [split; [exact Hnd|exact Hne]|].
  destruct (das_serves_first_user_of_maximal_priority 0.7 [u0; u1] ∅ (lcg_world 7) Hnd Hne)
    as (i & u & [Hl Hm] & E).
  rewrite E. destruct i as [|[|i]]; simpl in Hl; try discriminate Hl.
  - injection Hl as <-. reflexivity.
  - exfalso. destruct (Hm 0%nat u0 eq_refl) as [_ Hlt].
    specialize (Hlt ltac:(lia)). injection Hl as <-.
    vm_compute in Hlt. discriminate Hlt.
Defined.

(** ** The delay-aware scheduler without users or without slots *)

Section DasEdges.
Context `{NumpyRandom}.
Import DAS.

Lemma last50_replicate {A} (n : nat) (x : A) :
  last50 (replicate n x) = replicate (n `min` 50) x.
Proof.
  unfold last50. rewrite length_replicate, drop_replicate. f_equal. lia.
Qed.

(** A slot without users draws nothing and transmits nothing. *)
Lemma slot_no_users (beta : Q) (st : State) (w : World) :
  users st = [] ->
  slot beta st w
  = Ok ({| users := []; timeouts := timeouts st; total_packets := total_packets st;
           delays := delays st;
           st_throughput_history := st_throughput_history st ++ [0.0%Q] |}, w).
Proof.
  destruct st as [us to tp ds h]. simpl. intros ->. reflexivity.
Qed.

Lemma run_no_users (beta : Q) (n : nat) (num_users : Z) (seed : option Z) (w : World) :
  seed_accepted seed -> num_users <= 0 ->
  exists st w', run beta n num_users seed w = Ok (st, w')
                /\ users st = []
                /\ st_throughput_history st = replicate n 0.0%Q.
Proof.
  intros Hs Hu.
  destruct (setup_fifo num_users seed w Hs) as (st0 & w0 & E0 & (HI0 & Hcls0 & _) & _).
  assert (Hn : Z.to_nat num_users = 0%nat) by lia.
  rewrite Hn in Hcls0. simpl in Hcls0. apply map_eq_nil in Hcls0.
  assert (Hh0 : st_throughput_history st0 = []).
  { destruct HI0 as (_ & _ & Hl).
    destruct (st_throughput_history st0); [reflexivity|discriminate]. }
  assert (Hstep : forall k s w1,
            users s = [] /\ st_throughput_history s = replicate k 0.0%Q ->
            exists s' w', slot beta s w1 = Ok (s', w')
                          /\ users s' = []
                          /\ st_throughput_history s' = replicate (Datatypes.S k) 0.0%Q).
  { intros k s w1 [Hus Hh]. eexists _, _.
    split; [apply (slot_no_users beta s w1 Hus)|]. split; [reflexivity|].
    cbn [st_throughput_history]. rewrite Hh. symmetry. apply replicate_S_end. }
  destruct (for_range_total
              (fun k s => users s = [] /\ st_throughput_history s = replicate k 0.0%Q)
              (slot beta) Hstep n 0%nat st0 w0 (conj Hcls0 Hh0))
    as (st & w' & E & Hus & Hh).
  exists st, w'. unfold run. rewrite (bind_ok _ _ _ _ _ E0).
  split; [exact E|]. split; [exact Hus|]. now rewrite Nat.add_0_r in Hh.
Qed.

Lemma Zsum_zeros (l : list Z) : Forall (fun t => t = 0) l -> Zsum l = 0.
Proof.
  unfold Zsum. induction 1 as [|t l Ht _ IH]; simpl; [reflexivity|]. lia.
Qed.

End DasEdges.

(** X15. Without users ([num_users <= 0]) [simulate_das] does not fail,
    unlike the CSI simulator: no slot transmits anything, the history is
    all zeros (its last 50 entries are returned), the timeout rate is 0
    (the denominator is [max(0, 1)]), the average delay is 0.0 and the
    average throughput is 0. *)
Theorem das_without_users_returns_zeros `{NumpyRandom}
    (beta : Q) (num_slots num_users : Z) (seed : option Z) (w : World) :
  DAS.seed_accepted seed -> num_users <= 0 ->
  exists r w',
    DAS.simulate_das beta num_slots num_users seed w = Ok (r, w')
    /\ (DAS.urllc_timeout_rate r == 0)%Q
    /\ DAS.avg_urllc_delay r = Num 0.0
    /\ (exists q, DAS.r_avg_throughput r = Num q /\ (q == 0)%Q)
    /\ DAS.throughput_history r = replicate (Z.to_nat num_slots `min` 50) 0.0%Q.
Proof.
  intros Hs Hu.
  destruct (run_no_users beta (Z.to_nat num_slots) num_users seed w Hs Hu)
    as (st & w' & E & Hus & Hh).
  eexists _, w'. split.
  { unfold DAS.simulate_das. rewrite (bind_ok _ _ _ _ _ E).
    unfold DAS.finish. rewrite Hus. reflexivity. }
  cbn [DAS.urllc_timeout_rate DAS.avg_urllc_delay DAS.r_avg_throughput
       DAS.throughput_history].
  split; [reflexivity|]. split; [reflexivity|]. split.
  - rewrite Hh. destruct (Z.to_nat num_slots) as [|n]; [exists 0.0%Q; split; reflexivity|].
    destruct (np_mean_between 0 0 (replicate (S n) 0.0%Q)) as (q & Eq & Hq0 & Hq1).
    + discriminate.
    + apply Forall_replicate. split; unfold Qle; simpl; lia.
    + exists q. split; [exact Eq|]. now apply Qle_antisym.
  - rewrite Hh. apply last50_replicate.
Qed.

Lemma das_without_users_returns_zeros_witness :
  (DAS.seed_accepted (Some 42) /\ 0 <= 0)
  /\ exists r w',
       DAS.simulate_das 0.7 60 0 (Some 42) (lcg_world 7) = Ok (r, w')
       /\ DAS.throughput_history r = replicate 50 0.0%Q.
Proof.
  assert (Hs : DAS.seed_accepted (Some 42)) by (simpl; eauto).
  split; [split; [exact Hs|lia]|].
  destruct (das_without_users_returns_zeros 0.7 60 0 (Some 42) (lcg_world 7) Hs
              ltac:(lia))
    as (r & w' & E & _ & _ & _ & Hh).
  exists r, w'. split; [exact E|exact Hh].
Defined.

(** X16. Without slots ([num_slots <= 0]) [simulate_das] returns no
    [nan], unlike the other two simulators: the timeout rate is 0, both
    averages are 0.0 and the history is empty, for any number of users. *)
Theorem das_without_slots_returns_zeros `{NumpyRandom}
    (beta : Q) (num_slots num_users : Z) (seed : option Z) (w : World) :
  DAS.seed_accepted seed -> num_slots <= 0 ->
  exists r w',
    DAS.simulate_das beta num_slots num_users seed w = Ok (r, w')
    /\ (DAS.urllc_timeout_rate r == 0)%Q
    /\ DAS.avg_urllc_delay r = Num 0.0
    /\ DAS.r_avg_throughput r = Num 0.0
    /\ DAS.throughput_history r = [].
Proof.
  intros Hs Hn.
  destruct (setup_fifo num_users seed w Hs) as (st & w' & E & (HI & _) & H0).
  destruct (finish_full _ st w' HI) as (ts & ns & ds & Ht & _ & Hd & Ef).
  assert (Hh : DAS.st_throughput_history st = []).
  { destruct HI as (_ & _ & Hl).
    destruct (DAS.st_throughput_history st); [reflexivity|discriminate]. }
  assert (Hin : forall u, u ∈ DAS.urllc_users (DAS.users st) -> u ∈ DAS.users st).
  { intros u Hu. unfold DAS.urllc_users in Hu.
    now apply list_elem_of_filter in Hu as [_ Hu]. }
  assert (Hts : Forall (fun t => t = 0) ts).
  { clear Ef Hd. revert Hin.
    induction Ht as [|u t us ts' Hut _ IH]; intros Hin; constructor.
    - destruct (H0 u (Hin u ltac:(left))) as [Hz _]. congruence.
    - apply IH. intros v Hv. apply Hin. now right. }
  assert (Hds : Forall (fun d => d = []) ds).
  { clear Ef Ht Hts. revert Hin.
    induction Hd as [|u d us ds' Hud _ IH]; intros Hin; constructor.
    - destruct (H0 u (Hin u ltac:(left))) as [_ Hz]. congruence.
    - apply IH. intros v Hv. apply Hin. now right. }
  eexists _, w'. split.
  { unfold DAS.simulate_das, DAS.run.
    replace (Z.to_nat num_slots) with 0%nat by lia.
    unfold bind. rewrite E.
    change (for_range 0 (DAS.slot beta) st w') with (Ok (A := DAS.State * World) (st, w')).
    exact Ef. }
  cbn [DAS.urllc_timeout_rate DAS.avg_urllc_delay DAS.r_avg_throughput
       DAS.throughput_history].
  rewrite Hh, (Zsum_zeros ts Hts).
  split; [unfold Qeq; simpl; lia|]. split; [|split; reflexivity].
  replace (existsb _ ds) with false; [reflexivity|].
  symmetry. clear Ef Hd. induction Hds as [|d ds' -> _ IH]; simpl; [reflexivity|exact IH].
Qed.

Lemma das_without_slots_returns_zeros_witness :
  (DAS.seed_accepted (Some 42) /\ 0 <= 0)
  /\ exists r w',
       DAS.simulate_das 0.7 0 6 (Some 42) (lcg_world 7) = Ok (r, w')
       /\ DAS.r_avg_throughput r = Num 0.0
       /\ DAS.throughput_history r = [].
Proof.
  assert (Hs : DAS.seed_accepted (Some 42)) by (simpl; eauto).
  split; [split; [exact Hs|lia]|].
  destruct (das_without_slots_returns_zeros 0.7 0 6 (Some 42) (lcg_world 7) Hs
              ltac:(lia))
    as (r & w' & E & _ & _ & Ha & Hh).
  exists r, w'. split; [exact E|]. split; [exact Ha|exact Hh].
Defined.

(** ** The delay-aware scheduler: every packet accounted once *)

Section DasAccounting.
Context `{NumpyRandom}.
Import DAS.

(** The selection, as in the statement on the first user of maximal
    priority. *)
Lemma select_and_serve_first (beta : Q) (us : list User) (ds : gmap nat (list Z))
    (w : World) :
  NoDup (map id us) -> us <> [] ->
  exists i u,
    first_maximum (priority beta) us i u
    /\ select_and_serve (compute_priorities beta us) us ds w
       = match packets u with
         | [] => Ok ((us, ds, 0.0%Q), w)
         | packet :: rest =>
             match ds !! id u with
             | Some d =>
                 Ok ((<[i := after_transmission packet rest u]> us,
                      <[id u := d ++ [pdb u - remaining_time packet]]> ds,
                      (0.0 + size packet)%Q), w)
             | None => Raise KeyError
             end
         end.
Proof.
  intros Hnd Hne.
  rewrite (compute_priorities_map beta us Hnd).
  unfold select_and_serve.
  destruct (max_by_nonempty snd (map (fun u => (id u, priority beta u)) us))
    as (j & [k v] & Em).
  { destruct us; [congruence|discriminate]. }
  rewrite Em.
  apply max_by_is_first_maximum in Em.
  apply first_maximum_map in Em as (u & Eu & Hfm). cbn [snd] in Hfm.
  injection Eu as -> ->.
  assert (Hk : id u ∈ map id us).
  { apply list_elem_of_fmap. exists u. split; [reflexivity|].
    destruct Hfm as [Hl _]. now apply list_elem_of_lookup_2 in Hl. }
  destruct (find_user_spec (id u) us 0 Hk) as (i & u' & Ef & Hl & Hi).
  rewrite Ef. simpl (0 + i)%nat.
  assert (Hij : i = j).
  { destruct Hfm as [Hj _].
    apply (NoDup_lookup (map id us) i j (id u)); [exact Hnd| |].
    - change (map id us) with (id <$> us).
      now rewrite list_lookup_fmap, Hl, <- Hi.
    - change (map id us) with (id <$> us).
      now rewrite list_lookup_fmap, Hj. }
  subst i.
  assert (u' = u) as -> by (destruct Hfm as [Hj _]; congruence).
  exists j, u. split; [exact Hfm|].
  destruct (packets u) as [|packet rest]; [reflexivity|].
  unfold dict_get, bind, ret, raise.
  destruct (ds !! id u); reflexivity.
Qed.

(** The selection user by user: who loses its head packet, and what is
    recorded for it. *)
Lemma select_and_serve_accounts (beta : Q) (us : list User)
    (ds : gmap nat (list Z)) (w : World) :
  NoDup (map id us) ->
  (forall u, u ∈ us -> is_Some (ds !! id u)) ->
  exists us3 ds3 tb,
    select_and_serve (compute_priorities beta us) us ds w = Ok ((us3, ds3, tb), w)
    /\ map id us3 = map id us
    /\ ((us = [] /\ tb = 0.0%Q)
        \/ exists i s,
             first_maximum (priority beta) us i s
             /\ forall j v, us !! j = Some v ->
                  exists v3 d,
                    us3 !! j = Some v3 /\ id v3 = id v /\ ds !! id v = Some d
                    /\ match bool_decide (j = i), packets v with
                       | true, packet :: rest =>
                           tb = (0.0 + size packet)%Q
                           /\ ds3 !! id v = Some (d ++ [pdb v - remaining_time packet])
                           /\ packets v3 = rest
                       | true, [] =>
                           tb = 0.0%Q /\ ds3 !! id v = Some d /\ packets v3 = []
                       | false, queue =>
                           ds3 !! id v = Some d /\ packets v3 = queue
                       end).
Proof.
  intros Hnd Hds.
  destruct (decide (us = [])) as [->|Hne].
  { exists [], ds, 0.0%Q. split; [reflexivity|]. split; [reflexivity|]. now left. }
  destruct (select_and_serve_first beta us ds w Hnd Hne) as (i & s & Hfm & E).
  pose proof Hfm as [Hi _].
  assert (Hin : forall j v, us !! j = Some v -> exists d, ds !! id v = Some d).
  { intros j v Hj. apply Hds. now apply list_elem_of_lookup_2 in Hj. }
  destruct (packets s) as [|packet rest] eqn:Ep.
  - exists us, ds, 0.0%Q. split; [exact E|]. split; [reflexivity|].
    right. exists i, s. split; [exact Hfm|]. intros j v Hj.
    destruct (Hin j v Hj) as [d Hd]. exists v, d.
    split; [exact Hj|]. split; [reflexivity|]. split; [exact Hd|].
    destruct (decide (j = i)) as [->|Hji].
    + assert (v = s) as -> by congruence.
      rewrite bool_decide_eq_true_2 by reflexivity. rewrite Ep. now repeat split.
    + rewrite bool_decide_eq_false_2 by exact Hji. now split.
  - destruct (Hin i s Hi) as [ds0 Hd0]. rewrite Hd0 in E.
    eexists _, _, _. split; [exact E|]. split.
    { change (map id ?l) with (id <$> l).
      rewrite list_fmap_insert. apply list_insert_id.
      now rewrite list_lookup_fmap, Hi. }
    right. exists i, s. split; [exact Hfm|]. intros j v Hj.
    destruct (decide (j = i)) as [->|Hji].
    + assert (v = s) as -> by congruence.
      exists (after_transmission packet rest s), ds0.
      rewrite bool_decide_eq_true_2 by reflexivity. rewrite Ep.
      split; [apply list_lookup_insert_eq; now apply lookup_lt_Some in Hi|].
      split; [reflexivity|]. split; [exact Hd0|]. split; [reflexivity|].
      split; [apply lookup_insert_eq|reflexivity].
    + destruct (Hin j v Hj) as [d Hd]. exists v, d.
      rewrite bool_decide_eq_false_2 by exact Hji.
      split; [rewrite list_lookup_insert_ne; [exact Hj|congruence]|].
      split; [reflexivity|]. split; [exact Hd|]. split; [|reflexivity].
      rewrite lookup_insert_ne; [exact Hd|]. intros Eid. apply Hji. symmetry.
      apply (NoDup_lookup _ i j (id s) Hnd); rewrite list_lookup_fmap.
      * now rewrite Hi.
      * now rewrite Hj, Eid.
Qed.

(** A slot, with the selection tied to the users as they are at selection
    time. *)
Lemma das_slot_accounts (beta : Q) (st : State) (w : World) :
  wf st ->
  exists us1 tp1 wa st' w' tb,
    for_objects_with arrive (users st) (total_packets st) w = Ok ((us1, tp1), wa)
    /\ slot beta st w = Ok (st', w')
    /\ total_packets st' = tp1
    /\ length us1 = length (users st)
    /\ length (users st') = length us1
    /\ (forall j u, users st !! j = Some u ->
          exists u1 n n',
            us1 !! j = Some u1
            /\ total_packets st !! id u = Some n
            /\ tp1 !! id u = Some n'
            /\ arrived u n u1 n')
    /\ st_throughput_history st' = st_throughput_history st ++ [tb]
    /\ ((us1 = [] /\ tb = 0.0%Q)
        \/ exists i s,
             first_maximum (priority beta) (age_packets us1) i s
             /\ forall j v, age_packets us1 !! j = Some v ->
                  exists v', users st' !! j = Some v'
                             /\ das_user_accounts st st' tb (bool_decide (j = i)) v v').
Proof.
  intros [Hnd Hkeys].
  destruct (for_objects_with_keyed id arrive arrived arrive_spec
              (users st) (total_packets st) w Hnd)
    as (us1 & tp1 & w1 & E1 & L1 & P1 & O1).
  { intros u Hu. now destruct (Hkeys u Hu) as (_ & ? & _). }
  assert (I1 : map id us1 = map id (users st)).
  { apply map_pointwise; [exact L1|]. intros j u Hj.
    destruct (P1 j u Hj) as (u1 & n & n' & Hu1 & Hid & _). eauto. }
  set (us2 := age_packets us1).
  assert (I2 : map id us2 = map id (users st)).
  { unfold us2, age_packets. rewrite map_map. exact I1. }
  destruct (select_and_serve_accounts beta us2 (delays st) w1)
    as (us3 & ds3 & tb & E3 & I3 & P3).
  { now rewrite I2. }
  { apply (key_present _ (users st)); [exact I2|].
    intros u Hu. now destruct (Hkeys u Hu) as (_ & _ & ?). }
  rewrite I2 in I3.
  destruct (for_objects_with_keyed id sweep swept sweep_spec us3 (timeouts st) w1)
    as (us4 & to4 & w4 & E4 & L4 & P4 & O4).
  { now rewrite I3. }
  { apply (key_present _ (users st)); [exact I3|].
    intros u Hu. now destruct (Hkeys u Hu) as (? & _ & _). }
  destruct (for_objects_pointwise update_channel
              (fun u u' => same_user u u' /\ packets u' = packets u)
              update_channel_spec us4 w4)
    as (us5 & w5 & E5 & L5 & P5).
  assert (L3 : length us3 = length us1).
  { rewrite <- (length_map id us3), I3, <- I1. apply length_map. }
  exists us1, tp1, w1. eexists _, w5, tb.
  split; [exact E1|]. split.
  { unfold slot. rewrite (bind_ok _ _ _ _ _ E1). cbv beta iota. fold us2.
    rewrite (bind_ok _ _ _ _ _ E3). cbv beta iota.
    rewrite (bind_ok _ _ _ _ _ E4). cbv beta iota.
    rewrite (bind_ok _ _ _ _ _ E5). reflexivity. }
  cbn [users timeouts total_packets delays st_throughput_history].
  split; [reflexivity|]. split; [exact L1|]. split; [lia|]. split.
  { intros j u Hj.
    destruct (P1 j u Hj) as (u1 & n & n' & Hu1 & _ & Hn & Hn' & Harr).
    exists u1, n, n'. split; [exact Hu1|]. split; [exact Hn|]. split; [exact Hn'|exact Harr]. }
  split; [reflexivity|].
  destruct P3 as [[Hnil Htb]|(i & s & Hfm & P3)].
  { left. split; [|exact Htb]. unfold us2, age_packets in Hnil.
    now apply map_eq_nil in Hnil. }
  right. exists i, s. split; [exact Hfm|]. intros j v Hj.
  destruct (P3 j v Hj) as (v3 & d & Hv3 & Hid3 & Hd & Hcase).
  destruct (P4 j v3 Hv3) as (u4 & t & t' & Hu4 & Hid4 & Ht & Ht' & _ & Hp4 & ->).
  destruct (P5 j u4 Hu4) as (u5 & Hu5 & (Hid5 & _) & Hp5).
  exists u5. split; [exact Hu5|].
  unfold das_user_accounts. cbn [users timeouts total_packets delays].
  rewrite Hid3 in Ht, Ht'.
  split; [congruence|]. exists t, d. split; [exact Ht|]. split; [exact Hd|].
  rewrite Hp5, Hp4.
  destruct (bool_decide (j = i)); [destruct (packets v) as [|packet rest]|].
  - destruct Hcase as (Htb & Hd3 & Hq). rewrite Hq in Ht' |- *.
    rewrite Z.add_0_r in Ht'. now repeat split.
  - destruct Hcase as (Htb & Hd3 & Hq). rewrite Hq in Ht' |- *. now repeat split.
  - destruct Hcase as (Hd3 & Hq). rewrite Hq in Ht' |- *. now repeat split.
Qed.

End DasAccounting.

Section DasQueueSplit.
Context `{NumpyRandom}.
Import DAS.

Lemma expired_no_time_left (l : list Packet) :
  Forall (fun p => remaining_time p <= 0) (expired l).
Proof.
  unfold expired. apply Forall_forall. intros p Hp.
  now apply list_elem_of_filter in Hp as [Hp _].
Qed.

Lemma sorted_queue_NoDup (l : list Packet) : StronglySorted das_before l -> NoDup l.
Proof.
  induction 1 as [|p l _ IH Hp]; constructor; [|exact IH].
  intros Hin. pose proof (proj1 (Forall_forall _ _) Hp p Hin) as Hlt.
  unfold das_before in Hlt. lia.
Qed.

Lemma user_accounts_split (st st' : State) (tb : Q) (b : bool) (v v' : User) :
  das_user_accounts st st' tb b v v' -> das_queue_split st st' b v v'.
Proof.
  intros (_ & t & d & Ht & Hd & Hcase). unfold das_queue_split.
  destruct b; [destruct (packets v) as [|packet rest]|].
  - destruct Hcase as (_ & Hd' & Hq & Ht').
    exists [], [], t, d. rewrite Hq. cbn [map length app Z.of_nat].
    rewrite app_nil_r, Z.add_0_r.
    split; [reflexivity|]. split; [reflexivity|]. split; [constructor|].
    split; [constructor|]. split; [exact Ht|]. split; [exact Ht'|].
    split; [exact Hd|exact Hd'].
  - destruct Hcase as (_ & Hd' & Hq & Ht').
    exists [packet], (expired rest), t, d. rewrite Hq.
    split; [reflexivity|]. split.
    { simpl. constructor. symmetry. apply alive_expired_perm. }
    split; [apply alive_positive|]. split; [apply expired_no_time_left|].
    split; [exact Ht|]. split; [exact Ht'|]. split; [exact Hd|exact Hd'].
  - destruct Hcase as (Hd' & Hq & Ht').
    exists [], (expired (packets v)), t, d. rewrite Hq. cbn [map].
    rewrite app_nil_r.
    split; [reflexivity|]. split.
    { simpl. symmetry. apply alive_expired_perm. }
    split; [apply alive_positive|]. split; [apply expired_no_time_left|].
    split; [exact Ht|]. split; [exact Ht'|]. split; [exact Hd|exact Hd'].
Qed.

(** The queues at selection time, in a run. *)
Lemma queue_at_selection (n k : nat) (st : State) (us1 : list User) (tp1 : gmap nat Z) :
  das_fifo_inv n k st ->
  length us1 = length (users st) ->
  (forall j u, users st !! j = Some u ->
     exists u1 a a',
       us1 !! j = Some u1
       /\ total_packets st !! id u = Some a
       /\ tp1 !! id u = Some a'
       /\ arrived u a u1 a') ->
  forall j v, age_packets us1 !! j = Some v ->
    StronglySorted das_before (packets v)
    /\ Forall (fun p => 0 <= remaining_time p < pdb v) (packets v).
Proof.
  intros (_ & Hcls & Hq) L1 Harr j v Hj.
  assert (Hlt : (j < length (users st))%nat).
  { rewrite <- L1. apply lookup_lt_Some in Hj.
    unfold age_packets in Hj. now rewrite length_map in Hj. }
  apply lookup_lt_is_Some in Hlt as [u Hu].
  destruct (Harr j u Hu)
    as (u1 & a & a' & Hu1 & _ & _ & (_ & _ & Hpdb) & new & Hnew & Hp1 & _).
  assert (Ev : v = set_packets (map age (packets u1)) u1).
  { unfold age_packets in Hj.
    change (map ?f us1) with (f <$> us1) in Hj.
    rewrite list_lookup_fmap, Hu1 in Hj. now injection Hj as <-. }
  assert (Hin : u ∈ users st) by now apply list_elem_of_lookup_2 in Hu.
  destruct (class_of_user _ _ Hcls u Hin) as [_ Hb].
  destruct (Hq u Hin) as [[Hsort Hr] _].
  destruct (aged_queue (packets u) new (pdb u) Hb Hsort Hr) as [Hs2 Hr2].
  { destruct Hnew as [->|[sz ->]]; [now left|right; eauto]. }
  rewrite Ev. cbn [packets pdb set_packets]. rewrite Hp1, Hpdb. now split.
Qed.

End DasQueueSplit.

(** C9. In the slot that follows any [n] slots of [simulate_das], with
    [us1] the users after the arrivals of lines 55-59 and
    [DAS.age_packets us1] the users at selection time: between slots every
    packet that arrived for a user is in exactly one of three places, its
    queue, the recorded delays (transmitted) or the timeout count
    ([DAS.accounted], before and after the slot); the queue at selection
    time is the old queue with at most one arrival, counted in
    [total_packets], and holds no packet twice; the selected user is the
    first user of maximal priority, and [das_user_accounts] holds of
    every user of the state that the slot computes: the head packet of
    the selected user leaves as a transmission, its delay appended to
    [delays] and its size the throughput of the slot, and the sweep
    counts timeouts in the rest of that queue only; every other queue is
    swept as a whole, and nothing is recorded in [delays] for it. So
    ([das_queue_split]) every packet of a queue is sent, or still queued,
    or timed out, and each packet that leaves is counted once, in
    [delays] or in [timeouts]. In particular a head packet of the
    selected user whose remaining time is already [<= 0] at selection,
    which the sweep would have counted, is transmitted with a recorded
    delay of at least the user's PDB, and the timeout count of that user
    does not change in the slot. *)
Theorem das_packet_accounted_once `{NumpyRandom}
    (beta : Q) (n : nat) (num_users : Z) (seed : option Z) (w : World) :
  DAS.seed_accepted seed ->
  exists st w1 us1 tp1 wa st' w2,
    DAS.run beta n num_users seed w = Ok (st, w1)
    /\ for_objects_with DAS.arrive (DAS.users st) (DAS.total_packets st) w1
       = Ok ((us1, tp1), wa)
    /\ DAS.slot beta st w1 = Ok (st', w2)
    /\ (forall u, u ∈ DAS.users st -> DAS.accounted st u)
    /\ (forall u, u ∈ DAS.users st' -> DAS.accounted st' u)
    /\ DAS.total_packets st' = tp1
    /\ length (DAS.users st') = length us1
    /\ (forall j u, DAS.users st !! j = Some u ->
          exists u1 a a',
            us1 !! j = Some u1
            /\ DAS.total_packets st !! DAS.id u = Some a
            /\ tp1 !! DAS.id u = Some a'
            /\ DAS.arrived u a u1 a')
    /\ exists transmitted_bytes,
         DAS.st_throughput_history st'
         = DAS.st_throughput_history st ++ [transmitted_bytes]
         /\ ((us1 = [] /\ transmitted_bytes = 0.0%Q)
             \/ exists i s,
                  first_maximum (DAS.priority beta) (DAS.age_packets us1) i s
                  /\ (forall j v, DAS.age_packets us1 !! j = Some v ->
                        NoDup (DAS.packets v)
                        /\ exists v',
                             DAS.users st' !! j = Some v'
                             /\ das_user_accounts st st' transmitted_bytes
                                  (bool_decide (j = i)) v v'
                             /\ das_queue_split st st' (bool_decide (j = i)) v v')
                  /\ (forall packet rest,
                        DAS.packets s = packet :: rest ->
                        DAS.remaining_time packet <= 0 ->
                        packet ∈ DAS.expired (DAS.packets s)
                        /\ DAS.pdb s <= DAS.pdb s - DAS.remaining_time packet
                        /\ transmitted_bytes = (0.0 + DAS.size packet)%Q
                        /\ exists t d,
                             DAS.timeouts st !! DAS.id s = Some t
                             /\ DAS.timeouts st' !! DAS.id s = Some t
                             /\ DAS.delays st !! DAS.id s = Some d
                             /\ DAS.delays st' !! DAS.id s
                                = Some (d ++ [DAS.pdb s - DAS.remaining_time packet]))).
Proof.
  intros Hs.
  destruct (das_run_fifo beta n num_users seed w Hs) as (st & w1 & E & HI).
  destruct (das_fifo_step beta _ n st w1 HI) as (st2 & w2' & E2 & (HI2 & _) & _).
  pose proof HI as (HI0 & _).
  destruct (das_slot_accounts beta st w1 (inv_wf n st HI0))
    as (us1 & tp1 & wa & st' & w2 & tb & Ea & Es & Htp & L1 & L5 & Harr & Hh & Hsel).
  assert (st2 = st') as -> by congruence.
  pose proof (queue_at_selection _ _ st us1 tp1 HI L1 Harr) as Hqueue.
  exists st, w1, us1, tp1, wa, st', w2.
  split; [exact E|]. split; [exact Ea|]. split; [exact Es|].
  split; [apply HI0|]. split; [apply HI2|]. split; [exact Htp|].
  split; [exact L5|]. split; [exact Harr|].
  exists tb. split; [exact Hh|].
  destruct Hsel as [Hnil|(i & s & Hfm & Hpt)]; [now left|].
  right. exists i, s. split; [exact Hfm|]. split.
  { intros j v Hj. destruct (Hqueue j v Hj) as [Hsort _].
    split; [now apply sorted_queue_NoDup|].
    destruct (Hpt j v Hj) as (v' & Hv' & Hacc).
    exists v'. split; [exact Hv'|]. split; [exact Hacc|].
    now apply (user_accounts_split st st' tb). }
  intros packet rest Ep Hrt.
  pose proof Hfm as [Hi _].
  destruct (Hqueue i s Hi) as [Hs2 Hr2]. rewrite Ep in Hs2, Hr2.
  apply Forall_cons in Hr2 as [Hr0 _].
  destruct (behind_the_head packet rest Hs2 ltac:(lia)) as [_ Hexp].
  destruct (Hpt i s Hi) as (v' & _ & _ & t & d & Ht & Hd & Hcase).
  rewrite bool_decide_eq_true_2, Ep in Hcase by reflexivity.
  destruct Hcase as (Htb & Hd' & _ & Ht').
  rewrite Hexp, Z.add_0_r in Ht'.
  split.
  { unfold DAS.expired. apply list_elem_of_filter. split; [exact Hrt|].
    rewrite Ep. left. }
  split; [lia|]. split; [exact Htb|].
  exists t, d. split; [exact Ht|]. split; [exact Ht'|]. split; [exact Hd|exact Hd'].
Qed.

Lemma das_packet_accounted_once_witness :
  DAS.seed_accepted (Some 1)
  /\ exists st w1 st' w2,
       DAS.run 0.7 6 5 (Some 1) (lcg_world 7) = Ok (st, w1)
       /\ DAS.slot 0.7 st w1 = Ok (st', w2)
       /\ forall u, u ∈ DAS.users st' -> DAS.accounted st' u.
Proof.
  assert (Hs : DAS.seed_accepted (Some 1)) by (simpl; eauto).
  split; [exact Hs|].
  destruct (das_packet_accounted_once 0.7 6 5 (Some 1) (lcg_world 7) Hs)
    as (st & w1 & us1 & tp1 & wa & st' & w2 & E & _ & Es & _ & Hacc & _).
  exists st, w1, st', w2. split; [exact E|]. split; [exact Es|exact Hacc].
Defined.

(** The seventh slot of that run, on the linear congruential generator:
    at selection the queues of the users 1, 3 and 4 each start with a
    packet that has no time left; user 3 is selected, its head packet is
    transmitted with the delay [5 = pdb] and its timeout count stays 0,
    while the head packet of user 1 is counted as a timeout. *)
Example das_expired_head_transmitted_in_a_run :
  match DAS.run 0.7 6 5 (Some 1) (lcg_world 7) with
  | Ok (st, w1) =>
      match for_objects_with DAS.arrive (DAS.users st) (DAS.total_packets st) w1,
            DAS.slot 0.7 st w1 with
      | Ok ((us1, _), _), Ok (st', _) =>
          option_map fst (max_by (DAS.priority 0.7) (DAS.age_packets us1)) = Some 3%nat
          /\ map (fun u => map DAS.remaining_time (DAS.packets u)) (DAS.age_packets us1)
             = [[]; [0; 3]; []; [0; 2]; [0; 3]]
          /\ map (fun u => map DAS.remaining_time (DAS.packets u)) (DAS.users st')
             = [[]; [3]; []; [2]; [3]]
          /\ DAS.delays st !! 3%nat = Some [3]
          /\ DAS.delays st' !! 3%nat = Some [3; 5]
          /\ DAS.timeouts st !! 3%nat = Some 0
          /\ DAS.timeouts st' !! 3%nat = Some 0
          /\ DAS.timeouts st !! 1%nat = Some 0
          /\ DAS.timeouts st' !! 1%nat = Some 1
      | _, _ => False
      end
  | Raise _ => False
  end.
Proof. vm_compute. repeat split. Qed.
